(** * Defect RCA assistant: retrieval gate, test-case quota, scoring, retry

    A shallow embedding of the three agent scripts of the repository:

    - the first script of [src/unnamed/part_000] (lines 1-403, text output,
      e-mail delivery), whose [cosine_similarity] groups its division
      differently from the other two;
    - the second script of [src/unnamed/part_000] (lines 411-748, text
      output, [get_solution]);
    - [src/TabularFormat.ipynb] (JSON output).

    The embedding keeps the code's names.  The external collaborators (the
    retriever, the embedding model, the language model, [json.loads], the
    CSV writer) are the fields of the class [Externals]; every call to one of them is
    recorded in the [trace] of the [world], next to the in-memory test-case
    table [test_cases_df]. *)

From Stdlib Require Import List ZArith Bool Arith Lia String Ascii Floats.
From Stdlib Require Import Reals Lra.
Import ListNotations.
Open Scope list_scope.
Open Scope string_scope.

Set Implicit Arguments.

(* ===================================================================== *)
(** ** Text: the [str] operations the scripts use *)
(* ===================================================================== *)

Module Str.

(** The line feed. *)
Definition LF : string := String (ascii_of_nat 10) EmptyString.

(** [str.isspace] on the code points below 256; [\s] of [re] is the same
    set for [str] patterns. *)
Definition is_space (c : ascii) : bool :=
  let n := nat_of_ascii c in
  (((9 <=? n) && (n <=? 13)) || ((28 <=? n) && (n <=? 32))
   || (n =? 133) || (n =? 160))%nat.

(** [s.lstrip()]. *)
Fixpoint lstrip (s : string) : string :=
  match s with
  | String c s' => if is_space c then lstrip s' else s
  | EmptyString => EmptyString
  end.

(** [s.rstrip()]: a character is kept when something that is not white
    space follows it or it is not white space itself. *)
Fixpoint rstrip (s : string) : string :=
  match s with
  | String c s' =>
      match rstrip s' with
      | EmptyString => if is_space c then EmptyString else String c EmptyString
      | r => String c r
      end
  | EmptyString => EmptyString
  end.

(** [s.strip()]. *)
Definition strip (s : string) : string := rstrip (lstrip s).

(** [s[n:]]. *)
Fixpoint drop (n : nat) (s : string) : string :=
  match n, s with
  | S k, String _ s' => drop k s'
  | _, _ => s
  end.

(** [sub in s]. *)
Fixpoint contains (sub s : string) : bool :=
  if prefix sub s then true
  else match s with
       | String _ s' => contains sub s'
       | EmptyString => false
       end.

(** [bool(s)]: a string is true when it is not empty. *)
Definition truthy (s : string) : bool :=
  match s with EmptyString => false | _ => true end.

(** Reversal, for the accumulator of [split]. *)
Fixpoint rev_onto (s acc : string) : string :=
  match s with
  | String c s' => rev_onto s' (String c acc)
  | EmptyString => acc
  end.

(** [re.split(delimiter, s)] for a pattern that is a literal, non-empty
    text: the pieces between the leftmost non-overlapping occurrences.
    [skip] counts the characters of a delimiter still to be passed over,
    [cur] is the current piece, reversed. *)
Fixpoint split_from (delimiter : string) (skip : nat) (cur s : string)
  : list string :=
  match s with
  | EmptyString => [rev_onto cur EmptyString]
  | String c s' =>
      match skip with
      | S k => split_from delimiter k cur s'
      | O =>
          if prefix delimiter s
          then rev_onto cur EmptyString
               :: split_from delimiter (String.length delimiter - 1) EmptyString s'
          else split_from delimiter 0 (String c cur) s'
      end
  end.

Definition split (delimiter s : string) : list string :=
  split_from delimiter 0 EmptyString s.

(** [sep.join(parts)]. *)
Definition join (sep : string) (parts : list string) : string :=
  String.concat sep parts.

End Str.

(* ===================================================================== *)
(** ** Data model *)
(* ===================================================================== *)

(** A [Document] of the defect store: the description is the page content,
    the solution and the module are its metadata. *)
Record Document := {
  page_content : string;
  solution : string;
  module : string
}.

(** A test case: a row of [test_cases_df], and the six-key dictionary the
    text scripts build for it.  ([Module] is a keyword here, hence
    [Module_].)  Cells are text: a table read back from a CSV file in which
    a cell is missing is outside this model. *)
Record TestCase := {
  Module_ : string;
  Test_Scenario : string;
  Test_Steps : string;
  Pre_Requisite : string;
  Pass_Fail_Criteria : string;
  Expected_Result : string
}.

(** The five-key dictionary [fields] of [parse_test_case]. *)
Module Parsed.
Record t := {
  Test_Scenario : string;
  Test_Steps : string;
  Pre_Requisite : string;
  Expected_Result : string;
  Pass_Fail_Criteria : string
}.
End Parsed.

(** What [json.loads] yields.  A case is a dictionary with text values, or
    some other JSON value; [subscript_error] is then the text of the
    [TypeError] raised by indexing it with a string.  Dictionaries have no
    repeated key. *)
Inductive jitem :=
| JDict (entries : list (string * string))
| JNonDict (subscript_error : string).

(** The whole parsed response: an array, or anything else.  Of a value
    that is not an array the script sees its truth value, and a [TypeError]
    when it adds it to a list or loops over it as over a list of cases;
    [type_error] is the text of that error. *)
Inductive jvalue :=
| JList (items : list jitem)
| JNonList (truth : bool) (type_error : string).

(** The prompts sent to the language model: the template and the values
    substituted into it.  [json] tells the templates of the JSON-output
    script from those of the text scripts. *)
Inductive existing_cases :=
| ExistingText (existing_str : string)
| ExistingJson (csv_test_cases : list TestCase).

Inductive prompt :=
| explanation_prompt (error solution : string)
| additional_prompt (num : Z) (error solution explanation : string)
                    (existing_test_cases : existing_cases)
| full_prompt (json : bool) (error solution explanation : string)
| alt_prompt (error : string)
| test_case_prompt (json : bool) (error solution : string).

(** Python exceptions, with [str(e)]. *)
Inductive exn :=
| KeyError (key : string)
| TypeError (msg : string)
| ValueError (msg : string)
| UnboundLocalError (name : string)
| ExternalError (msg : string).

Definition quote (s : string) : string := "'" ++ s ++ "'".

Definition str_exn (e : exn) : string :=
  match e with
  | KeyError key => quote key
  | TypeError msg => msg
  | ValueError msg => msg
  | UnboundLocalError name =>
      "cannot access local variable " ++ quote name
      ++ " where it is not associated with a value"
  | ExternalError msg => msg
  end.

(** The calls that leave the program. *)
Inductive event :=
| EvAgentInvoke (input : string)
| EvRetrieve (query : string)
| EvEmbed (text : string)
| EvLlm (p : prompt)
| EvToCsv (rows : list TestCase).

(** The external collaborators: each either raises or answers.  An answer
    is a function of the argument: within one request no prompt is sent
    twice, so nothing is lost for the language model. *)
Class Externals := {
  retriever_invoke : string -> exn + list Document;
  embed_query : string -> exn + list float;
  llm_invoke : prompt -> exn + string;
  json_loads : string -> exn + jvalue;
  to_csv : list TestCase -> exn + unit
}.

(** The state a request runs in: the global table and the calls made. *)
Record world := {
  test_cases_df : list TestCase;
  trace : list event
}.

(* ===================================================================== *)
(** ** A state and exception monad *)
(* ===================================================================== *)

(** A computation changes the world and returns or raises; what it did
    before raising stays done. *)
Definition M (A : Type) : Type := world -> (exn + A) * world.

Definition ret {A} (a : A) : M A := fun w => (inr a, w).

Definition raise {A} (e : exn) : M A := fun w => (inl e, w).

Definition bind {A B} (m : M A) (k : A -> M B) : M B :=
  fun w =>
    match m w with
    | (inr a, w') => k a w'
    | (inl e, w') => (inl e, w')
    end.

(** [try: m except Exception as e: handler(e)]. *)
Definition try_except {A} (m : M A) (handler : exn -> M A) : M A :=
  fun w =>
    match m w with
    | (inl e, w') => handler e w'
    | r => r
    end.

Declare Scope py_scope.
Delimit Scope py_scope with py.
Notation "x <- m ;; k" := (bind m (fun x => k))
  (at level 61, m at next level, right associativity) : py_scope.
Notation "m ;;; k" := (bind m (fun _ => k))
  (at level 61, right associativity) : py_scope.
Open Scope py_scope.

Definition log (ev : event) (w : world) : world :=
  {| test_cases_df := test_cases_df w; trace := (trace w ++ [ev])%list |}.

(** A call to a collaborator: recorded, then answered. *)
Definition call {A} (ev : event) (answer : exn + A) : M A :=
  fun w => (answer, log ev w).

Definition get_df : M (list TestCase) := fun w => (inr (test_cases_df w), w).

Definition set_df (df : list TestCase) : M unit :=
  fun w => (inr tt, {| test_cases_df := df; trace := trace w |}).

(** The events of a trace that are generation calls. *)
Definition is_llm (ev : event) : bool :=
  match ev with EvLlm _ => true | _ => false end.

Definition llm_calls (tr : list event) : list event := filter is_llm tr.

(** A step that cannot change the world. *)
Definition lift {A} (r : exn + A) : M A := fun w => (r, w).

(** Sequencing of steps that only return or raise. *)
Definition and_then {A B} (r : exn + A) (k : A -> exn + B) : exn + B :=
  match r with
  | inr a => k a
  | inl e => inl e
  end.

(* ===================================================================== *)
(** ** Similarity gate *)
(* ===================================================================== *)

(** [np.dot] on two vectors: a [ValueError] when the shapes differ.  The
    products are summed from the left; numpy leaves the order of the sum to
    its kernel and words the error with the two shapes, so the last bit of
    a sum of three or more products and the text of the error are not
    fixed by this definition. *)
Fixpoint dot_from (acc : float) (vec1 vec2 : list float) : exn + float :=
  match vec1, vec2 with
  | [], [] => inr acc
  | x :: vec1', y :: vec2' => dot_from (acc + x * y)%float vec1' vec2'
  | _, _ => inl (ValueError "shapes not aligned")
  end.

Definition np_dot (vec1 vec2 : list float) : exn + float :=
  dot_from 0%float vec1 vec2.

(** [np.linalg.norm] of a vector: the square root of the sum of squares. *)
Definition np_linalg_norm (vec : list float) : float :=
  PrimFloat.sqrt (fold_left (fun acc x => acc + x * x)%float vec 0%float).

(** [cosine_similarity] of the second script and of the JSON script
    (part_000 line 460, TabularFormat.ipynb line 51). *)
Definition cosine_similarity (vec1 vec2 : list float) : exn + float :=
  match np_dot vec1 vec2 with
  | inr d => inr (d / (np_linalg_norm vec1 * np_linalg_norm vec2))%float
  | inl e => inl e
  end.

Module FirstScript.
(** [cosine_similarity] of the first script (part_000 line 36): the
    division by the first norm, then a multiplication by the second. *)
Definition cosine_similarity (vec1 vec2 : list float) : exn + float :=
  match np_dot vec1 vec2 with
  | inr d => inr (d / (np_linalg_norm vec1) * (np_linalg_norm vec2))%float
  | inl e => inl e
  end.
End FirstScript.

(** The same two expressions over the real numbers, where the algebra of
    the specification ("algebraically equivalent") can be stated.  The
    vectors are taken of one length; [dot] stops at the end of the shorter. *)
Module Exact.

Fixpoint dot (vec1 vec2 : list R) : R :=
  match vec1, vec2 with
  | x :: vec1', y :: vec2' => (x * y + dot vec1' vec2')%R
  | _, _ => 0%R
  end.

Definition norm (vec : list R) : R := sqrt (dot vec vec).

Definition cosine_similarity (vec1 vec2 : list R) : R :=
  (dot vec1 vec2 / (norm vec1 * norm vec2))%R.

Definition cosine_similarity_first (vec1 vec2 : list R) : R :=
  (dot vec1 vec2 / (norm vec1) * (norm vec2))%R.

End Exact.

(** The threshold of the call site, the double nearest to 0.6, and the
    default one. *)
Definition threshold_call_site : float := 0x1.3333333333333p-1%float.
Definition threshold_default : float := 0.5%float.

Section Gate.
Context {ext : Externals}.
(** The script's [cosine_similarity]. *)
Variable cosine : list float -> list float -> exn + float.

Definition get_embedding (text : string) : M (list float) :=
  call (EvEmbed text) (embed_query text).

Definition is_similar (query : string) (document : Document)
    (threshold : float) : M bool :=
  query_emb <- get_embedding query ;;
  doc_emb <- get_embedding (page_content document) ;;
  sim <- lift (cosine query_emb doc_emb) ;;
  ret (threshold <=? sim)%float.

(** The similarity [is_similar] compares with the threshold: that of the
    query and of the document's description, when both embeddings and the
    cosine are computed. *)
Definition similarity (query : string) (document : Document) : exn + float :=
  and_then (embed_query query) (fun query_emb =>
  and_then (embed_query (page_content document)) (fun doc_emb =>
  cosine query_emb doc_emb)).

End Gate.

(* ===================================================================== *)
(** ** The test-case table *)
(* ===================================================================== *)

(** [DataFrame.empty]. *)
Definition df_empty (df : list TestCase) : bool :=
  match df with [] => true | _ => false end.

(** [all(str(row.get(field, "")).strip() for field in required_fields)]. *)
Definition proper (row : TestCase) : bool :=
  Str.truthy (Str.strip (Test_Scenario row))
  && Str.truthy (Str.strip (Test_Steps row))
  && Str.truthy (Str.strip (Pre_Requisite row))
  && Str.truthy (Str.strip (Pass_Fail_Criteria row))
  && Str.truthy (Str.strip (Expected_Result row)).

Definition get_csv_test_cases (module : string) : M (list TestCase) :=
  df <- get_df ;;
  if df_empty df then ret []
  else
    let df_filtered := filter (fun row => Module_ row =? module) df in
    ret (filter proper df_filtered).

(** The mask of the [duplicate] selection: the row equals the case on the
    six columns. *)
Definition duplicate_mask (case row : TestCase) : bool :=
  (Module_ row =? Module_ case)
  && (Test_Scenario row =? Test_Scenario case)
  && (Test_Steps row =? Test_Steps case)
  && (Pre_Requisite row =? Pre_Requisite case)
  && (Pass_Fail_Criteria row =? Pass_Fail_Criteria case)
  && (Expected_Result row =? Expected_Result case).

(** The loop of [save_new_test_cases] over [new_cases]: every case is
    compared with the table as it was when the function was entered. *)
Fixpoint rows_to_add (df new_cases : list TestCase) : list TestCase :=
  match new_cases with
  | [] => []
  | case :: rest =>
      let duplicate := filter (duplicate_mask case) df in
      if df_empty duplicate then case :: rows_to_add df rest
      else rows_to_add df rest
  end.

Section Table.
Context {ext : Externals}.

(** [save_new_test_cases] of the text scripts (part_000 lines 116-142 and
    503-523). *)
Definition save_new_test_cases (new_cases : list TestCase) : M unit :=
  df0 <- get_df ;;
  (if df_empty df0 then set_df [] else ret tt) ;;;
  df <- get_df ;;
  let rows := rows_to_add df new_cases in
  match rows with
  | [] => ret tt
  | _ =>
      set_df (df ++ rows)%list ;;;
      call (EvToCsv (df ++ rows)%list) (to_csv (df ++ rows)%list)
  end.

(** [llm.invoke(...).content.strip()]. *)
Definition llm_content (p : prompt) : M string :=
  reply <- call (EvLlm p) (llm_invoke p) ;;
  ret (Str.strip reply).

End Table.

(* ===================================================================== *)
(** ** Parsing generated text (part_000 lines 95-113 and 487-500) *)
(* ===================================================================== *)

(** The labels of the lookahead
    [(?=(Test_Steps:|Pre_Requisite:|Expected_Result:|Pass_Fail_Criteria:|$))]. *)
Definition lookahead_labels : list string :=
  ["Test_Steps:"; "Pre_Requisite:"; "Expected_Result:"; "Pass_Fail_Criteria:"].

(** [$] without [re.MULTILINE]: the end of the text, or the place before a
    line feed that ends the text. *)
Definition at_dollar (s : string) : bool :=
  (s =? EmptyString) || (s =? Str.LF).

Definition lookahead (s : string) : bool :=
  existsb (fun label => prefix label s) lookahead_labels || at_dollar s.

(** [(.*?)\s*(?=...)] matched at [s] under [re.DOTALL]: group 1.  The lazy
    group grows by one character until the white space after it is followed
    by a lookahead label or by [$].  The greedy [\s*] needs no backtracking:
    a label starts with a letter, and [$] before a final line feed also
    holds once that line feed is taken. *)
Fixpoint lazy_group (s : string) : string :=
  if lookahead (Str.lstrip s) then EmptyString
  else match s with
       | String c s' => String c (lazy_group s')
       | EmptyString => EmptyString
       end.

(** [re.search(field + r":\s*(.*?)\s*(?=...)", tc_text, re.DOTALL)]: group 1
    of the leftmost match, [None] when the label does not occur.  The first
    [\s*] takes all the white space after the colon: the rest of the pattern
    matches wherever it starts. *)
Fixpoint re_search (field tc_text : string) : option string :=
  if prefix (field ++ ":") tc_text
  then Some (lazy_group
               (Str.lstrip (Str.drop (String.length (field ++ ":")) tc_text)))
  else match tc_text with
       | String _ rest => re_search field rest
       | EmptyString => None
       end.

(** One turn of the loop over [fields.keys()]. *)
Definition parse_field (field tc_text : string) : string :=
  match re_search field tc_text with
  | Some group1 => Str.strip group1
  | None => EmptyString
  end.

Definition parse_test_case (tc_text : string) : Parsed.t :=
  {| Parsed.Test_Scenario := parse_field "Test_Scenario" tc_text;
     Parsed.Test_Steps := parse_field "Test_Steps" tc_text;
     Parsed.Pre_Requisite := parse_field "Pre_Requisite" tc_text;
     Parsed.Expected_Result := parse_field "Expected_Result" tc_text;
     Parsed.Pass_Fail_Criteria := parse_field "Pass_Fail_Criteria" tc_text |}.

(* ===================================================================== *)
(** ** The retry controller, shared by the three scripts *)
(* ===================================================================== *)

(** How the body of a loop ends: by [return], or by reaching its last
    statement with [response] bound. *)
Inductive flow (R : Type) :=
| Returned (value : R)
| Fell_through (response : R).

Definition max_iterations : nat := 3.

Section Controller.
(** The response type of the script, and its three functions. *)
Variable R : Type.
Variable agent_invoke_response : string -> M R.
Variable auto_evaluate_solution : R -> Z.
Variable generate_alternative_solution : string -> M R.

(** The body of the [while] loop of [get_solution_autonomously]: both
    branches of the conditional return, [iteration += 1] is never reached. *)
Definition loop_body (error_message : string) : M (flow R) :=
  response <- agent_invoke_response (Str.strip error_message) ;;
  let rating := auto_evaluate_solution response in
  if (rating <? 3)%Z then
    alt_response <- generate_alternative_solution error_message ;;
    ret (Returned alt_response)
  else
    ret (Returned response).

(** [while iteration < max_iterations], with [remaining] for
    [max_iterations - iteration]; after the loop, [return response]. *)
Fixpoint while_loop (remaining : nat) (response : option R)
    (error_message : string) : M R :=
  match remaining with
  | O =>
      match response with
      | Some r => ret r
      | None => raise (UnboundLocalError "response")
      end
  | S remaining' =>
      outcome <- loop_body error_message ;;
      match outcome with
      | Returned value => ret value
      | Fell_through r => while_loop remaining' (Some r) error_message
      end
  end.

Definition get_solution_autonomously (error_message : string) : M R :=
  while_loop max_iterations None error_message.

(** The single evaluation the specification compares it with: one
    invocation, one score, one choice. *)
Definition single_shot (error_message : string) : M R :=
  response <- agent_invoke_response (Str.strip error_message) ;;
  if (auto_evaluate_solution response <? 3)%Z
  then generate_alternative_solution error_message
  else ret response.

End Controller.

(* ===================================================================== *)
(** ** The text-output scripts (part_000 lines 144-392 and 525-742) *)
(* ===================================================================== *)

Module Script.

(** [AgentState]; a key not yet written is [None]. *)
Record AgentState := {
  input : string;
  context : list Document;
  response : option string
}.

Definition NOT_FOUND : string :=
  "**Error**: The defect could not be found in the database.".

Definition REQUIRED_TEST_CASE_COUNT : nat := 4.

Definition delimiter : string :=
  Str.LF ++ "### END TEST CASE ###" ++ Str.LF.

(** [format_tc], which is also the line format of [existing_str]. *)
Definition format_tc (tc : TestCase) : string :=
  "Test_Scenario: " ++ Test_Scenario tc ++ Str.LF
  ++ "Test_Steps: " ++ Test_Steps tc ++ Str.LF
  ++ "Pre_Requisite: " ++ Pre_Requisite tc ++ Str.LF
  ++ "Expected_Result: " ++ Expected_Result tc ++ Str.LF
  ++ "Pass_Fail_Criteria: " ++ Pass_Fail_Criteria tc.

Definition response_template (Error Solution Explanation TestCases : string)
  : string :=
  "**Error:**" ++ Str.LF ++ Error ++ Str.LF ++ Str.LF
  ++ "**Solution:**" ++ Str.LF ++ Solution ++ Str.LF ++ Str.LF
  ++ "**Explanation:**" ++ Str.LF ++ Explanation ++ Str.LF ++ Str.LF
  ++ "**Test Cases:**" ++ Str.LF ++ TestCases.

(** The response the node builds from the selected cases. *)
Definition format_response (error_message solution explanation : string)
    (selected_cases : list TestCase) : string :=
  response_template error_message solution explanation
    (Str.join (Str.LF ++ Str.LF) (map format_tc selected_cases)).

(** The text [generate_alternative_solution] formats. *)
Definition alt_response (AltSolution AltTestCases : string) : string :=
  "**Alternative Solution (Generated):**" ++ Str.LF
  ++ AltSolution ++ Str.LF ++ Str.LF
  ++ "**Test Cases for Alternative Solution:**" ++ Str.LF
  ++ AltTestCases.

(** The response of the [except] branch. *)
Definition error_response (e : exn) : string :=
  "Error processing request: " ++ str_exn e.

(** [[tc.strip() for tc in re.split(delimiter, text) if tc.strip()]]. *)
Definition cases_raw (text : string) : list string :=
  map Str.strip
    (filter (fun tc => Str.truthy (Str.strip tc)) (Str.split delimiter text)).

(** The dictionary appended for a parsed block. *)
Definition case_of (module : string) (parsed : Parsed.t) : TestCase :=
  {| Module_ := module;
     Test_Scenario := Parsed.Test_Scenario parsed;
     Test_Steps := Parsed.Test_Steps parsed;
     Pre_Requisite := Parsed.Pre_Requisite parsed;
     Pass_Fail_Criteria := Parsed.Pass_Fail_Criteria parsed;
     Expected_Result := Parsed.Expected_Result parsed |}.

(** The loop [for tc_raw in ..._cases_raw]: a block is kept when its
    parsed scenario is not empty. *)
Fixpoint parsed_cases (module : string) (raw : list string) : list TestCase :=
  match raw with
  | [] => []
  | tc_raw :: rest =>
      let parsed := parse_test_case tc_raw in
      if Str.truthy (Parsed.Test_Scenario parsed)
      then case_of module parsed :: parsed_cases module rest
      else parsed_cases module rest
  end.

Section Pipeline.
Context {ext : Externals}.
(** The script's [cosine_similarity]. *)
Variable cosine : list float -> list float -> exn + float.

(** The Test Case Manager: the value of [selected_cases] (part_000 lines
    180-269 and 557-643). *)
Definition selected_cases (module error_message solution explanation : string)
  : M (list TestCase) :=
  csv_test_cases <- get_csv_test_cases module ;;
  if negb (df_empty csv_test_cases)
     && (REQUIRED_TEST_CASE_COUNT <=? List.length csv_test_cases)%nat
  then ret csv_test_cases
  else if negb (df_empty csv_test_cases)
          && (List.length csv_test_cases <? REQUIRED_TEST_CASE_COUNT)%nat
  then
    let num_to_generate :=
      (Z.of_nat REQUIRED_TEST_CASE_COUNT
       - Z.of_nat (List.length csv_test_cases))%Z in
    let existing_str := Str.join Str.LF (map format_tc csv_test_cases) in
    additional_response <-
      llm_content (additional_prompt num_to_generate error_message solution
                     explanation (ExistingText existing_str)) ;;
    let additional_cases :=
      parsed_cases module (cases_raw additional_response) in
    (if negb (df_empty additional_cases)
     then save_new_test_cases additional_cases else ret tt) ;;;
    ret (csv_test_cases ++ additional_cases)%list
  else
    full_response <-
      llm_content (full_prompt false error_message solution explanation) ;;
    let generated := parsed_cases module (cases_raw full_response) in
    (if negb (df_empty generated)
     then save_new_test_cases generated else ret tt) ;;;
    ret generated.

(** The [try] block of [validate_or_generate_test_cases]. *)
Definition try_block (state : AgentState) : M string :=
  match context state with
  | [] => ret NOT_FOUND
  | context0 :: _ =>
      let error_message := input state in
      similar <- is_similar cosine error_message context0
                   threshold_call_site ;;
      if negb similar then ret NOT_FOUND
      else
        let solution := solution context0 in
        let module := module context0 in
        explanation <-
          llm_content (explanation_prompt error_message solution) ;;
        cases <- selected_cases module error_message solution explanation ;;
        ret (format_response error_message solution explanation cases)
  end.

Definition validate_or_generate_test_cases (state : AgentState) : M string :=
  try_except (try_block state) (fun e => ret (error_response e)).

(** The compiled graph: [retrieve], then the node above, then [END]. *)
Definition agent_invoke (input : string) : M AgentState :=
  call (EvAgentInvoke input) (inr tt) ;;;
  context <- call (EvRetrieve input) (retriever_invoke input) ;;
  response <- validate_or_generate_test_cases
                {| input := input; context := context; response := None |} ;;
  ret {| input := input; context := context; response := Some response |}.

(** [result["response"]]. *)
Definition agent_invoke_response (input : string) : M string :=
  result <- agent_invoke input ;;
  match response result with
  | Some response => ret response
  | None => raise (KeyError "response")
  end.

Definition auto_evaluate_solution (response : string) : Z :=
  if Str.contains "### END TEST CASE ###" response then 5%Z
  else if Str.contains "**Error**:" response then 1%Z
  else 3%Z.

Definition generate_alternative_solution (error_message : string) : M string :=
  alternative_solution <- llm_content (alt_prompt error_message) ;;
  alternative_test_cases <-
    llm_content (test_case_prompt false error_message alternative_solution) ;;
  ret (alt_response alternative_solution alternative_test_cases).

Definition get_solution_autonomously : string -> M string :=
  get_solution_autonomously agent_invoke_response auto_evaluate_solution
    generate_alternative_solution.

(** [get_solution] of the second script. *)
Definition get_solution (error_message : string) : M string :=
  get_solution_autonomously error_message.

End Pipeline.

End Script.

(* ===================================================================== *)
(** ** The JSON-output script (TabularFormat.ipynb lines 77-267) *)
(* ===================================================================== *)

Module Tabular.

(** The response dictionaries the script builds: [{"Error": ...}], the
    four-key result, and the alternative. *)
Inductive Response :=
| ErrorResponse (Error : string)
| Result (Error Solution Explanation : string) (TestCases : jvalue)
| Alternative (AlternativeSolution : string) (TestCases : jvalue).

Record AgentState := {
  input : string;
  context : list Document;
  response : option Response
}.

Definition NOT_FOUND : string :=
  "**Error**: The defect could not be found in the database.".

Definition REQUIRED_TEST_CASE_COUNT : nat := 4.

(** The response of the [except] branch. *)
Definition error_response (e : exn) : Response :=
  ErrorResponse ("Error processing request: " ++ str_exn e).

(** [tc_dict] of [get_csv_test_cases]: the five required fields, then the
    module. *)
Definition dict_of_case (tc : TestCase) : jitem :=
  JDict [("Test_Scenario", Test_Scenario tc);
         ("Test_Steps", Test_Steps tc);
         ("Pre_Requisite", Pre_Requisite tc);
         ("Pass_Fail_Criteria", Pass_Fail_Criteria tc);
         ("Expected_Result", Expected_Result tc);
         ("Module", Module_ tc)].

Fixpoint lookup (key : string) (entries : list (string * string))
  : option string :=
  match entries with
  | [] => None
  | (k, v) :: rest => if k =? key then Some v else lookup key rest
  end.

(** [case[key]]. *)
Definition subscript (case : jitem) (key : string) : exn + string :=
  match case with
  | JDict entries =>
      match lookup key entries with
      | Some v => inr v
      | None => inl (KeyError key)
      end
  | JNonDict subscript_error => inl (TypeError subscript_error)
  end.

(** The six subscripts of the [duplicate] mask, in the order they are
    evaluated; together they are the row the case stands for. *)
Definition row_of (case : jitem) : exn + TestCase :=
  and_then (subscript case "Module") (fun m =>
  and_then (subscript case "Test_Scenario") (fun scenario =>
  and_then (subscript case "Test_Steps") (fun steps =>
  and_then (subscript case "Pre_Requisite") (fun pre =>
  and_then (subscript case "Pass_Fail_Criteria") (fun criteria =>
  and_then (subscript case "Expected_Result") (fun expected =>
  inr {| Module_ := m; Test_Scenario := scenario; Test_Steps := steps;
         Pre_Requisite := pre; Pass_Fail_Criteria := criteria;
         Expected_Result := expected |})))))).

(** The loop of [save_new_test_cases] over a list of parsed cases.  The
    rows are those [pd.DataFrame(rows_to_add)] has on the six columns. *)
Fixpoint rows_to_add (df : list TestCase) (new_cases : list jitem)
  : exn + list TestCase :=
  match new_cases with
  | [] => inr []
  | case :: rest =>
      and_then (row_of case) (fun row =>
        let duplicate := filter (duplicate_mask row) df in
        and_then (rows_to_add df rest) (fun rows =>
          inr (if df_empty duplicate then row :: rows else rows)))
  end.

(** [bool(value)]. *)
Definition truth_value (value : jvalue) : bool :=
  match value with
  | JList items => match items with [] => false | _ => true end
  | JNonList truth _ => truth
  end.

Section Pipeline.
Context {ext : Externals}.

(** [save_new_test_cases] (lines 78-98). *)
Definition save_new_test_cases (new_cases : jvalue) : M unit :=
  df0 <- get_df ;;
  (if df_empty df0 then set_df [] else ret tt) ;;;
  df <- get_df ;;
  rows <- match new_cases with
          | JList items => lift (rows_to_add df items)
          | JNonList _ type_error => raise (TypeError type_error)
          end ;;
  match rows with
  | [] => ret tt
  | _ =>
      set_df (df ++ rows)%list ;;;
      call (EvToCsv (df ++ rows)%list) (to_csv (df ++ rows)%list)
  end.

(** [try: json.loads(text) except Exception: []]. *)
Definition loads_or_empty (text : string) : M jvalue :=
  try_except (lift (json_loads text)) (fun _ => ret (JList [])).

(** [csv_test_cases + additional_cases]. *)
Definition concatenate (csv_test_cases : list TestCase)
    (additional_cases : jvalue) : M jvalue :=
  match additional_cases with
  | JList items => ret (JList (map dict_of_case csv_test_cases ++ items)%list)
  | JNonList _ type_error => raise (TypeError type_error)
  end.

(** The Test Case Manager: the value of [selected_cases] (lines 131-186). *)
Definition selected_cases (module error_message solution explanation : string)
  : M jvalue :=
  csv_test_cases <- get_csv_test_cases module ;;
  if negb (df_empty csv_test_cases)
     && (REQUIRED_TEST_CASE_COUNT <=? List.length csv_test_cases)%nat
  then ret (JList (map dict_of_case csv_test_cases))
  else if negb (df_empty csv_test_cases)
          && (List.length csv_test_cases <? REQUIRED_TEST_CASE_COUNT)%nat
  then
    let num_to_generate :=
      (Z.of_nat REQUIRED_TEST_CASE_COUNT
       - Z.of_nat (List.length csv_test_cases))%Z in
    additional_response <-
      llm_content (additional_prompt num_to_generate error_message solution
                     explanation (ExistingJson csv_test_cases)) ;;
    additional_cases <- loads_or_empty additional_response ;;
    selected <- concatenate csv_test_cases additional_cases ;;
    (if truth_value additional_cases
     then save_new_test_cases additional_cases else ret tt) ;;;
    ret selected
  else
    full_response <-
      llm_content (full_prompt true error_message solution explanation) ;;
    selected <- loads_or_empty full_response ;;
    (if truth_value selected
     then save_new_test_cases selected else ret tt) ;;;
    ret selected.

(** The [try] block of [validate_or_generate_test_cases]. *)
Definition try_block (state : AgentState) : M Response :=
  match context state with
  | [] => ret (ErrorResponse NOT_FOUND)
  | context0 :: _ =>
      let error_message := input state in
      similar <- is_similar cosine_similarity error_message context0
                   threshold_call_site ;;
      if negb similar then ret (ErrorResponse NOT_FOUND)
      else
        let solution := solution context0 in
        let module := module context0 in
        explanation <-
          llm_content (explanation_prompt error_message solution) ;;
        cases <- selected_cases module error_message solution explanation ;;
        ret (Result error_message solution explanation cases)
  end.

Definition validate_or_generate_test_cases (state : AgentState)
  : M Response :=
  try_except (try_block state) (fun e => ret (error_response e)).

Definition agent_invoke (input : string) : M AgentState :=
  call (EvAgentInvoke input) (inr tt) ;;;
  context <- call (EvRetrieve input) (retriever_invoke input) ;;
  response <- validate_or_generate_test_cases
                {| input := input; context := context; response := None |} ;;
  ret {| input := input; context := context; response := Some response |}.

Definition agent_invoke_response (input : string) : M Response :=
  result <- agent_invoke input ;;
  match response result with
  | Some response => ret response
  | None => raise (KeyError "response")
  end.

(** The value under ["TestCases"], when the key is there. *)
Definition test_cases_of (response : Response) : option jvalue :=
  match response with
  | ErrorResponse _ => None
  | Result _ _ _ cases => Some cases
  | Alternative _ cases => Some cases
  end.

Definition auto_evaluate_solution (response : Response) : Z :=
  match test_cases_of response with
  | Some (JList (_ :: _)) => 5%Z
  | _ => 1%Z
  end.

Definition generate_alternative_solution (error_message : string)
  : M Response :=
  alternative_solution <- llm_content (alt_prompt error_message) ;;
  alternative_test_cases_output <-
    llm_content (test_case_prompt true error_message alternative_solution) ;;
  alternative_test_cases <- loads_or_empty alternative_test_cases_output ;;
  ret (Alternative alternative_solution alternative_test_cases).

Definition get_solution_autonomously : string -> M Response :=
  get_solution_autonomously agent_invoke_response auto_evaluate_solution
    generate_alternative_solution.

Definition get_solution (error_message : string) : M Response :=
  get_solution_autonomously error_message.

End Pipeline.

End Tabular.

(* ===================================================================== *)
(** ** The specification's words, and what the theorems measure *)
(* ===================================================================== *)

(** The part of [lookahead] that looks for a label. *)
Definition has_lookahead_label (s : string) : bool :=
  existsb (fun label => prefix label s) lookahead_labels.

(** The closed form of the specification, [dot(a,b) / (|a| * |b|)], is
    [cosine_similarity] above.  The five labels a block is to carry, by the
    docstring of [parse_test_case]: *)
Definition known_labels : list string :=
  "Test_Scenario:" :: lookahead_labels.

(** The text before the first of [labels], or all of it when none occurs. *)
Fixpoint up_to_label (labels : list string) (s : string) : string :=
  if existsb (fun label => prefix label s) labels then EmptyString
  else match s with
       | String c s' => String c (up_to_label labels s')
       | EmptyString => EmptyString
       end.

(** The text after the first occurrence of [label]. *)
Fixpoint after_label (label s : string) : option string :=
  if prefix label s then Some (Str.drop (String.length label) s)
  else match s with
       | String _ s' => after_label label s'
       | EmptyString => None
       end.

(** "Everything between its label and the next known label (or end of
    text), trimming whitespace; unmatched fields default to empty string",
    for the labels [labels]. *)
Definition between_labels (labels : list string) (field text : string)
  : string :=
  match after_label (field ++ ":") text with
  | Some rest => Str.strip (up_to_label labels rest)
  | None => EmptyString
  end.

(** [parse_test_case] as the specification words it. *)
Definition parse_test_case_spec (tc_text : string) : Parsed.t :=
  {| Parsed.Test_Scenario := between_labels known_labels "Test_Scenario" tc_text;
     Parsed.Test_Steps := between_labels known_labels "Test_Steps" tc_text;
     Parsed.Pre_Requisite := between_labels known_labels "Pre_Requisite" tc_text;
     Parsed.Expected_Result :=
       between_labels known_labels "Expected_Result" tc_text;
     Parsed.Pass_Fail_Criteria :=
       between_labels known_labels "Pass_Fail_Criteria" tc_text |}.

(** "No two stored records share all six fields": records with the same six
    fields are equal, so this is the absence of repetition. *)
Definition no_two_rows_agree (df : list TestCase) : Prop := NoDup df.

Definition TestCase_eq_dec (a b : TestCase) : {a = b} + {a <> b}.
Proof. decide equality; apply string_dec. Defined.

(** Counting the calls of a kind in a trace. *)
Definition count (kind : event -> bool) (tr : list event) : nat :=
  List.length (filter kind tr).

Definition is_agent_invoke (ev : event) : bool :=
  match ev with EvAgentInvoke _ => true | _ => false end.

Definition is_alt_prompt (ev : event) : bool :=
  match ev with EvLlm (alt_prompt _) => true | _ => false end.

Definition is_to_csv (ev : event) : bool :=
  match ev with EvToCsv _ => true | _ => false end.

(** A computation that only adds calls satisfying [P] to the trace. *)
Definition emits (P : event -> Prop) {A} (m : M A) : Prop :=
  forall w, exists evs,
    trace (snd (m w)) = (trace w ++ evs)%list /\ Forall P evs.

(** The calls the validate/generate node can make. *)
Definition node_event (ev : event) : Prop :=
  match ev with
  | EvEmbed _ | EvToCsv _ => True
  | EvLlm (explanation_prompt _ _)
  | EvLlm (additional_prompt _ _ _ _ _)
  | EvLlm (full_prompt _ _ _ _) => True
  | _ => False
  end.

(** A computation that adds between [lo] and [hi] calls of a kind. *)
Definition adds (kind : event -> bool) (lo hi : nat) {A} (m : M A) : Prop :=
  forall w,
    (count kind (trace w) + lo <= count kind (trace (snd (m w)))
     /\ count kind (trace (snd (m w))) <= count kind (trace w) + hi)%nat.

(** The valid stored set of a module: what [get_csv_test_cases] reads off
    the table. *)
Definition csv_test_cases_of (module : string) (w : world) : list TestCase :=
  filter proper (filter (fun row => Module_ row =? module) (test_cases_df w)).

(** The table after a computation. *)
Definition table_after {A} (m : M A) (w : world) : list TestCase :=
  test_cases_df (snd (m w)).

(** The writes of the CSV file in one [save_new_test_cases]: none when no
    row is new, else one, of the table followed by the new rows. *)
Definition csv_writes (df rows : list TestCase) : list event :=
  match rows with
  | [] => []
  | _ => [EvToCsv (df ++ rows)%list]
  end.

(** The two ways the specification has a query go unresolved: the store
    returns nothing, or the nearest neighbour fails the gate's test
    [sim >= 0.6] (its similarity is below the threshold, or not a number). *)
Definition unresolved {ext : Externals}
    (cosine : list float -> list float -> exn + float) (query : string)
  : Prop :=
  retriever_invoke query = inr []
  \/ exists document rest sim,
       retriever_invoke query = inr (document :: rest)
       /\ similarity cosine query document = inr sim
       /\ (threshold_call_site <=? sim)%float = false.

(** "The response carries completed test cases": it is the response the
    node formats for a non-empty selection (text), or it has a non-empty
    list under [TestCases] (JSON). *)
Definition script_carries_test_cases (response : string) : Prop :=
  exists error solution explanation cases,
    cases <> []
    /\ response = Script.format_response error solution explanation cases.

Definition tabular_carries_test_cases (response : Tabular.Response) : Prop :=
  exists case cases,
    Tabular.test_cases_of response = Some (JList (case :: cases)).

(** The scorer as the specification has it: 5 for completed test cases, 1
    for the explicit not-found error, 3 otherwise. *)
Definition scores_as_specified {R : Type} (score : R -> Z)
    (carries_test_cases : R -> Prop) (not_found : R) : Prop :=
  (forall r, carries_test_cases r -> score r = 5%Z)
  /\ score not_found = 1%Z
  /\ (forall r, ~ carries_test_cases r -> r <> not_found -> score r = 3%Z).

(** A text occurs in another. *)
Definition occurs_in (sub s : string) : Prop :=
  exists pre post, s = pre ++ sub ++ post.

(** One of the two generation calls of [generate_alternative_solution]
    raises [e]. *)
Definition alternative_raises {ext : Externals} (json : bool)
    (error_message : string) (e : exn) : Prop :=
  llm_invoke (alt_prompt error_message) = inl e
  \/ exists a,
       llm_invoke (alt_prompt error_message) = inr a
       /\ llm_invoke (test_case_prompt json error_message (Str.strip a))
          = inl e.

(** What [json.loads] gave, or the empty list when it raised. *)
Definition loaded {ext : Externals} (text : string) : jvalue :=
  match json_loads text with
  | inr value => value
  | inl _ => JList []
  end.

(** The request the JSON script sends for the cases a module lacks. *)
Definition tabular_request (csv_test_cases : list TestCase)
    (error_message solution explanation : string) : prompt :=
  match csv_test_cases with
  | [] => full_prompt true error_message solution explanation
  | _ =>
      additional_prompt
        (Z.of_nat Tabular.REQUIRED_TEST_CASE_COUNT
         - Z.of_nat (List.length csv_test_cases))%Z
        error_message solution explanation (ExistingJson csv_test_cases)
  end.

(** A parsed case that is a dictionary whose keys are the six columns, in
    any order, each with a text, and the row of those six texts.  With a
    further key [pd.DataFrame(rows_to_add)] has a further column, which the
    rows of this model do not show. *)
Definition text_case (case : jitem) (row : TestCase) : Prop :=
  exists entries,
    case = JDict entries
    /\ List.length entries = 6%nat
    /\ Tabular.lookup "Module" entries = Some (Module_ row)
    /\ Tabular.lookup "Test_Scenario" entries = Some (Test_Scenario row)
    /\ Tabular.lookup "Test_Steps" entries = Some (Test_Steps row)
    /\ Tabular.lookup "Pre_Requisite" entries = Some (Pre_Requisite row)
    /\ Tabular.lookup "Pass_Fail_Criteria" entries
       = Some (Pass_Fail_Criteria row)
    /\ Tabular.lookup "Expected_Result" entries = Some (Expected_Result row).

(** A parsed case that is a dictionary without the key ["Module"]. *)
Definition lacks_module (case : jitem) : Prop :=
  exists entries,
    case = JDict entries /\ Tabular.lookup "Module" entries = None.

(** The world in which the node starts, after [invoke] and [retrieve]. *)
Definition entered (input : string) (w : world) : world :=
  log (EvRetrieve input) (log (EvAgentInvoke input) w).

(** The state the node sees after the retriever returned [docs]. *)
Definition script_state (input : string) (docs : list Document)
  : Script.AgentState :=
  {| Script.input := input; Script.context := docs; Script.response := None |}.

Definition tabular_state (input : string) (docs : list Document)
  : Tabular.AgentState :=
  {| Tabular.input := input; Tabular.context := docs;
     Tabular.response := None |}.

(* ===================================================================== *)
(** ** Concrete collaborators and states, for the examples *)
(* ===================================================================== *)

Definition empty_world : world := {| test_cases_df := []; trace := [] |}.

Definition world_of (df : list TestCase) : world :=
  {| test_cases_df := df; trace := [] |}.

Definition sample_doc : Document :=
  {| page_content := "Disk read error on boot";
     solution := "Replace SATA cable";
     module := "Storage" |}.

Definition sample_case : TestCase :=
  {| Module_ := "Storage"; Test_Scenario := "boot"; Test_Steps := "power on";
     Pre_Requisite := "disk"; Pass_Fail_Criteria := "boots";
     Expected_Result := "login" |}.

Definition cold_boot_case : TestCase :=
  {| Module_ := "Storage"; Test_Scenario := "cold boot";
     Test_Steps := "power on"; Pre_Requisite := "disk";
     Pass_Fail_Criteria := "boots"; Expected_Result := "login" |}.

(** Four valid cases of one module. *)
Definition four_cases : list TestCase :=
  map (fun scenario =>
         {| Module_ := "Storage"; Test_Scenario := scenario;
            Test_Steps := "power on"; Pre_Requisite := "disk";
            Pass_Fail_Criteria := "boots"; Expected_Result := "login" |})
      ["cold boot"; "warm boot"; "boot from usb"; "boot after update"].

(** A generated case with the five keys of the prompt. *)
Definition five_key_case : jitem :=
  JDict [("Test_Scenario", "boot"); ("Test_Steps", "power on");
         ("Pre_Requisite", "disk"); ("Expected_Result", "login");
         ("Pass_Fail_Criteria", "boots")].

(** A generated case with the six keys and an empty scenario, and its row. *)
Definition blank_scenario_row : TestCase :=
  {| Module_ := "Storage"; Test_Scenario := ""; Test_Steps := "power on";
     Pre_Requisite := "disk"; Pass_Fail_Criteria := "boots";
     Expected_Result := "login" |}.

Definition blank_scenario_case : jitem := Tabular.dict_of_case blank_scenario_row.

(** A text reply of two blocks: a complete case, and one without a
    scenario. *)
Definition two_block_reply : string :=
  "Test_Scenario: cold boot" ++ Str.LF
  ++ "Test_Steps: power on" ++ Str.LF
  ++ "Pre_Requisite: disk" ++ Str.LF
  ++ "Expected_Result: login" ++ Str.LF
  ++ "Pass_Fail_Criteria: boots" ++ Str.LF
  ++ "### END TEST CASE ###" ++ Str.LF
  ++ "Test_Steps: only steps" ++ Str.LF
  ++ "### END TEST CASE ###".

(** The JSON text of an array of dictionaries, as a generator writes it. *)
Definition json_quoted (s : string) : string :=
  String (ascii_of_nat 34) s ++ String (ascii_of_nat 34) EmptyString.

Definition json_object (entries : list (string * string)) : string :=
  "{" ++ Str.join ", "
           (map (fun kv => json_quoted (fst kv) ++ ": " ++ json_quoted (snd kv))
              entries)
  ++ "}".

Definition json_array (items : list jitem) : string :=
  "[" ++ Str.join ", "
           (map (fun item => match item with
                             | JDict entries => json_object entries
                             | JNonDict _ => "null"
                             end) items)
  ++ "]".

(** [json.loads] on the texts of an example: [text] is the JSON text of
    [value]; the other texts of the examples are not JSON. *)
Definition loads_only (text : string) (value : jvalue)
  : string -> exn + jvalue :=
  fun t => if t =? text then inr value
           else inl (ValueError "Expecting value: line 1 column 1 (char 0)").

Definition loads_nothing : string -> exn + jvalue :=
  fun _ => inl (ValueError "Expecting value: line 1 column 1 (char 0)").

(** A language model that is down, one that answers every prompt with the
    same text, and one that answers by the kind of prompt. *)
Definition llm_down : prompt -> exn + string :=
  fun _ => inl (ExternalError "service unavailable").

Definition llm_says (text : string) : prompt -> exn + string :=
  fun _ => inr text.

Definition llm_answers (explanation generated alternative : string)
  : prompt -> exn + string :=
  fun p =>
    match p with
    | explanation_prompt _ _ => inr explanation
    | alt_prompt _ => inr alternative
    | _ => inr generated
    end.

(** A store holding [docs], an embedding that maps every text to the same
    unit vector, a language model [llm], a JSON parser [loads], and a
    writer that succeeds. *)
Definition externals_of (docs : list Document)
    (llm : prompt -> exn + string) (loads : string -> exn + jvalue)
  : Externals :=
  {| retriever_invoke := fun _ => inr docs;
     embed_query := fun _ => inr [1%float];
     llm_invoke := llm;
     json_loads := loads;
     to_csv := fun _ => inr tt |}.

(** An empty store and a language model that is down. *)
Definition offline : Externals := externals_of [] llm_down loads_nothing.

(** An empty store and a language model that answers. *)
Definition empty_store : Externals :=
  externals_of [] (llm_says "ok") loads_nothing.

(** A store whose only document is orthogonal to every query: the query
    is embedded as (1,0), the description as (0,1). *)
Definition far_store : Externals :=
  {| retriever_invoke := fun _ => inr [sample_doc];
     embed_query := fun text =>
       if text =? page_content sample_doc
       then inr [0%float; 1%float] else inr [1%float; 0%float];
     llm_invoke := llm_says "ok";
     json_loads := loads_nothing;
     to_csv := fun _ => inr tt |}.

(** A retriever that is down. *)
Definition retriever_down : Externals :=
  {| retriever_invoke := fun _ => inl (ExternalError "index unavailable");
     embed_query := fun _ => inr [1%float];
     llm_invoke := llm_says "ok";
     json_loads := loads_nothing;
     to_csv := fun _ => inr tt |}.

(** The sample store with the language model down. *)
Definition store_llm_down : Externals :=
  externals_of [sample_doc] llm_down loads_nothing.

(** The sample store with a generator of text cases: it explains, and
    answers the requests for cases with [generated]. *)
Definition text_generator (generated : string) : Externals :=
  externals_of [sample_doc]
    (llm_answers "The cable was faulty." generated "Reseat the drive.")
    loads_nothing.

(** The sample store with a generator of JSON cases: it answers the
    requests for cases with the JSON text of [items]. *)
Definition json_generator (items : list jitem) : Externals :=
  externals_of [sample_doc]
    (llm_answers "The cable was faulty." (json_array items) "Reseat the drive.")
    (loads_only (json_array items) (JList items)).

(* ===================================================================== *)
(** ** The rest of the scripts: what further theorems measure *)
(* ===================================================================== *)

(** A text with a character that is not white space: what
    [str(...).strip()] must leave for a field to count. *)
Definition has_text (s : string) : Prop :=
  exists pre c post, s = pre ++ String c post /\ Str.is_space c = false.

(** The state of a session after [save_new_test_cases] was called on the
    batches, in order, whatever each write did. *)
Definition after_saves {ext : Externals} (batches : list (list TestCase))
    (w : world) : world :=
  fold_left (fun w batch => snd (save_new_test_cases batch w)) batches w.

(** The five fields of a test-case dictionary, as [parse_test_case] names
    them. *)
Definition fields_of (tc : TestCase) : Parsed.t :=
  {| Parsed.Test_Scenario := Test_Scenario tc;
     Parsed.Test_Steps := Test_Steps tc;
     Parsed.Pre_Requisite := Pre_Requisite tc;
     Parsed.Expected_Result := Expected_Result tc;
     Parsed.Pass_Fail_Criteria := Pass_Fail_Criteria tc |}.

(** A field value without any of the labels the lookahead of
    [parse_test_case] stops at. *)
Definition label_free (s : string) : bool :=
  forallb (fun label => negb (Str.contains label s)) lookahead_labels.

Definition label_free_case (tc : TestCase) : bool :=
  label_free (Test_Scenario tc) && label_free (Test_Steps tc)
  && label_free (Pre_Requisite tc) && label_free (Expected_Result tc)
  && label_free (Pass_Fail_Criteria tc).

(** Every field with [strip()] applied. *)
Definition stripped (p : Parsed.t) : Parsed.t :=
  {| Parsed.Test_Scenario := Str.strip (Parsed.Test_Scenario p);
     Parsed.Test_Steps := Str.strip (Parsed.Test_Steps p);
     Parsed.Pre_Requisite := Str.strip (Parsed.Pre_Requisite p);
     Parsed.Expected_Result := Str.strip (Parsed.Expected_Result p);
     Parsed.Pass_Fail_Criteria := Str.strip (Parsed.Pass_Fail_Criteria p) |}.

(** A field value without white space at its ends. *)
Definition trimmed (s : string) : bool := Str.strip s =? s.

Definition trimmed_case (tc : TestCase) : bool :=
  trimmed (Test_Scenario tc) && trimmed (Test_Steps tc)
  && trimmed (Pre_Requisite tc) && trimmed (Expected_Result tc)
  && trimmed (Pass_Fail_Criteria tc).

(** More kinds of calls. *)
Definition is_embed (ev : event) : bool :=
  match ev with EvEmbed _ => true | _ => false end.

Definition is_retrieve (ev : event) : bool :=
  match ev with EvRetrieve _ => true | _ => false end.

(** The character [c] occurs in [s]. *)
Fixpoint mentions (c : ascii) (s : string) : bool :=
  match s with
  | String d s' => Ascii.eqb c d || mentions c s'
  | EmptyString => false
  end.

(** The sample store with the embedding service down. *)
Definition embedding_down : Externals :=
  {| retriever_invoke := fun _ => inr [sample_doc];
     embed_query := fun _ => inl (ExternalError "embedding unavailable");
     llm_invoke := llm_says "ok";
     json_loads := loads_nothing;
     to_csv := fun _ => inr tt |}.

(** More kinds of generation calls. *)
Definition is_explanation (ev : event) : bool :=
  match ev with EvLlm (explanation_prompt _ _) => true | _ => false end.

Definition is_case_request (ev : event) : bool :=
  match ev with
  | EvLlm (additional_prompt _ _ _ _ _) | EvLlm (full_prompt _ _ _ _) => true
  | _ => false
  end.

Definition is_test_case_prompt (ev : event) : bool :=
  match ev with EvLlm (test_case_prompt _ _ _) => true | _ => false end.

(** The calls [evs] are made within the schedule [slots]: each call takes
    a slot of its kind, later calls take later slots, and slots may stay
    unused. *)
Inductive within : list (event -> bool) -> list event -> Prop :=
| within_done slots : within slots []
| within_take kind slots ev evs :
    kind ev = true -> within slots evs -> within (kind :: slots) (ev :: evs)
| within_skip kind slots evs :
    within slots evs -> within (kind :: slots) evs.

(** The schedule [slots] has at most [n] slots that a call of the kind
    can take. *)
Inductive admits (kind : event -> bool) : list (event -> bool) -> nat -> Prop :=
| admits_nil : admits kind [] 0
| admits_other slot slots n :
    (forall ev, slot ev = true -> kind ev = false) ->
    admits kind slots n -> admits kind (slot :: slots) n
| admits_one slot slots n :
    admits kind slots n -> admits kind (slot :: slots) (S n).

(** A computation whose calls are made within a schedule. *)
Definition follows (slots : list (event -> bool)) {A} (m : M A) : Prop :=
  forall w, exists evs,
    trace (snd (m w)) = (trace w ++ evs)%list /\ within slots evs.

(** The schedule of the validate/generate node, of the alternative
    generation, and of a request after its two opening calls. *)
Definition node_calls : list (event -> bool) :=
  [is_embed; is_embed; is_explanation; is_case_request; is_to_csv].

Definition alternative_calls : list (event -> bool) :=
  [is_alt_prompt; is_test_case_prompt].

Definition request_calls : list (event -> bool) :=
  (node_calls ++ alternative_calls)%list.

(** A computation that only appends rows to the table: the rows it found
    stay where they were, and every row it adds was not in the table and
    satisfies [Q]. *)
Definition appends (Q : TestCase -> Prop) {A} (m : M A) : Prop :=
  forall w, exists added,
    test_cases_df (snd (m w)) = (test_cases_df w ++ added)%list
    /\ Forall (fun row => ~ In row (test_cases_df w) /\ Q row) added.

(* ===================================================================== *)
(** ** The Streamlit pages (part_000 lines 753-767, TabularFormat.ipynb
       lines 280-314) *)
(* ===================================================================== *)

(** The elements a page shows: [st.error], [st.markdown], [st.subheader],
    [st.table] and [st.write]. *)
Inductive element :=
| st_error (body : string)
| st_markdown (body : string)
| st_subheader (body : string)
| st_table (data : list jitem)
| st_write (body : string).

(** What a click on [Get RCA Report] leaves on the page: the elements
    shown, in order, and the exception that ended the run, if any. *)
Record screen := {
  shown : list element;
  failure : option exn
}.

Definition please_enter : string :=
  "Please enter an error or defect description.".

(** The page of the text agent.  It imports [get_solution] of the second
    script. *)
Module ScriptApp.

Section Page.
Context {ext : Externals}.

(** The body of [if st.button("Get RCA Report"):]. *)
Definition get_rca_report (error_input : string) (w : world)
  : screen * world :=
  if negb (Str.truthy (Str.strip error_input))
  then ({| shown := [st_error please_enter]; failure := None |}, w)
  else
    match Script.get_solution cosine_similarity error_input w with
    | (inr final_solution, w') =>
        ({| shown := [st_markdown final_solution]; failure := None |}, w')
    | (inl e, w') => ({| shown := []; failure := Some e |}, w')
    end.

End Page.

End ScriptApp.

(** The page of the JSON agent. *)
Module TabularApp.

Section Page.
Context {ext : Externals}.
(** [pd.DataFrame(test_cases).empty], or the exception of the
    constructor. *)
Variable frame_empty : list jitem -> exn + bool.

(** The three [if key in result] of lines 297-302. *)
Definition show_keys (result : Tabular.Response) : list element :=
  match result with
  | Tabular.ErrorResponse error => [st_markdown ("**Error:** " ++ error)]
  | Tabular.Result error solution explanation _ =>
      [st_markdown ("**Error:** " ++ error);
       st_markdown ("**Solution:** " ++ solution);
       st_markdown ("**Explanation:** " ++ explanation)]
  | Tabular.Alternative _ _ => []
  end.

(** Lines 305-314, on [test_cases]. *)
Definition show_test_cases (test_cases : jvalue) : screen :=
  match test_cases with
  | JList (case :: cases) =>
      match frame_empty (case :: cases) with
      | inr false =>
          {| shown := [st_subheader "Generated Test Cases";
                       st_table (case :: cases)];
             failure := None |}
      | inr true =>
          {| shown := [st_subheader "Generated Test Cases";
                       st_write "No test cases were generated."];
             failure := None |}
      | inl e =>
          {| shown := [st_subheader "Generated Test Cases"];
             failure := Some e |}
      end
  | _ => {| shown := [st_write "No test cases available."]; failure := None |}
  end.

(** [result.get("TestCases", [])]. *)
Definition get_test_cases (result : Tabular.Response) : jvalue :=
  match Tabular.test_cases_of result with
  | Some test_cases => test_cases
  | None => JList []
  end.

Definition show_result (result : Tabular.Response) : screen :=
  let table := show_test_cases (get_test_cases result) in
  {| shown := (show_keys result ++ shown table)%list;
     failure := failure table |}.

(** The body of [if st.button("Get RCA Report"):]. *)
Definition get_rca_report (error_input : string) (w : world)
  : screen * world :=
  if negb (Str.truthy (Str.strip error_input))
  then ({| shown := [st_error please_enter]; failure := None |}, w)
  else
    match Tabular.get_solution error_input w with
    | (inr result, w') => (show_result result, w')
    | (inl e, w') => ({| shown := []; failure := Some e |}, w')
    end.

End Page.

End TabularApp.

(** A frame is empty when it has no column: no case has a key. *)
Definition no_columns (test_cases : list jitem) : exn + bool :=
  inr (forallb (fun case => match case with
                            | JDict [] => true
                            | _ => false
                            end) test_cases).

(** A text occurs in one of the five fields [format_tc] writes, and in one
    of the texts a formatted answer is made of. *)
Definition case_mentions (mark : string) (tc : TestCase) : bool :=
  Str.contains mark (Test_Scenario tc) || Str.contains mark (Test_Steps tc)
  || Str.contains mark (Pre_Requisite tc)
  || Str.contains mark (Expected_Result tc)
  || Str.contains mark (Pass_Fail_Criteria tc).

Definition answer_mentions (mark error_message solution explanation : string)
    (cases : list TestCase) : bool :=
  Str.contains mark error_message || Str.contains mark solution
  || Str.contains mark explanation || existsb (case_mentions mark) cases.

(* ===================================================================== *)
(** ** A reply in the format the prompts ask for *)
(* ===================================================================== *)

(** The mark the prompts ask for after each test case. *)
Definition end_mark : string := "### END TEST CASE ###".

(** The reply of a generator that follows the prompt: every case in the
    format of [format_tc], then a line with the mark. *)
Definition delimited_reply (cases : list TestCase) : string :=
  String.concat ""
    (map (fun tc => Script.format_tc tc ++ Str.LF ++ end_mark ++ Str.LF) cases).

(** A case the format can carry: no field holds a label of the lookahead
    or the character [#], no field has white space at its ends, and the
    first and the last field are not empty. *)
Definition hash_free_case (tc : TestCase) : bool :=
  negb (mentions "#" (Test_Scenario tc)) && negb (mentions "#" (Test_Steps tc))
  && negb (mentions "#" (Pre_Requisite tc))
  && negb (mentions "#" (Expected_Result tc))
  && negb (mentions "#" (Pass_Fail_Criteria tc)).

Definition conforming (tc : TestCase) : bool :=
  label_free_case tc && trimmed_case tc && hash_free_case tc
  && Str.truthy (Test_Scenario tc) && Str.truthy (Pass_Fail_Criteria tc).

(** The case with another module, and with the mark after its last
    field. *)
Definition for_module (module : string) (tc : TestCase) : TestCase :=
  {| Module_ := module;
     Test_Scenario := Test_Scenario tc;
     Test_Steps := Test_Steps tc;
     Pre_Requisite := Pre_Requisite tc;
     Pass_Fail_Criteria := Pass_Fail_Criteria tc;
     Expected_Result := Expected_Result tc |}.

Definition with_end_mark (tc : TestCase) : TestCase :=
  {| Module_ := Module_ tc;
     Test_Scenario := Test_Scenario tc;
     Test_Steps := Test_Steps tc;
     Pre_Requisite := Pre_Requisite tc;
     Pass_Fail_Criteria := Pass_Fail_Criteria tc ++ Str.LF ++ end_mark;
     Expected_Result := Expected_Result tc |}.

Unset Implicit Arguments.

(* ===================================================================== *)
(** * Facts about text *)
(* ===================================================================== *)

Lemma prefix_app (p s : string) :
  prefix p s = true <-> exists post, s = p ++ post.
Proof.
  revert s; induction p as [|c p IH]; intros s.
  - split; [intros _; now exists s | intros _; now destruct s].
  - destruct s as [|d s]; simpl.
    + split; [discriminate | intros [post H]; discriminate].
    + destruct (ascii_dec c d) as [->|Hne].
      * rewrite IH. split; intros [post H]; exists post.
        -- now rewrite H.
        -- now inversion H.
      * split; [discriminate | intros [post H]; inversion H; congruence].
Qed.

(** [sub in s] holds exactly when [s] has [sub] somewhere inside. *)
Lemma contains_spec (sub s : string) :
  Str.contains sub s = true <-> exists pre post, s = pre ++ sub ++ post.
Proof.
  induction s as [|c s IH]; cbn [Str.contains].
  - destruct (prefix sub EmptyString) eqn:Hp.
    + split; [intros _ | reflexivity].
      apply prefix_app in Hp as [post Hp]. now exists EmptyString, post.
    + split; [discriminate |].
      intros (pre & post & H). destruct pre; simpl in H.
      * assert (prefix sub EmptyString = true) by (apply prefix_app; eauto).
        congruence.
      * discriminate.
  - destruct (prefix sub (String c s)) eqn:Hp.
    + split; [intros _ | reflexivity].
      apply prefix_app in Hp as [post Hp]. now exists EmptyString, post.
    + rewrite IH. split.
      * intros (pre & post & ->). now exists (String c pre), post.
      * intros (pre & post & H). destruct pre as [|d pre]; simpl in H.
        -- assert (prefix sub (String c s) = true) by (apply prefix_app; eauto).
           congruence.
        -- inversion H; subst. now exists pre, post.
Qed.

(* ===================================================================== *)
(** * The similarity gate *)
(* ===================================================================== *)

(** C3.  On the vectors [1.0] and [2.0], whose norms 1 and 2 are not zero,
    the first script's [cosine_similarity] returns 4 where the closed form
    [dot(a,b) / (|a| * |b|)] of the other two scripts returns 1: the first
    script multiplies by the second norm instead of dividing by it. *)
Theorem cosine_similarity_first_script_diverges :
  np_linalg_norm [1%float] = 1%float
  /\ np_linalg_norm [2%float] = 2%float
  /\ FirstScript.cosine_similarity [1%float] [2%float] = inr 4%float
  /\ cosine_similarity [1%float] [2%float] = inr 1%float.
Proof. repeat split; vm_compute; reflexivity. Qed.

(** The divergence reaches the gate: for the vectors (1,0) and (1,2) the
    closed form is below the threshold and the first script's value is
    above it. *)
Lemma first_script_gate_accepts_dissimilar :
  (exists sim, cosine_similarity [1; 0]%float [1; 2]%float = inr sim
               /\ (threshold_call_site <=? sim)%float = false)
  /\ (exists sim, FirstScript.cosine_similarity [1; 0]%float [1; 2]%float = inr sim
                  /\ (threshold_call_site <=? sim)%float = true).
Proof. split; eexists; split; vm_compute; reflexivity. Qed.

(** Over the real numbers, for vectors with nonzero norms: the first
    script's value is the closed form times the square of the second norm,
    and the two are equal exactly when the dot product is zero or the
    second vector has norm one. *)
Lemma exact_first_script_relation (vec1 vec2 : list R) :
  Exact.norm vec1 <> 0%R -> Exact.norm vec2 <> 0%R ->
  Exact.cosine_similarity_first vec1 vec2
  = (Exact.cosine_similarity vec1 vec2
     * (Exact.norm vec2 * Exact.norm vec2))%R.
Proof.
  intros H1 H2. unfold Exact.cosine_similarity_first, Exact.cosine_similarity.
  field. now split.
Qed.

Lemma exact_first_script_agrees_iff (vec1 vec2 : list R) :
  Exact.norm vec1 <> 0%R -> Exact.norm vec2 <> 0%R ->
  Exact.cosine_similarity_first vec1 vec2 = Exact.cosine_similarity vec1 vec2
  <-> Exact.dot vec1 vec2 = 0%R \/ Exact.norm vec2 = 1%R.
Proof.
  intros H1 H2. rewrite (exact_first_script_relation vec1 vec2 H1 H2).
  unfold Exact.cosine_similarity.
  set (d := Exact.dot vec1 vec2). set (a := Exact.norm vec1) in *.
  set (b := Exact.norm vec2) in *.
  assert (Hb : (0 <= b)%R) by apply sqrt_pos.
  assert (Hab : (a * b <> 0)%R) by now apply Rmult_integral_contrapositive.
  split.
  - intros H.
    assert (E : (d / (a * b) * (b * b - 1) = 0)%R) by lra.
    apply Rmult_integral in E as [E|E].
    + left. apply (Rmult_eq_compat_r (a * b)) in E.
      unfold Rdiv in E. rewrite Rmult_assoc, Rinv_l, Rmult_1_r, Rmult_0_l in E;
        assumption.
    + right. nra.
  - intros [->| ->]; unfold Rdiv; ring.
Qed.

(** The vectors of C3 over the real numbers: 4 against 1 there too. *)
Lemma exact_first_script_diverges :
  Exact.cosine_similarity_first [1%R] [2%R] = 4%R
  /\ Exact.cosine_similarity [1%R] [2%R] = 1%R.
Proof.
  unfold Exact.cosine_similarity_first, Exact.cosine_similarity, Exact.norm.
  simpl.
  replace (1 * 1 + 0)%R with 1%R by ring.
  replace (2 * 2 + 0)%R with (2 * 2)%R by ring.
  rewrite sqrt_1, sqrt_square by lra. split; field.
Qed.

(** In floating point the two agree on this pair, whose second vector has
    norm one. *)
Lemma first_script_agrees_on_unit_example :
  FirstScript.cosine_similarity [3; 4]%float [0; 1]%float
  = cosine_similarity [3; 4]%float [0; 1]%float.
Proof. vm_compute; reflexivity. Qed.

(* ===================================================================== *)
(** * The test-case table *)
(* ===================================================================== *)

Lemma duplicate_mask_true (case row : TestCase) :
  duplicate_mask case row = true <-> row = case.
Proof.
  unfold duplicate_mask. rewrite !andb_true_iff, !String.eqb_eq.
  destruct case, row; simpl. split.
  - intros [[[[[-> ->] ->] ->] ->] ->]. reflexivity.
  - intros H; inversion H; subst. repeat split.
Qed.

Lemma df_empty_filter (f : TestCase -> bool) (df : list TestCase) :
  df_empty (filter f df) = true <-> forall row, In row df -> f row = false.
Proof.
  induction df as [|r df IH]; simpl.
  - split; [intros _ row [] | reflexivity].
  - destruct (f r) eqn:Hf; simpl.
    + split; [discriminate |]. intros H. specialize (H r (or_introl eq_refl)).
      congruence.
    + rewrite IH. split.
      * intros H row [<-|Hin]; auto.
      * intros H row Hin. apply H. now right.
Qed.

(** A case is a duplicate exactly when it is a row of the table. *)
Lemma no_duplicate_iff (case : TestCase) (df : list TestCase) :
  df_empty (filter (duplicate_mask case) df) = true <-> ~ In case df.
Proof.
  rewrite df_empty_filter. split.
  - intros H Hin. specialize (H case Hin).
    assert (duplicate_mask case case = true) by now apply duplicate_mask_true.
    congruence.
  - intros H row Hin. destruct (duplicate_mask case row) eqn:Hm; [|reflexivity].
    apply duplicate_mask_true in Hm. subst. contradiction.
Qed.

Lemma in_rows_to_add (df new_cases : list TestCase) (case : TestCase) :
  In case (rows_to_add df new_cases) <-> In case new_cases /\ ~ In case df.
Proof.
  induction new_cases as [|c rest IH]; simpl.
  - tauto.
  - destruct (df_empty (filter (duplicate_mask c) df)) eqn:Hd.
    + apply no_duplicate_iff in Hd. simpl. rewrite IH. split.
      * intros [<-|[? ?]]; auto.
      * intros [[<-|?] ?]; auto.
    + assert (In c df).
      { destruct (in_dec TestCase_eq_dec
                  c df) as [Hin|Hn]; [assumption|].
        apply no_duplicate_iff in Hn. congruence. }
      rewrite IH. split.
      * intros [? ?]; auto.
      * intros [[<-|?] ?]; [contradiction | auto].
Qed.

Lemma rows_to_add_NoDup (df new_cases : list TestCase) :
  NoDup new_cases -> NoDup (rows_to_add df new_cases).
Proof.
  induction 1 as [|c rest Hnotin Hnd IH]; simpl; [constructor|].
  destruct (df_empty (filter (duplicate_mask c) df)); [|assumption].
  constructor; [|assumption]. rewrite in_rows_to_add. tauto.
Qed.

Section TableFacts.
Context {ext : Externals}.

(** Whatever the writer does, the table after [save_new_test_cases] is the
    table before it followed by the rows selected by the loop. *)
Lemma save_new_test_cases_table (new_cases : list TestCase) (w : world) :
  table_after (save_new_test_cases new_cases) w
  = (test_cases_df w ++ rows_to_add (test_cases_df w) new_cases)%list.
Proof.
  unfold table_after, save_new_test_cases, bind, get_df, set_df, ret, call, log.
  destruct w as [df tr]; simpl.
  destruct df as [|r df]; simpl.
  - destruct (rows_to_add [] new_cases); reflexivity.
  - destruct (rows_to_add (r :: df) new_cases); simpl;
      [now rewrite app_nil_r | reflexivity].
Qed.

(** The invariant is kept for a batch that does not repeat a case. *)
Lemma save_new_test_cases_keeps_rows_distinct
    (new_cases : list TestCase) (w : world) :
  no_two_rows_agree (test_cases_df w) ->
  NoDup new_cases ->
  no_two_rows_agree (table_after (save_new_test_cases new_cases) w).
Proof.
  unfold no_two_rows_agree. intros Hdf Hnew.
  rewrite save_new_test_cases_table. apply NoDup_app.
  - assumption.
  - now apply rows_to_add_NoDup.
  - intros x Hin Hadd. apply in_rows_to_add in Hadd. tauto.
Qed.

(** Saving one case a second time changes nothing: the second call finds
    the row the first one stored. *)
Lemma save_new_test_cases_twice (case : TestCase) (w : world) :
  let w1 := snd (save_new_test_cases [case] w) in
  table_after (save_new_test_cases [case]) w1 = test_cases_df w1
  /\ In case (test_cases_df w1)
  /\ (no_two_rows_agree (test_cases_df w) ->
      count_occ TestCase_eq_dec
        (table_after (save_new_test_cases [case]) w1) case = 1).
Proof.
  intros w1.
  assert (Hin : In case (test_cases_df w1)).
  { unfold w1. fold (table_after (save_new_test_cases [case]) w).
    rewrite save_new_test_cases_table. simpl.
    destruct (df_empty (filter (duplicate_mask case) (test_cases_df w))) eqn:Hd.
    - apply in_or_app. right. now left.
    - rewrite app_nil_r.
      match goal with |- In ?c ?l =>
        destruct (in_dec TestCase_eq_dec
                  c l) as [H|H]; [exact H|] end.
      apply no_duplicate_iff in H. congruence. }
  assert (Hsame : table_after (save_new_test_cases [case]) w1 = test_cases_df w1).
  { rewrite save_new_test_cases_table. simpl.
    destruct (df_empty (filter (duplicate_mask case) (test_cases_df w1))) eqn:Hd.
    - apply no_duplicate_iff in Hd. contradiction.
    - apply app_nil_r. }
  repeat split; [exact Hsame | exact Hin |].
  intros Hnd. rewrite Hsame.
  assert (Hnd1 : NoDup (test_cases_df w1)).
  { unfold w1. fold (table_after (save_new_test_cases [case]) w).
    apply save_new_test_cases_keeps_rows_distinct; [exact Hnd|].
    repeat constructor. intros []. }
  pose proof (proj1 (NoDup_count_occ TestCase_eq_dec _) Hnd1 case) as Hle.
  pose proof (proj1 (count_occ_In TestCase_eq_dec _ _) Hin) as Hge.
  lia.
Qed.

(** C2.  A batch that holds the same case twice, saved into an empty
    table, leaves two rows that agree on all six fields: each case of the
    batch is compared with the table as it was on entry, never with the
    cases already selected.  The invariant holds before the call and fails
    after it. *)
Theorem save_new_test_cases_repeats_within_batch :
  no_two_rows_agree (test_cases_df empty_world)
  /\ table_after (save_new_test_cases [sample_case; sample_case]) empty_world
     = [sample_case; sample_case]
  /\ ~ no_two_rows_agree
         (table_after (save_new_test_cases [sample_case; sample_case])
            empty_world).
Proof.
  split; [constructor|]. split; [reflexivity|].
  intros H. inversion H as [|x l Hnotin _]; subst. apply Hnotin. now left.
Qed.

End TableFacts.

(* ===================================================================== *)
(** * Parsing generated text *)
(* ===================================================================== *)

(** A lookahead label starts with a letter. *)
Lemma label_starts_with_letter (c : ascii) (s : string) :
  has_lookahead_label (String c s) = true -> Str.is_space c = false.
Proof.
  unfold has_lookahead_label, lookahead_labels. intros H.
  apply existsb_exists in H as (label & Hin & Hp).
  apply prefix_app in Hp as [post Hp].
  simpl in Hin.
  repeat (destruct Hin as [<-|Hin]; [inversion Hp; reflexivity|]).
  contradiction.
Qed.

Lemma lstrip_head (s : string) :
  Str.lstrip s = EmptyString
  \/ exists c s', Str.lstrip s = String c s' /\ Str.is_space c = false.
Proof.
  induction s as [|c s IH]; simpl; [now left|].
  destruct (Str.is_space c) eqn:Hc; [exact IH|]. right. now exists c, s.
Qed.

Lemma lstrip_fixed (c : ascii) (s : string) :
  Str.is_space c = false -> Str.lstrip (String c s) = String c s.
Proof. intros H; simpl; now rewrite H. Qed.

(** After [lstrip], [$] can only hold at the very end. *)
Lemma lookahead_lstrip (s : string) :
  lookahead (Str.lstrip s)
  = has_lookahead_label (Str.lstrip s) || (Str.lstrip s =? EmptyString).
Proof.
  unfold lookahead, at_dollar. fold (has_lookahead_label (Str.lstrip s)).
  destruct (lstrip_head s) as [->|(c & s' & -> & Hc)]; [reflexivity|].
  f_equal. simpl.
  destruct (Ascii.eqb c (ascii_of_nat 10)) eqn:E; [|reflexivity].
  apply Ascii.eqb_eq in E. subst. discriminate.
Qed.

Lemma rstrip_cons_congr (c : ascii) (s t : string) :
  Str.rstrip s = Str.rstrip t ->
  Str.rstrip (String c s) = Str.rstrip (String c t).
Proof. intros H; simpl; now rewrite H. Qed.

(** The lazy group stops where the labelled text stops, up to white space
    at its end. *)
Lemma rstrip_lazy_group (s : string) :
  Str.rstrip (lazy_group s) = Str.rstrip (up_to_label lookahead_labels s).
Proof.
  induction s as [|c s IH]; [reflexivity|].
  cbn [lazy_group up_to_label].
  fold (has_lookahead_label (String c s)).
  rewrite lookahead_lstrip.
  destruct (has_lookahead_label (String c s)) eqn:Hl.
  - rewrite (lstrip_fixed c s (label_starts_with_letter _ _ Hl)), Hl. reflexivity.
  - destruct (Str.is_space c) eqn:Hc.
    + change (Str.lstrip (String c s)) with
        (if Str.is_space c then Str.lstrip s else String c s).
      rewrite Hc, <- lookahead_lstrip.
      destruct (lookahead (Str.lstrip s)) eqn:Hla.
      * assert (Hz : lazy_group s = EmptyString).
        { destruct s; cbn [lazy_group]; now rewrite Hla. }
        rewrite Hz in IH. simpl in IH. simpl. now rewrite <- IH, Hc.
      * now apply rstrip_cons_congr.
    + rewrite (lstrip_fixed c s Hc), Hl. simpl (_ =? _). simpl orb.
      now apply rstrip_cons_congr.
Qed.

Lemma up_to_label_lstrip (s : string) :
  up_to_label lookahead_labels (Str.lstrip s)
  = Str.lstrip (up_to_label lookahead_labels s).
Proof.
  induction s as [|c s IH]; [reflexivity|].
  cbn [up_to_label]. fold (has_lookahead_label (String c s)).
  destruct (has_lookahead_label (String c s)) eqn:Hl.
  - rewrite (lstrip_fixed c s (label_starts_with_letter _ _ Hl)).
    cbn [up_to_label]. fold (has_lookahead_label (String c s)). now rewrite Hl.
  - destruct (Str.is_space c) eqn:Hc.
    + simpl. rewrite Hc. exact IH.
    + rewrite (lstrip_fixed c s Hc). cbn [up_to_label].
      fold (has_lookahead_label (String c s)). rewrite Hl.
      simpl. now rewrite Hc.
Qed.

Lemma lstrip_lazy_group (s : string) :
  Str.lstrip (lazy_group (Str.lstrip s)) = lazy_group (Str.lstrip s).
Proof.
  destruct (lstrip_head s) as [->|(c & s' & -> & Hc)]; [reflexivity|].
  cbn [lazy_group]. destruct (lookahead _); [reflexivity|].
  now apply lstrip_fixed.
Qed.

Lemma re_search_after_label (field tc_text : string) :
  re_search field tc_text
  = option_map (fun rest => lazy_group (Str.lstrip rest))
      (after_label (field ++ ":") tc_text).
Proof.
  induction tc_text as [|c t IH]; cbn [re_search after_label].
  - destruct (prefix (field ++ ":") EmptyString); reflexivity.
  - destruct (prefix (field ++ ":") (String c t)); [reflexivity | exact IH].
Qed.

(** What the pattern computes, for every field and every text: the trimmed
    text between the first occurrence of the field's label and the next of
    the four labels of the lookahead, or the end. *)
Lemma parse_field_between_lookahead_labels (field tc_text : string) :
  parse_field field tc_text = between_labels lookahead_labels field tc_text.
Proof.
  unfold parse_field, between_labels. rewrite re_search_after_label.
  destruct (after_label (field ++ ":") tc_text) as [rest|]; [|reflexivity].
  simpl. unfold Str.strip.
  now rewrite lstrip_lazy_group, rstrip_lazy_group, up_to_label_lstrip.
Qed.

(** A field whose label does not occur stays empty. *)
Lemma parse_field_absent (field tc_text : string) :
  Str.contains (field ++ ":") tc_text = false ->
  parse_field field tc_text = EmptyString.
Proof.
  intros H. rewrite parse_field_between_lookahead_labels.
  unfold between_labels.
  assert (after_label (field ++ ":") tc_text = None) as ->; [|reflexivity].
  induction tc_text as [|c t IH]; cbn [Str.contains after_label] in *.
  - destruct (prefix (field ++ ":") EmptyString); [discriminate | reflexivity].
  - destruct (prefix (field ++ ":") (String c t)); [discriminate | now apply IH].
Qed.

(** C9.  On a block whose steps come before its scenario,
    [Test_Steps: a / Test_Scenario: b], the parser's [Test_Steps] runs on
    through the scenario's label to the end of the text, where the text
    between the label and the next known label is [a]: the lookahead of the
    pattern lists four of the five labels, [Test_Scenario:] is not one of
    them.  The other four fields are as specified. *)
Theorem parse_test_case_misses_scenario_label :
  let tc_text := "Test_Steps: a" ++ Str.LF ++ "Test_Scenario: b" in
  Parsed.Test_Steps (parse_test_case tc_text)
  = "a" ++ Str.LF ++ "Test_Scenario: b"
  /\ Parsed.Test_Steps (parse_test_case_spec tc_text) = "a"
  /\ Parsed.Test_Scenario (parse_test_case tc_text) = "b"
  /\ Parsed.Test_Scenario (parse_test_case_spec tc_text) = "b"
  /\ parse_test_case tc_text <> parse_test_case_spec tc_text.
Proof.
  repeat split; try (vm_compute; reflexivity).
  vm_compute. discriminate.
Qed.

(* ===================================================================== *)
(** * Running computations *)
(* ===================================================================== *)

Ltac run :=
  unfold bind, ret, raise, lift, call, get_df, set_df, try_except, log in *;
  simpl in *.

Lemma bind_inr {A B} (m : M A) (k : A -> M B) (w w' : world) (a : A) :
  m w = (inr a, w') -> bind m k w = k a w'.
Proof. unfold bind. now intros ->. Qed.

Lemma bind_inl {A B} (m : M A) (k : A -> M B) (w w' : world) (e : exn) :
  m w = (inl e, w') -> bind m k w = (inl e, w').
Proof. unfold bind. now intros ->. Qed.

Lemma get_csv_test_cases_reads (module : string) (w : world) :
  get_csv_test_cases module w = (inr (csv_test_cases_of module w), w).
Proof.
  unfold get_csv_test_cases, csv_test_cases_of. run.
  destruct (test_cases_df w); reflexivity.
Qed.

(** ** What a computation adds to the trace *)

Section Emits.
Variable P : event -> Prop.

Lemma emits_ret {A} (a : A) : emits P (ret a).
Proof. intros w. exists []. simpl. now rewrite app_nil_r. Qed.

Lemma emits_raise {A} (e : exn) : emits P (@raise A e).
Proof. intros w. exists []. simpl. now rewrite app_nil_r. Qed.

Lemma emits_lift {A} (r : exn + A) : emits P (lift r).
Proof. intros w. exists []. simpl. now rewrite app_nil_r. Qed.

Lemma emits_get_df : emits P get_df.
Proof. intros w. exists []. simpl. now rewrite app_nil_r. Qed.

Lemma emits_set_df (df : list TestCase) : emits P (set_df df).
Proof. intros w. exists []. simpl. now rewrite app_nil_r. Qed.

Lemma emits_call {A} (ev : event) (answer : exn + A) :
  P ev -> emits P (call ev answer).
Proof. intros H w. exists [ev]. simpl. split; [reflexivity | now constructor]. Qed.

Lemma emits_bind {A B} (m : M A) (k : A -> M B) :
  emits P m -> (forall a, emits P (k a)) -> emits P (bind m k).
Proof.
  intros Hm Hk w. unfold bind. destruct (Hm w) as (evs & Ht & Hf).
  destruct (m w) as [[e|a] w1]; simpl in *.
  - now exists evs.
  - destruct (Hk a w1) as (evs' & Ht' & Hf').
    exists (evs ++ evs')%list. rewrite Ht', Ht, app_assoc. split; [reflexivity|].
    now apply Forall_app.
Qed.

Lemma emits_try_except {A} (m : M A) (handler : exn -> M A) :
  emits P m -> (forall e, emits P (handler e)) -> emits P (try_except m handler).
Proof.
  intros Hm Hh w. unfold try_except. destruct (Hm w) as (evs & Ht & Hf).
  destruct (m w) as [[e|a] w1]; simpl in *.
  - destruct (Hh e w1) as (evs' & Ht' & Hf').
    exists (evs ++ evs')%list. rewrite Ht', Ht, app_assoc. split; [reflexivity|].
    now apply Forall_app.
  - now exists evs.
Qed.

End Emits.

Lemma count_app (kind : event -> bool) (tr evs : list event) :
  count kind (tr ++ evs) = (count kind tr + count kind evs)%nat.
Proof. unfold count. now rewrite filter_app, length_app. Qed.

Lemma count_none (kind : event -> bool) (evs : list event) :
  Forall (fun ev => kind ev = false) evs -> count kind evs = 0%nat.
Proof.
  unfold count. induction 1 as [|ev evs H _ IH]; simpl; [reflexivity|].
  now rewrite H.
Qed.

Lemma emits_adds_none (kind : event -> bool) {A} (m : M A) :
  emits (fun ev => kind ev = false) m -> adds kind 0 0 m.
Proof.
  intros H w. destruct (H w) as (evs & -> & Hf).
  rewrite count_app, (count_none _ _ Hf). lia.
Qed.

Lemma adds_bind (kind : event -> bool) (lo hi hi' : nat) {A B}
    (m : M A) (k : A -> M B) :
  adds kind lo hi m -> (forall a, adds kind 0 hi' (k a)) ->
  adds kind lo (hi + hi') (bind m k).
Proof.
  intros Hm Hk w. unfold bind. specialize (Hm w).
  destruct (m w) as [[e|a] w1]; simpl in *; [lia|].
  specialize (Hk a w1). lia.
Qed.

Lemma adds_call (kind : event -> bool) {A} (ev : event) (answer : exn + A) :
  kind ev = true -> adds kind 1 1 (call ev answer).
Proof.
  intros H w. unfold call, log; simpl. rewrite count_app.
  assert (count kind [ev] = 1%nat) as -> by (unfold count; simpl; now rewrite H).
  lia.
Qed.

Lemma adds_weaken (kind : event -> bool) (lo hi lo' hi' : nat) {A} (m : M A) :
  (lo' <= lo)%nat -> (hi <= hi')%nat -> adds kind lo hi m -> adds kind lo' hi' m.
Proof. intros ? ? H w. specialize (H w). lia. Qed.

(** Peeling a computation built from the monad's operations. *)
Ltac emits_step :=
  first
    [ apply emits_ret | apply emits_raise | apply emits_lift
    | apply emits_get_df | apply emits_set_df
    | apply emits_call; simpl; auto
    | apply emits_bind; [|intros ?]
    | apply emits_try_except; [|intros ?]
    | match goal with
      | |- emits _ (if ?b then _ else _) => destruct b
      | |- emits _ (match ?x with _ => _ end) => destruct x
      end ].

Ltac emits_all := repeat emits_step.

Lemma emits_weaken (P Q : event -> Prop) {A} (m : M A) :
  (forall ev, P ev -> Q ev) -> emits P m -> emits Q m.
Proof.
  intros HPQ H w. destruct (H w) as (evs & Ht & Hf). exists evs.
  split; [assumption|]. eapply Forall_impl; eauto.
Qed.

Lemma node_event_not_invoke (ev : event) :
  node_event ev -> is_agent_invoke ev = false.
Proof. destruct ev; simpl; tauto. Qed.

Lemma node_event_not_alt (ev : event) :
  node_event ev -> is_alt_prompt ev = false.
Proof. destruct ev as [| | |p|]; simpl; try tauto. destruct p; tauto. Qed.

(* ===================================================================== *)
(** * The calls of the validate/generate node *)
(* ===================================================================== *)

Section NodeCalls.
Context {ext : Externals}.
Variable cosine : list float -> list float -> exn + float.

Lemma is_similar_emits (query : string) (document : Document) (th : float) :
  emits node_event (is_similar cosine query document th).
Proof. unfold is_similar, get_embedding. emits_all. Qed.

Lemma save_new_test_cases_emits (new_cases : list TestCase) :
  emits node_event (save_new_test_cases new_cases).
Proof. unfold save_new_test_cases. emits_all. Qed.

Lemma get_csv_test_cases_emits (module : string) :
  emits node_event (get_csv_test_cases module).
Proof. unfold get_csv_test_cases. emits_all. Qed.

Lemma script_selected_cases_emits (module error_message solution explanation : string) :
  emits node_event
    (Script.selected_cases module error_message solution explanation).
Proof.
  unfold Script.selected_cases, llm_content.
  apply emits_bind; [apply get_csv_test_cases_emits | intros csv].
  repeat first [ apply save_new_test_cases_emits | emits_step ].
Qed.

Lemma script_node_emits (state : Script.AgentState) :
  emits node_event (Script.validate_or_generate_test_cases cosine state).
Proof.
  unfold Script.validate_or_generate_test_cases, Script.try_block, llm_content.
  repeat first [ apply is_similar_emits | apply script_selected_cases_emits
               | emits_step ].
Qed.

Lemma tabular_save_emits (new_cases : jvalue) :
  emits node_event (Tabular.save_new_test_cases new_cases).
Proof. unfold Tabular.save_new_test_cases. emits_all. Qed.

Lemma tabular_selected_cases_emits
    (module error_message solution explanation : string) :
  emits node_event
    (Tabular.selected_cases module error_message solution explanation).
Proof.
  unfold Tabular.selected_cases, Tabular.loads_or_empty, Tabular.concatenate,
    llm_content.
  apply emits_bind; [apply get_csv_test_cases_emits | intros csv].
  repeat first [ apply tabular_save_emits | emits_step ].
Qed.

Lemma tabular_node_emits (state : Tabular.AgentState) :
  emits node_event (Tabular.validate_or_generate_test_cases state).
Proof.
  unfold Tabular.validate_or_generate_test_cases, Tabular.try_block,
    llm_content.
  repeat first [ apply is_similar_emits | apply tabular_selected_cases_emits
               | emits_step ].
Qed.

End NodeCalls.

(* ===================================================================== *)
(** * The retry controller *)
(* ===================================================================== *)

Section ControllerFacts.
Variable R : Type.
Variable agent : string -> M R.
Variable score : R -> Z.
Variable generate : string -> M R.

(** The body returns in both branches. *)
Lemma loop_body_returns (error_message : string) (w w' : world) (o : flow R) :
  loop_body agent score generate error_message w = (inr o, w') ->
  exists value, o = Returned value.
Proof.
  unfold loop_body. run.
  destruct (agent (Str.strip error_message) w) as [[e|r] w1]; [discriminate|].
  destruct (score r <? 3)%Z.
  - destruct (generate error_message w1) as [[e|a] w2]; [discriminate|].
    intros H; inversion H; eauto.
  - intros H; inversion H; eauto.
Qed.

(** Whatever the bound, a loop that is entered is one evaluation. *)
Lemma while_loop_single_shot (remaining : nat) (response : option R)
    (error_message : string) (w : world) :
  while_loop agent score generate (S remaining) response error_message w
  = single_shot agent score generate error_message w.
Proof.
  cbn [while_loop]. unfold loop_body, single_shot. run.
  destruct (agent (Str.strip error_message) w) as [[e|r] w1]; [reflexivity|].
  destruct (score r <? 3)%Z; [|reflexivity].
  destruct (generate error_message w1) as [[e|a] w2]; reflexivity.
Qed.

Lemma get_solution_autonomously_single_shot (error_message : string) (w : world) :
  get_solution_autonomously agent score generate error_message w
  = single_shot agent score generate error_message w.
Proof. apply while_loop_single_shot. Qed.

(** The calls of one evaluation: those of the workflow, then at most those
    of the alternative generation. *)
Lemma single_shot_adds (kind : event -> bool) (lo hi hi' : nat)
    (error_message : string) :
  (forall input, adds kind lo hi (agent input)) ->
  adds kind 0 hi' (generate error_message) ->
  adds kind lo (hi + hi') (single_shot agent score generate error_message).
Proof.
  intros Ha Hg. unfold single_shot. apply adds_bind; [apply Ha|].
  intros r. destruct (score r <? 3)%Z; [exact Hg|].
  apply adds_weaken with (lo := 0%nat) (hi := 0%nat); try lia.
  apply emits_adds_none, emits_ret.
Qed.

End ControllerFacts.

Section ControllerCalls.
Context {ext : Externals}.
Variable cosine : list float -> list float -> exn + float.

Lemma script_agent_adds_invoke (input : string) :
  adds is_agent_invoke 1 1 (Script.agent_invoke_response cosine input).
Proof.
  unfold Script.agent_invoke_response, Script.agent_invoke.
  apply adds_weaken with (lo := 1%nat) (hi := (1 + 0 + 0)%nat); try lia.
  apply adds_bind; [apply adds_bind; [now apply adds_call|]|].
  - intros _. apply emits_adds_none.
    repeat first [ apply (emits_weaken _ _ _ node_event_not_invoke),
                     script_node_emits
                 | emits_step ].
  - intros r. apply emits_adds_none. emits_all.
Qed.

Lemma script_agent_adds_alt (input : string) :
  adds is_alt_prompt 0 0 (Script.agent_invoke_response cosine input).
Proof.
  apply emits_adds_none.
  unfold Script.agent_invoke_response, Script.agent_invoke.
  repeat first [ apply (emits_weaken _ _ _ node_event_not_alt),
                   script_node_emits
               | emits_step ].
Qed.

Lemma script_alternative_adds_invoke (error_message : string) :
  adds is_agent_invoke 0 0 (Script.generate_alternative_solution error_message).
Proof.
  apply emits_adds_none.
  unfold Script.generate_alternative_solution, llm_content. emits_all.
Qed.

Lemma script_alternative_adds_alt (error_message : string) :
  adds is_alt_prompt 1 1 (Script.generate_alternative_solution error_message).
Proof.
  unfold Script.generate_alternative_solution, llm_content.
  apply adds_weaken with (lo := 1%nat) (hi := (1 + 0 + 0)%nat); try lia.
  apply adds_bind; [apply adds_bind; [now apply adds_call|]|].
  - intros reply. apply emits_adds_none. emits_all.
  - intros a. apply emits_adds_none. emits_all.
Qed.

Lemma tabular_agent_adds_invoke (input : string) :
  adds is_agent_invoke 1 1 (Tabular.agent_invoke_response input).
Proof.
  unfold Tabular.agent_invoke_response, Tabular.agent_invoke.
  apply adds_weaken with (lo := 1%nat) (hi := (1 + 0 + 0)%nat); try lia.
  apply adds_bind; [apply adds_bind; [now apply adds_call|]|].
  - intros _. apply emits_adds_none.
    repeat first [ apply (emits_weaken _ _ _ node_event_not_invoke),
                     tabular_node_emits
                 | emits_step ].
  - intros r. apply emits_adds_none. emits_all.
Qed.

Lemma tabular_agent_adds_alt (input : string) :
  adds is_alt_prompt 0 0 (Tabular.agent_invoke_response input).
Proof.
  apply emits_adds_none.
  unfold Tabular.agent_invoke_response, Tabular.agent_invoke.
  repeat first [ apply (emits_weaken _ _ _ node_event_not_alt),
                   tabular_node_emits
               | emits_step ].
Qed.

Lemma tabular_alternative_adds_invoke (error_message : string) :
  adds is_agent_invoke 0 0 (Tabular.generate_alternative_solution error_message).
Proof.
  apply emits_adds_none.
  unfold Tabular.generate_alternative_solution, Tabular.loads_or_empty,
    llm_content.
  emits_all.
Qed.

Lemma tabular_alternative_adds_alt (error_message : string) :
  adds is_alt_prompt 1 1 (Tabular.generate_alternative_solution error_message).
Proof.
  unfold Tabular.generate_alternative_solution, Tabular.loads_or_empty,
    llm_content.
  apply adds_weaken with (lo := 1%nat) (hi := (1 + 0 + 0)%nat); try lia.
  apply adds_bind; [apply adds_bind; [now apply adds_call|]|].
  - intros reply. apply emits_adds_none. emits_all.
  - intros a. apply emits_adds_none. emits_all.
Qed.

(** C7.  In the text scripts and in the JSON script,
    [get_solution_autonomously] is the single evaluation [single_shot]: the
    workflow is invoked exactly once, the alternative-solution prompt is
    sent at most once, and the function returns (or raises) in the first
    turn of its loop of at most three. *)
Theorem get_solution_autonomously_is_single_shot
    (error_message : string) (w : world) :
  (Script.get_solution_autonomously cosine error_message w
   = single_shot (Script.agent_invoke_response cosine)
       Script.auto_evaluate_solution Script.generate_alternative_solution
       error_message w
   /\ count is_agent_invoke
        (trace (snd (Script.get_solution_autonomously cosine error_message w)))
      = (count is_agent_invoke (trace w) + 1)%nat
   /\ (count is_alt_prompt
         (trace (snd (Script.get_solution_autonomously cosine error_message w)))
       <= count is_alt_prompt (trace w) + 1)%nat)
  /\ (Tabular.get_solution_autonomously error_message w
      = single_shot Tabular.agent_invoke_response
          Tabular.auto_evaluate_solution Tabular.generate_alternative_solution
          error_message w
      /\ count is_agent_invoke
           (trace (snd (Tabular.get_solution_autonomously error_message w)))
         = (count is_agent_invoke (trace w) + 1)%nat
      /\ (count is_alt_prompt
            (trace (snd (Tabular.get_solution_autonomously error_message w)))
          <= count is_alt_prompt (trace w) + 1)%nat).
Proof.
  unfold Script.get_solution_autonomously, Tabular.get_solution_autonomously.
  rewrite !get_solution_autonomously_single_shot.
  split; (split; [reflexivity|]); split.
  - pose proof (single_shot_adds _ _ Script.auto_evaluate_solution _ is_agent_invoke
                  1 1 0 error_message script_agent_adds_invoke
                  (script_alternative_adds_invoke error_message) w) as H.
    simpl in H. lia.
  - pose proof (single_shot_adds _ _ Script.auto_evaluate_solution _ is_alt_prompt
                  0 0 1 error_message script_agent_adds_alt
                  (adds_weaken _ 1 1 0 1 _ (le_0_n _) (le_n _)
                     (script_alternative_adds_alt error_message)) w) as H.
    simpl in H. lia.
  - pose proof (single_shot_adds _ _ Tabular.auto_evaluate_solution _ is_agent_invoke
                  1 1 0 error_message tabular_agent_adds_invoke
                  (tabular_alternative_adds_invoke error_message) w) as H.
    simpl in H. lia.
  - pose proof (single_shot_adds _ _ Tabular.auto_evaluate_solution _ is_alt_prompt
                  0 0 1 error_message tabular_agent_adds_alt
                  (adds_weaken _ 1 1 0 1 _ (le_0_n _) (le_n _)
                     (tabular_alternative_adds_alt error_message)) w) as H.
    simpl in H. lia.
Qed.

End ControllerCalls.

(* ===================================================================== *)
(** * The Test Case Manager *)
(* ===================================================================== *)

Lemma get_csv_test_cases_fst (module : string) (w : world) (csv : list TestCase) :
  fst (get_csv_test_cases module w) = inr csv -> csv = csv_test_cases_of module w.
Proof. rewrite get_csv_test_cases_reads. simpl. congruence. Qed.

Section Quota.
Context {ext : Externals}.

(** C6.  With four or more valid stored cases for the module, the Test
    Case Manager of the text scripts and of the JSON script returns the
    stored valid set as it is, and leaves the world as it found it: no call
    is added to the trace (no generation), and the table is the same. *)
Theorem selected_cases_quota_met
    (module error_message solution explanation : string)
    (w : world) (csv : list TestCase) :
  fst (get_csv_test_cases module w) = inr csv ->
  (4 <= List.length csv)%nat ->
  Script.selected_cases module error_message solution explanation w
  = (inr csv, w)
  /\ Tabular.selected_cases module error_message solution explanation w
     = (inr (JList (map Tabular.dict_of_case csv)), w).
Proof.
  intros Hcsv Hlen. apply get_csv_test_cases_fst in Hcsv.
  unfold Script.selected_cases, Tabular.selected_cases.
  rewrite !(bind_inr _ _ _ _ _ (get_csv_test_cases_reads module w)).
  rewrite <- Hcsv.
  assert (Hq : negb (df_empty csv)
               && (Script.REQUIRED_TEST_CASE_COUNT <=? List.length csv)%nat
               = true).
  { destruct csv; [simpl in Hlen; lia|]. simpl negb.
    apply Nat.leb_le in Hlen. exact Hlen. }
  change Tabular.REQUIRED_TEST_CASE_COUNT with Script.REQUIRED_TEST_CASE_COUNT.
  rewrite Hq. split; reflexivity.
Qed.

End Quota.

(** The manager on a table of four valid cases, with the language model
    down: the four cases come back and nothing else happens. *)
Lemma selected_cases_quota_met_witness :
  Script.selected_cases (ext := offline) "Storage" "e" "s" "x"
    (world_of four_cases)
  = (inr four_cases, world_of four_cases)
  /\ Tabular.selected_cases (ext := offline) "Storage" "e" "s" "x"
       (world_of four_cases)
     = (inr (JList (map Tabular.dict_of_case four_cases)), world_of four_cases).
Proof.
  apply (@selected_cases_quota_met offline "Storage" "e" "s" "x"
           (world_of four_cases) four_cases).
  - reflexivity.
  - simpl. lia.
Defined.

(* ===================================================================== *)
(** * The workflow on an unresolved query *)
(* ===================================================================== *)

Lemma llm_calls_app (tr evs : list event) :
  llm_calls (tr ++ evs) = (llm_calls tr ++ llm_calls evs)%list.
Proof. apply filter_app. Qed.

Lemma llm_calls_log (ev : event) (w : world) :
  llm_calls (trace (log ev w))
  = (llm_calls (trace w) ++ (if is_llm ev then [ev] else []))%list.
Proof. unfold log; simpl. rewrite llm_calls_app. simpl. now destruct (is_llm ev). Qed.

Section Steps.
Context {ext : Externals}.

Lemma llm_content_answers (p : prompt) (reply : string) (w : world) :
  llm_invoke p = inr reply ->
  llm_content p w = (inr (Str.strip reply), log (EvLlm p) w).
Proof. intros H. unfold llm_content. run. now rewrite H. Qed.

Lemma llm_content_raises (p : prompt) (e : exn) (w : world) :
  llm_invoke p = inl e -> llm_content p w = (inl e, log (EvLlm p) w).
Proof. intros H. unfold llm_content. run. now rewrite H. Qed.

Lemma is_similar_value (cosine : list float -> list float -> exn + float)
    (query : string) (document : Document) (th sim : float) (w : world) :
  similarity cosine query document = inr sim ->
  is_similar cosine query document th w
  = (inr (th <=? sim)%float,
     log (EvEmbed (page_content document)) (log (EvEmbed query) w)).
Proof.
  unfold similarity, is_similar, get_embedding, and_then. run.
  destruct (embed_query query) as [e|u]; [discriminate|].
  destruct (embed_query (page_content document)) as [e|v]; [discriminate|].
  now intros ->.
Qed.

End Steps.

Section Workflow.
Context {ext : Externals}.
Variable cosine : list float -> list float -> exn + float.

(** The node returns what its [try] block returns and turns what it raises
    into the error response: it never raises. *)
Lemma script_node_run (state : Script.AgentState) (w : world) :
  Script.validate_or_generate_test_cases cosine state w
  = match Script.try_block cosine state w with
    | (inl e, w') => (inr (Script.error_response e), w')
    | (inr r, w') => (inr r, w')
    end.
Proof.
  unfold Script.validate_or_generate_test_cases, try_except.
  destruct (Script.try_block cosine state w) as [[e|r] w']; reflexivity.
Qed.

Lemma tabular_node_run (state : Tabular.AgentState) (w : world) :
  Tabular.validate_or_generate_test_cases state w
  = match Tabular.try_block state w with
    | (inl e, w') => (inr (Tabular.error_response e), w')
    | (inr r, w') => (inr r, w')
    end.
Proof.
  unfold Tabular.validate_or_generate_test_cases, try_except.
  destruct (Tabular.try_block state w) as [[e|r] w']; reflexivity.
Qed.

(** The workflow: what the retriever raises, or what the node returns on
    the documents retrieved. *)
Lemma script_workflow_run (input : string) (w : world) :
  Script.agent_invoke_response cosine input w
  = match retriever_invoke input with
    | inl e => (inl e, entered input w)
    | inr docs =>
        Script.validate_or_generate_test_cases cosine
          (script_state input docs) (entered input w)
    end.
Proof.
  unfold Script.agent_invoke_response, Script.agent_invoke, entered,
    script_state.
  unfold bind at 1 2 3; unfold call at 1 2; cbn [fst snd].
  destruct (retriever_invoke input) as [e|docs]; [reflexivity|].
  unfold bind. rewrite script_node_run.
  destruct (Script.try_block _ _ _) as [[e|r] w']; reflexivity.
Qed.

Lemma tabular_workflow_run (input : string) (w : world) :
  Tabular.agent_invoke_response input w
  = match retriever_invoke input with
    | inl e => (inl e, entered input w)
    | inr docs =>
        Tabular.validate_or_generate_test_cases
          (tabular_state input docs) (entered input w)
    end.
Proof.
  unfold Tabular.agent_invoke_response, Tabular.agent_invoke, entered,
    tabular_state.
  unfold bind at 1 2 3; unfold call at 1 2; cbn [fst snd].
  destruct (retriever_invoke input) as [e|docs]; [reflexivity|].
  unfold bind. rewrite tabular_node_run.
  destruct (Tabular.try_block _ _) as [[e|r] w']; reflexivity.
Qed.

Lemma llm_calls_entered (input : string) (w : world) :
  llm_calls (trace (entered input w)) = llm_calls (trace w).
Proof. unfold entered. rewrite !llm_calls_log. simpl. now rewrite !app_nil_r. Qed.

(** The [try] block when the nearest neighbour fails the gate's test. *)
Lemma script_try_block_gate_fails (state : Script.AgentState)
    (d : Document) (rest : list Document) (sim : float) (w : world) :
  Script.context state = d :: rest ->
  similarity cosine (Script.input state) d = inr sim ->
  (threshold_call_site <=? sim)%float = false ->
  Script.try_block cosine state w
  = (inr Script.NOT_FOUND,
     log (EvEmbed (page_content d)) (log (EvEmbed (Script.input state)) w)).
Proof.
  intros Hc Hsim Hth. unfold Script.try_block. rewrite Hc.
  rewrite (bind_inr _ _ _ _ _ (is_similar_value _ _ _ _ _ _ Hsim)), Hth.
  reflexivity.
Qed.

Lemma tabular_try_block_gate_fails (state : Tabular.AgentState)
    (d : Document) (rest : list Document) (sim : float) (w : world) :
  Tabular.context state = d :: rest ->
  similarity cosine_similarity (Tabular.input state) d = inr sim ->
  (threshold_call_site <=? sim)%float = false ->
  Tabular.try_block state w
  = (inr (Tabular.ErrorResponse Tabular.NOT_FOUND),
     log (EvEmbed (page_content d)) (log (EvEmbed (Tabular.input state)) w)).
Proof.
  intros Hc Hsim Hth. unfold Tabular.try_block. rewrite Hc.
  rewrite (bind_inr _ _ _ _ _ (is_similar_value _ _ _ _ _ _ Hsim)), Hth.
  reflexivity.
Qed.

(** The text workflow on an unresolved query: the not-found indicator, no
    generation call, the table as it was. *)
Lemma script_workflow_unresolved (input : string) (w : world) :
  unresolved cosine input ->
  exists w1,
    Script.agent_invoke_response cosine input w = (inr Script.NOT_FOUND, w1)
    /\ llm_calls (trace w1) = llm_calls (trace w)
    /\ test_cases_df w1 = test_cases_df w.
Proof.
  intros [Hempty|(d & rest & sim & Hdocs & Hsim & Hth)];
    rewrite script_workflow_run.
  - rewrite Hempty. eexists. split; [reflexivity|].
    split; [apply llm_calls_entered | reflexivity].
  - rewrite Hdocs, script_node_run.
    rewrite (script_try_block_gate_fails (script_state input (d :: rest)) d rest sim _
               eq_refl Hsim Hth).
    eexists. split; [reflexivity|]. split; [|reflexivity].
    rewrite !llm_calls_log. simpl. rewrite !app_nil_r.
    apply llm_calls_entered.
Qed.

End Workflow.

Section TabularUnresolved.
Context {ext : Externals}.

Lemma tabular_workflow_unresolved (input : string) (w : world) :
  unresolved cosine_similarity input ->
  exists w1,
    Tabular.agent_invoke_response input w
    = (inr (Tabular.ErrorResponse Tabular.NOT_FOUND), w1)
    /\ llm_calls (trace w1) = llm_calls (trace w)
    /\ test_cases_df w1 = test_cases_df w.
Proof.
  intros [Hempty|(d & rest & sim & Hdocs & Hsim & Hth)];
    rewrite tabular_workflow_run.
  - rewrite Hempty. eexists. split; [reflexivity|].
    split; [apply llm_calls_entered | reflexivity].
  - rewrite Hdocs, tabular_node_run.
    rewrite (tabular_try_block_gate_fails (tabular_state input (d :: rest)) d rest sim _
               eq_refl Hsim Hth).
    eexists. split; [reflexivity|]. split; [|reflexivity].
    rewrite !llm_calls_log. simpl. rewrite !app_nil_r.
    apply llm_calls_entered.
Qed.

End TabularUnresolved.

(* ===================================================================== *)
(** * The alternative generation *)
(* ===================================================================== *)

Section Alternative.
Context {ext : Externals}.

Lemma loads_or_empty_run (text : string) (w : world) :
  Tabular.loads_or_empty text w = (inr (loaded text), w).
Proof.
  unfold Tabular.loads_or_empty, loaded, try_except, lift, ret.
  destruct (json_loads text); reflexivity.
Qed.

Lemma script_alternative_run (error_message a t : string) (w : world) :
  llm_invoke (alt_prompt error_message) = inr a ->
  llm_invoke (test_case_prompt false error_message (Str.strip a)) = inr t ->
  Script.generate_alternative_solution error_message w
  = (inr (Script.alt_response (Str.strip a) (Str.strip t)),
     log (EvLlm (test_case_prompt false error_message (Str.strip a)))
       (log (EvLlm (alt_prompt error_message)) w)).
Proof.
  intros Ha Ht. unfold Script.generate_alternative_solution.
  rewrite (bind_inr _ _ _ _ _ (llm_content_answers _ _ _ Ha)).
  rewrite (bind_inr _ _ _ _ _ (llm_content_answers _ _ _ Ht)).
  reflexivity.
Qed.

Lemma tabular_alternative_run (error_message a t : string) (w : world) :
  llm_invoke (alt_prompt error_message) = inr a ->
  llm_invoke (test_case_prompt true error_message (Str.strip a)) = inr t ->
  Tabular.generate_alternative_solution error_message w
  = (inr (Tabular.Alternative (Str.strip a) (loaded (Str.strip t))),
     log (EvLlm (test_case_prompt true error_message (Str.strip a)))
       (log (EvLlm (alt_prompt error_message)) w)).
Proof.
  intros Ha Ht. unfold Tabular.generate_alternative_solution.
  rewrite (bind_inr _ _ _ _ _ (llm_content_answers _ _ _ Ha)).
  rewrite (bind_inr _ _ _ _ _ (llm_content_answers _ _ _ Ht)).
  rewrite (bind_inr _ _ _ _ _ (loads_or_empty_run _ _)).
  reflexivity.
Qed.

(** The alternative generation raises only what one of its two generation
    calls raises. *)
Lemma script_alternative_raises (error_message : string) (w : world) (e : exn) :
  fst (Script.generate_alternative_solution error_message w) = inl e ->
  llm_invoke (alt_prompt error_message) = inl e
  \/ exists a, llm_invoke (alt_prompt error_message) = inr a
               /\ llm_invoke (test_case_prompt false error_message (Str.strip a))
                  = inl e.
Proof.
  unfold Script.generate_alternative_solution.
  destruct (llm_invoke (alt_prompt error_message)) as [e1|a] eqn:Ha.
  - rewrite (bind_inl _ _ _ _ _ (llm_content_raises _ _ _ Ha)). simpl.
    intros H; inversion H; now left.
  - rewrite (bind_inr _ _ _ _ _ (llm_content_answers _ _ _ Ha)).
    destruct (llm_invoke (test_case_prompt false error_message (Str.strip a)))
      as [e2|t] eqn:Ht.
    + rewrite (bind_inl _ _ _ _ _ (llm_content_raises _ _ _ Ht)). simpl.
      intros H; inversion H; subst. right. now exists a.
    + rewrite (bind_inr _ _ _ _ _ (llm_content_answers _ _ _ Ht)). discriminate.
Qed.

Lemma tabular_alternative_raises (error_message : string) (w : world) (e : exn) :
  fst (Tabular.generate_alternative_solution error_message w) = inl e ->
  llm_invoke (alt_prompt error_message) = inl e
  \/ exists a, llm_invoke (alt_prompt error_message) = inr a
               /\ llm_invoke (test_case_prompt true error_message (Str.strip a))
                  = inl e.
Proof.
  unfold Tabular.generate_alternative_solution.
  destruct (llm_invoke (alt_prompt error_message)) as [e1|a] eqn:Ha.
  - rewrite (bind_inl _ _ _ _ _ (llm_content_raises _ _ _ Ha)). simpl.
    intros H; inversion H; now left.
  - rewrite (bind_inr _ _ _ _ _ (llm_content_answers _ _ _ Ha)).
    destruct (llm_invoke (test_case_prompt true error_message (Str.strip a)))
      as [e2|t] eqn:Ht.
    + rewrite (bind_inl _ _ _ _ _ (llm_content_raises _ _ _ Ht)). simpl.
      intros H; inversion H; subst. right. now exists a.
    + rewrite (bind_inr _ _ _ _ _ (llm_content_answers _ _ _ Ht)).
      rewrite (bind_inr _ _ _ _ _ (loads_or_empty_run _ _)). discriminate.
Qed.

End Alternative.

(* ===================================================================== *)
(** * Unresolved queries *)
(* ===================================================================== *)

Section NotFound.
Context {ext : Externals}.
Variable cosine : list float -> list float -> exn + float.

(** C1, as the code has it.  For a query the store has nothing for, or
    whose nearest neighbour fails the gate's test, the workflow answers
    with the explicit not-found indicator and makes no generation call.
    [get_solution] scores that answer 1 and, the score being below 3,
    replaces it: when the two generation calls of
    [generate_alternative_solution] answer, it returns the generated
    alternative, and those two calls are the generation calls it made. *)
Theorem unresolved_query_gets_alternative
    (error_message : string) (w : world) :
  (unresolved cosine (Str.strip error_message) ->
   (exists w1,
      Script.agent_invoke_response cosine (Str.strip error_message) w
      = (inr Script.NOT_FOUND, w1)
      /\ llm_calls (trace w1) = llm_calls (trace w))
   /\ Script.auto_evaluate_solution Script.NOT_FOUND = 1%Z
   /\ (forall a t,
         llm_invoke (alt_prompt error_message) = inr a ->
         llm_invoke (test_case_prompt false error_message (Str.strip a))
         = inr t ->
         exists w2,
           Script.get_solution cosine error_message w
           = (inr (Script.alt_response (Str.strip a) (Str.strip t)), w2)
           /\ llm_calls (trace w2)
              = (llm_calls (trace w)
                 ++ [EvLlm (alt_prompt error_message);
                     EvLlm (test_case_prompt false error_message
                              (Str.strip a))])%list))
  /\ (unresolved cosine_similarity (Str.strip error_message) ->
      (exists w1,
         Tabular.agent_invoke_response (Str.strip error_message) w
         = (inr (Tabular.ErrorResponse Tabular.NOT_FOUND), w1)
         /\ llm_calls (trace w1) = llm_calls (trace w))
      /\ Tabular.auto_evaluate_solution
           (Tabular.ErrorResponse Tabular.NOT_FOUND) = 1%Z
      /\ (forall a t,
            llm_invoke (alt_prompt error_message) = inr a ->
            llm_invoke (test_case_prompt true error_message (Str.strip a))
            = inr t ->
            exists w2,
              Tabular.get_solution error_message w
              = (inr (Tabular.Alternative (Str.strip a)
                        (loaded (Str.strip t))), w2)
              /\ llm_calls (trace w2)
                 = (llm_calls (trace w)
                    ++ [EvLlm (alt_prompt error_message);
                        EvLlm (test_case_prompt true error_message
                                 (Str.strip a))])%list)).
Proof.
  split; intros Hun.
  - destruct (script_workflow_unresolved cosine _ w Hun) as (w1 & Hrun & Hcalls & _).
    split; [now exists w1|]. split; [reflexivity|].
    intros a t Ha Ht.
    unfold Script.get_solution, Script.get_solution_autonomously.
    rewrite get_solution_autonomously_single_shot. unfold single_shot.
    rewrite (bind_inr _ _ _ _ _ Hrun).
    change (Script.auto_evaluate_solution Script.NOT_FOUND <? 3)%Z with true.
    cbv iota. rewrite (script_alternative_run _ _ _ _ Ha Ht).
    eexists. split; [reflexivity|].
    rewrite !llm_calls_log, Hcalls. simpl. now rewrite <- app_assoc.
  - destruct (tabular_workflow_unresolved _ w Hun) as (w1 & Hrun & Hcalls & _).
    split; [now exists w1|]. split; [reflexivity|].
    intros a t Ha Ht.
    unfold Tabular.get_solution, Tabular.get_solution_autonomously.
    rewrite get_solution_autonomously_single_shot. unfold single_shot.
    rewrite (bind_inr _ _ _ _ _ Hrun).
    change (Tabular.auto_evaluate_solution
              (Tabular.ErrorResponse Tabular.NOT_FOUND) <? 3)%Z with true.
    cbv iota. rewrite (tabular_alternative_run _ _ _ _ Ha Ht).
    eexists. split; [reflexivity|].
    rewrite !llm_calls_log, Hcalls. simpl. now rewrite <- app_assoc.
Qed.

End NotFound.

(** C1 as stated fails.  Against an empty store, and against a store whose
    nearest document is orthogonal to the query, [get_solution] does not
    return the not-found indicator: it returns the generated alternative,
    after two generation calls. *)
Lemma unresolved_query_is_answered_by_generation :
  unresolved (ext := empty_store) cosine_similarity "BIOS not booting up"
  /\ fst (Script.get_solution (ext := empty_store) cosine_similarity
            "BIOS not booting up" empty_world)
     = inr (Script.alt_response "ok" "ok")
  /\ Script.alt_response "ok" "ok" <> Script.NOT_FOUND
  /\ List.length
       (llm_calls (trace (snd (Script.get_solution (ext := empty_store)
                                 cosine_similarity "BIOS not booting up"
                                 empty_world)))) = 2%nat
  /\ unresolved (ext := far_store) cosine_similarity "BIOS not booting up"
  /\ fst (Tabular.get_solution (ext := far_store) "BIOS not booting up"
            empty_world)
     = inr (Tabular.Alternative "ok" (JList []))
  /\ List.length
       (llm_calls (trace (snd (Tabular.get_solution (ext := far_store)
                                 "BIOS not booting up" empty_world))))
     = 2%nat.
Proof.
  split; [left; reflexivity|].
  split; [vm_compute; reflexivity|].
  split; [vm_compute; discriminate|].
  split; [vm_compute; reflexivity|].
  split.
  - right. exists sample_doc, [], 0%float. repeat split; vm_compute; reflexivity.
  - split; vm_compute; reflexivity.
Qed.

(** The amended statement at an empty store (text) and at a store whose
    nearest document fails the gate (JSON). *)
Lemma unresolved_query_gets_alternative_witness :
  (exists w2,
     Script.get_solution (ext := empty_store) cosine_similarity
       "BIOS not booting up" empty_world
     = (inr (Script.alt_response "ok" "ok"), w2)
     /\ llm_calls (trace w2)
        = [EvLlm (alt_prompt "BIOS not booting up");
           EvLlm (test_case_prompt false "BIOS not booting up" "ok")])
  /\ (exists w2,
        Tabular.get_solution (ext := far_store) "BIOS not booting up"
          empty_world
        = (inr (Tabular.Alternative "ok" (JList [])), w2)
        /\ llm_calls (trace w2)
           = [EvLlm (alt_prompt "BIOS not booting up");
              EvLlm (test_case_prompt true "BIOS not booting up" "ok")]).
Proof.
  split.
  - destruct (@unresolved_query_gets_alternative empty_store cosine_similarity
                "BIOS not booting up" empty_world) as [Hscript _].
    destruct (Hscript (or_introl eq_refl)) as (_ & _ & Hget).
    exact (Hget "ok" "ok" eq_refl eq_refl).
  - destruct (@unresolved_query_gets_alternative far_store cosine_similarity
                "BIOS not booting up" empty_world) as [_ Htabular].
    assert (Hfar : unresolved (ext := far_store) cosine_similarity
                     (Str.strip "BIOS not booting up")).
    { right. exists sample_doc, [], 0%float.
      repeat split; vm_compute; reflexivity. }
    destruct (Htabular Hfar) as (_ & _ & Hget).
    exact (Hget "ok" "ok" eq_refl eq_refl).
Defined.

(* ===================================================================== *)
(** * Exceptions and the boundary of the pipeline *)
(* ===================================================================== *)

Section Boundary.
Context {ext : Externals}.
Variable cosine : list float -> list float -> exn + float.

Lemma script_alternative_raises_iff (error_message : string) (w : world) (e : exn) :
  fst (Script.generate_alternative_solution error_message w) = inl e
  <-> alternative_raises false error_message e.
Proof.
  split; [apply script_alternative_raises|].
  unfold Script.generate_alternative_solution.
  intros [Ha|(a & Ha & Ht)].
  - now rewrite (bind_inl _ _ _ _ _ (llm_content_raises _ _ _ Ha)).
  - rewrite (bind_inr _ _ _ _ _ (llm_content_answers _ _ _ Ha)).
    now rewrite (bind_inl _ _ _ _ _ (llm_content_raises _ _ _ Ht)).
Qed.

Lemma tabular_alternative_raises_iff (error_message : string) (w : world) (e : exn) :
  fst (Tabular.generate_alternative_solution error_message w) = inl e
  <-> alternative_raises true error_message e.
Proof.
  split; [apply tabular_alternative_raises|].
  unfold Tabular.generate_alternative_solution.
  intros [Ha|(a & Ha & Ht)].
  - now rewrite (bind_inl _ _ _ _ _ (llm_content_raises _ _ _ Ha)).
  - rewrite (bind_inr _ _ _ _ _ (llm_content_answers _ _ _ Ha)).
    now rewrite (bind_inl _ _ _ _ _ (llm_content_raises _ _ _ Ht)).
Qed.

(** The workflow raises exactly what the retriever raises. *)
Lemma script_workflow_raises (input : string) (w : world) (e : exn) :
  fst (Script.agent_invoke_response cosine input w) = inl e
  <-> retriever_invoke input = inl e.
Proof.
  rewrite script_workflow_run.
  destruct (retriever_invoke input) as [e0|docs]; simpl.
  - split; congruence.
  - rewrite script_node_run.
    destruct (Script.try_block _ _ _) as [[e1|r] w']; simpl; split; discriminate.
Qed.

Lemma tabular_workflow_raises (input : string) (w : world) (e : exn) :
  fst (Tabular.agent_invoke_response input w) = inl e
  <-> retriever_invoke input = inl e.
Proof.
  rewrite tabular_workflow_run.
  destruct (retriever_invoke input) as [e0|docs]; simpl.
  - split; congruence.
  - rewrite tabular_node_run.
    destruct (Tabular.try_block _ _) as [[e1|r] w']; simpl; split; discriminate.
Qed.

(** One evaluation raises what the workflow raises, or what the
    alternative generation raises when the score is below 3. *)
Lemma single_shot_raises (R : Type) (agent : string -> M R) (score : R -> Z)
    (generate : string -> M R) (error_message : string) (w : world) (e : exn) :
  fst (single_shot agent score generate error_message w) = inl e
  <-> fst (agent (Str.strip error_message) w) = inl e
      \/ exists r w1,
           agent (Str.strip error_message) w = (inr r, w1)
           /\ (score r <? 3)%Z = true
           /\ fst (generate error_message w1) = inl e.
Proof.
  unfold single_shot, bind.
  destruct (agent (Str.strip error_message) w) as [[e0|r] w1]; simpl.
  - split; [now left|]. intros [H|(r & w2 & H & _)]; [exact H | discriminate].
  - destruct (score r <? 3)%Z eqn:Hs.
    + split.
      * intros H. right. now exists r, w1.
      * intros [H|(r' & w2 & H & _ & Hg)]; [discriminate|].
        inversion H; subst. exact Hg.
    + split; [discriminate|].
      intros [H|(r' & w2 & H & Hs' & _)]; [discriminate|].
      inversion H; subst. congruence.
Qed.

(** C8, as the code has it.  The validate/generate node never raises: it
    returns what its [try] block returns, the not-found response when the
    gate fails, and the error response built from the exception when the
    block raises, whichever call raised it.  [get_solution] has no handler
    of its own: it raises exactly when the retriever raises, or when the
    workflow's response scores below 3 and a generation call of
    [generate_alternative_solution] raises. *)
Theorem node_catches_get_solution_propagates
    (error_message : string) (w : world) :
  (forall state w0,
     (exists r w', Script.validate_or_generate_test_cases cosine state w0
                   = (inr r, w'))
     /\ (forall e w', Script.try_block cosine state w0 = (inl e, w') ->
           Script.validate_or_generate_test_cases cosine state w0
           = (inr (Script.error_response e), w'))
     /\ (forall d rest sim,
           Script.context state = d :: rest ->
           similarity cosine (Script.input state) d = inr sim ->
           (threshold_call_site <=? sim)%float = false ->
           fst (Script.validate_or_generate_test_cases cosine state w0)
           = inr Script.NOT_FOUND))
  /\ (forall state w0,
        (exists r w', Tabular.validate_or_generate_test_cases state w0
                      = (inr r, w'))
        /\ (forall e w', Tabular.try_block state w0 = (inl e, w') ->
              Tabular.validate_or_generate_test_cases state w0
              = (inr (Tabular.error_response e), w'))
        /\ (forall d rest sim,
              Tabular.context state = d :: rest ->
              similarity cosine_similarity (Tabular.input state) d = inr sim ->
              (threshold_call_site <=? sim)%float = false ->
              fst (Tabular.validate_or_generate_test_cases state w0)
              = inr (Tabular.ErrorResponse Tabular.NOT_FOUND)))
  /\ (forall e,
        fst (Script.get_solution cosine error_message w) = inl e
        <-> retriever_invoke (Str.strip error_message) = inl e
            \/ exists r w1,
                 Script.agent_invoke_response cosine (Str.strip error_message) w
                 = (inr r, w1)
                 /\ (Script.auto_evaluate_solution r <? 3)%Z = true
                 /\ alternative_raises false error_message e)
  /\ (forall e,
        fst (Tabular.get_solution error_message w) = inl e
        <-> retriever_invoke (Str.strip error_message) = inl e
            \/ exists r w1,
                 Tabular.agent_invoke_response (Str.strip error_message) w
                 = (inr r, w1)
                 /\ (Tabular.auto_evaluate_solution r <? 3)%Z = true
                 /\ alternative_raises true error_message e).
Proof.
  repeat split.
  - rewrite script_node_run.
    destruct (Script.try_block cosine state w0) as [[e|r] w']; eauto.
  - intros e w' H. now rewrite script_node_run, H.
  - intros d rest sim Hc Hsim Hth.
    now rewrite script_node_run,
      (script_try_block_gate_fails cosine state d rest sim w0 Hc Hsim Hth).
  - rewrite tabular_node_run.
    destruct (Tabular.try_block state w0) as [[e|r] w']; eauto.
  - intros e w' H. now rewrite tabular_node_run, H.
  - intros d rest sim Hc Hsim Hth.
    now rewrite tabular_node_run,
      (tabular_try_block_gate_fails state d rest sim w0 Hc Hsim Hth).
  - unfold Script.get_solution, Script.get_solution_autonomously.
    rewrite get_solution_autonomously_single_shot, single_shot_raises.
    rewrite script_workflow_raises.
    intros [H|(r & w1 & Hr & Hs & Hg)]; [now left|]. right.
    exists r, w1. now rewrite <- (script_alternative_raises_iff error_message w1).
  - unfold Script.get_solution, Script.get_solution_autonomously.
    rewrite get_solution_autonomously_single_shot, single_shot_raises.
    rewrite script_workflow_raises.
    intros [H|(r & w1 & Hr & Hs & Hg)]; [now left|]. right.
    exists r, w1. now rewrite (script_alternative_raises_iff error_message w1).
  - unfold Tabular.get_solution, Tabular.get_solution_autonomously.
    rewrite get_solution_autonomously_single_shot, single_shot_raises.
    rewrite tabular_workflow_raises.
    intros [H|(r & w1 & Hr & Hs & Hg)]; [now left|]. right.
    exists r, w1. now rewrite <- (tabular_alternative_raises_iff error_message w1).
  - unfold Tabular.get_solution, Tabular.get_solution_autonomously.
    rewrite get_solution_autonomously_single_shot, single_shot_raises.
    rewrite tabular_workflow_raises.
    intros [H|(r & w1 & Hr & Hs & Hg)]; [now left|]. right.
    exists r, w1. now rewrite (tabular_alternative_raises_iff error_message w1).
Qed.

End Boundary.

(** C8 as stated fails.  With the language model down and nothing in the
    store, the query is unresolved, the alternative generation is tried,
    and its first call's exception leaves [get_solution]; with the
    retriever down, the retriever's exception does. *)
Lemma get_solution_raises_past_the_boundary :
  fst (Script.get_solution (ext := offline) cosine_similarity
         "BIOS not booting up" empty_world)
  = inl (ExternalError "service unavailable")
  /\ fst (Tabular.get_solution (ext := offline) "BIOS not booting up"
            empty_world)
     = inl (ExternalError "service unavailable")
  /\ fst (Script.get_solution (ext := retriever_down) cosine_similarity
            "BIOS not booting up" empty_world)
     = inl (ExternalError "index unavailable")
  /\ fst (Tabular.get_solution (ext := retriever_down) "BIOS not booting up"
            empty_world)
     = inl (ExternalError "index unavailable").
Proof. repeat split; vm_compute; reflexivity. Qed.

(** The node on the sample defect with the language model down: the
    exception of the explanation call becomes the error response. *)
Lemma node_catches_get_solution_propagates_witness :
  Script.validate_or_generate_test_cases
    (ext := store_llm_down) cosine_similarity
    (script_state "Disk read error on boot" [sample_doc]) empty_world
  = (inr "Error processing request: service unavailable",
     {| test_cases_df := [];
        trace := [EvEmbed "Disk read error on boot";
                  EvEmbed "Disk read error on boot";
                  EvLlm (explanation_prompt "Disk read error on boot"
                           "Replace SATA cable")] |}).
Proof.
  destruct (@node_catches_get_solution_propagates
              store_llm_down
              cosine_similarity "" empty_world) as [Hnode _].
  destruct (Hnode (script_state "Disk read error on boot" [sample_doc])
              empty_world) as (_ & Hcatch & _).
  apply (Hcatch (ExternalError "service unavailable")). reflexivity.
Defined.

(* ===================================================================== *)
(** * The scorer *)
(* ===================================================================== *)

(** C4, as the code has it.  The text scorer looks for two marks in the
    response text: it returns 5 when the delimiter [### END TEST CASE ###]
    occurs in it, else 1 when [**Error**:] occurs in it, else 3; the
    not-found indicator scores 1.  The JSON scorer returns 5 when the
    response has a non-empty list under [TestCases] and 1 in every other
    case, the not-found response among them; it never returns 3. *)
Theorem auto_evaluate_solution_scores :
  (forall response,
     (occurs_in "### END TEST CASE ###" response ->
      Script.auto_evaluate_solution response = 5%Z)
     /\ (~ occurs_in "### END TEST CASE ###" response ->
         occurs_in "**Error**:" response ->
         Script.auto_evaluate_solution response = 1%Z)
     /\ (~ occurs_in "### END TEST CASE ###" response ->
         ~ occurs_in "**Error**:" response ->
         Script.auto_evaluate_solution response = 3%Z))
  /\ Script.auto_evaluate_solution Script.NOT_FOUND = 1%Z
  /\ (forall response,
        (tabular_carries_test_cases response ->
         Tabular.auto_evaluate_solution response = 5%Z)
        /\ (~ tabular_carries_test_cases response ->
            Tabular.auto_evaluate_solution response = 1%Z)
        /\ Tabular.auto_evaluate_solution response <> 3%Z)
  /\ Tabular.auto_evaluate_solution (Tabular.ErrorResponse Tabular.NOT_FOUND)
     = 1%Z.
Proof.
  split; [|split; [reflexivity|split; [|reflexivity]]].
  - intros response. unfold Script.auto_evaluate_solution, occurs_in.
    destruct (Str.contains "### END TEST CASE ###" response) eqn:Hd.
    + apply contains_spec in Hd. repeat split; tauto.
    + assert (~ exists pre post, response = pre ++ "### END TEST CASE ###" ++ post).
      { intros H. apply contains_spec in H. congruence. }
      destruct (Str.contains "**Error**:" response) eqn:He.
      * apply contains_spec in He. repeat split; tauto.
      * assert (~ exists pre post, response = pre ++ "**Error**:" ++ post).
        { intros H'. apply contains_spec in H'. congruence. }
        repeat split; tauto.
  - intros response. unfold Tabular.auto_evaluate_solution,
      tabular_carries_test_cases.
    destruct (Tabular.test_cases_of response) as [[[|c cs]|t msg]|];
      repeat split; try discriminate; try reflexivity;
      try (intros (c' & cs' & H); discriminate);
      try (intros H; exfalso; apply H; eauto).
Qed.

(** The scores of a raw generator reply that ends with the delimiter, and
    of a JSON response with one test case. *)
Lemma auto_evaluate_solution_scores_witness :
  Script.auto_evaluate_solution two_block_reply = 5%Z
  /\ Tabular.auto_evaluate_solution
       (Tabular.Alternative "Reseat the drive." (JList [five_key_case]))
     = 5%Z.
Proof.
  destruct auto_evaluate_solution_scores as (Htext & _ & Hjson & _).
  split.
  - apply (Htext two_block_reply).
    exists ("Test_Scenario: cold boot" ++ Str.LF
            ++ "Test_Steps: power on" ++ Str.LF
            ++ "Pre_Requisite: disk" ++ Str.LF
            ++ "Expected_Result: login" ++ Str.LF
            ++ "Pass_Fail_Criteria: boots" ++ Str.LF),
           (Str.LF ++ "Test_Steps: only steps" ++ Str.LF
            ++ "### END TEST CASE ###").
    reflexivity.
  - apply (Hjson (Tabular.Alternative "Reseat the drive." (JList [five_key_case]))).
    exists five_key_case, []. reflexivity.
Defined.

(** C4 as stated fails in both variants.  The text response the node
    formats for one stored case carries a test case and scores 3; the JSON
    response of the [except] branch is neither a not-found error nor a
    response with test cases, and scores 1. *)
Lemma auto_evaluate_solution_not_as_specified :
  Script.auto_evaluate_solution
    (Script.format_response "e" "s" "x" [sample_case]) = 3%Z
  /\ Tabular.auto_evaluate_solution
       (Tabular.error_response (ExternalError "service unavailable")) = 1%Z
  /\ ~ scores_as_specified Script.auto_evaluate_solution
         script_carries_test_cases Script.NOT_FOUND
  /\ ~ scores_as_specified Tabular.auto_evaluate_solution
         tabular_carries_test_cases
         (Tabular.ErrorResponse Tabular.NOT_FOUND).
Proof.
  split; [vm_compute; reflexivity|]. split; [reflexivity|]. split.
  - intros (H5 & _ & _).
    specialize (H5 (Script.format_response "e" "s" "x" [sample_case])).
    assert (Hc : script_carries_test_cases
                   (Script.format_response "e" "s" "x" [sample_case])).
    { exists "e", "s", "x", [sample_case]. split; [discriminate | reflexivity]. }
    specialize (H5 Hc). vm_compute in H5. discriminate.
  - intros (_ & _ & H3).
    specialize (H3 (Tabular.error_response (ExternalError "service unavailable"))).
    assert (Hn : ~ tabular_carries_test_cases
                     (Tabular.error_response (ExternalError "service unavailable"))).
    { intros (c & cs & H). discriminate. }
    assert (Hd : Tabular.error_response (ExternalError "service unavailable")
                 <> Tabular.ErrorResponse Tabular.NOT_FOUND).
    { vm_compute. discriminate. }
    specialize (H3 Hn Hd). vm_compute in H3. discriminate.
Qed.

(* ===================================================================== *)
(** * The Test Case Manager below the quota *)
(* ===================================================================== *)

Lemma truthy_iff (s : string) : Str.truthy s = true <-> s <> EmptyString.
Proof. destruct s; simpl; split; congruence. Qed.

(** The loop over the raw blocks keeps the parsed blocks whose scenario is
    not empty, in order. *)
Lemma parsed_cases_filter (module : string) (raw : list string) :
  Script.parsed_cases module raw
  = map (Script.case_of module)
      (filter (fun p => Str.truthy (Parsed.Test_Scenario p))
         (map parse_test_case raw)).
Proof.
  induction raw as [|tc raw IH]; [reflexivity|].
  cbn [Script.parsed_cases map filter].
  destruct (Str.truthy (Parsed.Test_Scenario (parse_test_case tc)));
    cbn [map]; now rewrite IH.
Qed.

Lemma in_table_after_add (df new_cases : list TestCase) (case : TestCase) :
  In case new_cases -> In case (df ++ rows_to_add df new_cases).
Proof.
  intros Hin. apply in_or_app.
  destruct (in_dec TestCase_eq_dec case df) as [Hdf|Hdf]; [now left|].
  right. apply in_rows_to_add. now split.
Qed.

(** The rows the JSON loop selects, when every case has its six keys. *)
Lemma tabular_rows_to_add_rows (df : list TestCase) (items : list jitem)
    (rows : list TestCase) :
  Forall2 (fun item row => Tabular.row_of item = inr row) items rows ->
  Tabular.rows_to_add df items = inr (rows_to_add df rows).
Proof.
  induction 1 as [|item row items rows Hrow _ IH]; simpl; [reflexivity|].
  rewrite Hrow, IH. simpl.
  now destruct (df_empty (filter (duplicate_mask row) df)).
Qed.

Section SaveRuns.
Context {ext : Externals}.

Lemma save_new_test_cases_run (new_cases : list TestCase) (w : world) :
  to_csv (test_cases_df w ++ rows_to_add (test_cases_df w) new_cases) = inr tt ->
  exists w',
    save_new_test_cases new_cases w = (inr tt, w')
    /\ test_cases_df w'
       = (test_cases_df w ++ rows_to_add (test_cases_df w) new_cases)%list
    /\ llm_calls (trace w') = llm_calls (trace w).
Proof.
  intros Hcsv. unfold save_new_test_cases. run.
  destruct w as [df tr]; simpl in *.
  assert (Hdf : (if df_empty df then @nil TestCase else df) = df)
    by now destruct df.
  destruct df as [|r df]; simpl in *.
  - destruct (rows_to_add [] new_cases) as [|c l] eqn:Hr; simpl.
    + eexists; repeat split; reflexivity.
    + rewrite Hcsv. eexists. split; [reflexivity|]. split; [reflexivity|].
      simpl. rewrite llm_calls_app. simpl. apply app_nil_r.
  - destruct (rows_to_add (r :: df) new_cases) as [|c l] eqn:Hr; simpl.
    + eexists; split; [reflexivity|]. split; [|reflexivity].
      simpl. now rewrite app_nil_r.
    + rewrite Hcsv. eexists. split; [reflexivity|]. split; [reflexivity|].
      simpl. rewrite llm_calls_app. simpl. apply app_nil_r.
Qed.

Lemma tabular_save_run (items : list jitem) (rows : list TestCase) (w : world) :
  Forall2 (fun item row => Tabular.row_of item = inr row) items rows ->
  to_csv (test_cases_df w ++ rows_to_add (test_cases_df w) rows) = inr tt ->
  exists w',
    Tabular.save_new_test_cases (JList items) w = (inr tt, w')
    /\ test_cases_df w'
       = (test_cases_df w ++ rows_to_add (test_cases_df w) rows)%list
    /\ llm_calls (trace w') = llm_calls (trace w).
Proof.
  intros Hrows Hcsv. unfold Tabular.save_new_test_cases. run.
  destruct w as [df tr]; simpl in *.
  destruct df as [|r df]; simpl in *.
  - rewrite (tabular_rows_to_add_rows [] items rows Hrows).
    destruct (rows_to_add [] rows) as [|c l] eqn:Hr; simpl.
    + eexists; repeat split; reflexivity.
    + rewrite Hcsv. eexists. split; [reflexivity|]. split; [reflexivity|].
      simpl. rewrite llm_calls_app. simpl. apply app_nil_r.
  - rewrite (tabular_rows_to_add_rows (r :: df) items rows Hrows).
    destruct (rows_to_add (r :: df) rows) as [|c l] eqn:Hr; simpl.
    + eexists; split; [reflexivity|]. split; [|reflexivity].
      simpl. now rewrite app_nil_r.
    + rewrite Hcsv. eexists. split; [reflexivity|]. split; [reflexivity|].
      simpl. rewrite llm_calls_app. simpl. apply app_nil_r.
Qed.

End SaveRuns.

Lemma text_case_row (case : jitem) (row : TestCase) :
  text_case case row -> Tabular.row_of case = inr row.
Proof.
  intros (entries & -> & _ & H1 & H2 & H3 & H4 & H5 & H6).
  unfold Tabular.row_of, Tabular.subscript.
  rewrite H1, H2, H3, H4, H5, H6. simpl. now destruct row.
Qed.

Lemma text_cases_rows (items : list jitem) (rows : list TestCase) :
  Forall2 text_case items rows ->
  Forall2 (fun item row => Tabular.row_of item = inr row) items rows.
Proof.
  induction 1; constructor; [now apply text_case_row | assumption].
Qed.

Lemma llm_calls_csv_writes (df rows : list TestCase) :
  llm_calls (csv_writes df rows) = [].
Proof. now destruct rows. Qed.

Section SaveWrites.
Context {ext : Externals}.

(** A save whose write succeeds: the new rows are appended, and when there
    is one the table is written, once. *)
Lemma save_new_test_cases_writes (new_cases : list TestCase) (w : world) :
  to_csv (test_cases_df w ++ rows_to_add (test_cases_df w) new_cases) = inr tt ->
  exists w',
    save_new_test_cases new_cases w = (inr tt, w')
    /\ test_cases_df w'
       = (test_cases_df w ++ rows_to_add (test_cases_df w) new_cases)%list
    /\ trace w'
       = (trace w
          ++ csv_writes (test_cases_df w)
               (rows_to_add (test_cases_df w) new_cases))%list.
Proof.
  intros Hcsv. unfold save_new_test_cases. run.
  destruct w as [df tr]; simpl in *.
  destruct df as [|r df]; simpl in *.
  - destruct (rows_to_add [] new_cases) as [|c l] eqn:Hr; simpl.
    + eexists. split; [reflexivity|]. split; [reflexivity|].
      simpl. now rewrite app_nil_r.
    + rewrite Hcsv. eexists. repeat split; reflexivity.
  - destruct (rows_to_add (r :: df) new_cases) as [|c l] eqn:Hr; simpl.
    + eexists. split; [reflexivity|]. split; simpl; now rewrite app_nil_r.
    + rewrite Hcsv. eexists. repeat split; reflexivity.
Qed.

Lemma tabular_save_writes (items : list jitem) (rows : list TestCase) (w : world) :
  Forall2 (fun item row => Tabular.row_of item = inr row) items rows ->
  to_csv (test_cases_df w ++ rows_to_add (test_cases_df w) rows) = inr tt ->
  exists w',
    Tabular.save_new_test_cases (JList items) w = (inr tt, w')
    /\ test_cases_df w'
       = (test_cases_df w ++ rows_to_add (test_cases_df w) rows)%list
    /\ trace w'
       = (trace w
          ++ csv_writes (test_cases_df w)
               (rows_to_add (test_cases_df w) rows))%list.
Proof.
  intros Hrows Hcsv. unfold Tabular.save_new_test_cases. run.
  destruct w as [df tr]; simpl in *.
  destruct df as [|r df]; simpl in *.
  - rewrite (tabular_rows_to_add_rows [] items rows Hrows).
    destruct (rows_to_add [] rows) as [|c l] eqn:Hr; simpl.
    + eexists. split; [reflexivity|]. split; [reflexivity|].
      simpl. now rewrite app_nil_r.
    + rewrite Hcsv. eexists. repeat split; reflexivity.
  - rewrite (tabular_rows_to_add_rows (r :: df) items rows Hrows).
    destruct (rows_to_add (r :: df) rows) as [|c l] eqn:Hr; simpl.
    + eexists. split; [reflexivity|]. split; simpl; now rewrite app_nil_r.
    + rewrite Hcsv. eexists. repeat split; reflexivity.
Qed.

End SaveWrites.

Section BelowQuota.
Context {ext : Externals}.

(** C5, as the code has it.  With [n] valid stored cases, [0 < n < 4], the
    manager asks the generator for exactly [4 - n] cases.  When that call
    answers and the write succeeds: in the text scripts it parses the
    blocks of the reply, keeps those whose scenario is not empty, saves
    them, and returns the stored set followed by them, [n] plus the number
    of kept blocks.  In the JSON script it takes the parsed array as it is,
    discarding nothing: when every case is a dictionary of the six keys,
    each with a text, it saves their rows and returns the stored set
    followed by the whole array.  To save is to append to the table the
    cases that are not in it and, when there is one, to write the table
    with them to the CSV file, once: the calls of the manager are the
    request and that write. *)
Theorem selected_cases_below_quota
    (module error_message solution explanation : string)
    (w : world) (csv : list TestCase) :
  fst (get_csv_test_cases module w) = inr csv ->
  (0 < List.length csv < 4)%nat ->
  (forall reply,
     let request :=
       additional_prompt (4 - Z.of_nat (List.length csv)) error_message
         solution explanation
         (ExistingText (Str.join Str.LF (map Script.format_tc csv))) in
     let parsed := map parse_test_case (Script.cases_raw (Str.strip reply)) in
     let kept := filter (fun p => Str.truthy (Parsed.Test_Scenario p)) parsed in
     let new_cases := map (Script.case_of module) kept in
     llm_invoke request = inr reply ->
     to_csv (test_cases_df w ++ rows_to_add (test_cases_df w) new_cases)
     = inr tt ->
     exists w',
       Script.selected_cases module error_message solution explanation w
       = (inr (csv ++ new_cases)%list, w')
       /\ llm_calls (trace w') = (llm_calls (trace w) ++ [EvLlm request])%list
       /\ (forall p, In p kept
                     <-> In p parsed /\ Parsed.Test_Scenario p <> EmptyString)
       /\ List.length (csv ++ new_cases)
          = (List.length csv + List.length kept)%nat
       /\ test_cases_df w'
          = (test_cases_df w ++ rows_to_add (test_cases_df w) new_cases)%list
       /\ (forall case, In case new_cases -> In case (test_cases_df w'))
       /\ trace w'
          = (trace w
             ++ EvLlm request
                :: csv_writes (test_cases_df w)
                     (rows_to_add (test_cases_df w) new_cases))%list)
  /\ (forall reply items rows,
        let request :=
          additional_prompt (4 - Z.of_nat (List.length csv)) error_message
            solution explanation (ExistingJson csv) in
        llm_invoke request = inr reply ->
        json_loads (Str.strip reply) = inr (JList items) ->
        Forall2 text_case items rows ->
        to_csv (test_cases_df w ++ rows_to_add (test_cases_df w) rows)
        = inr tt ->
        exists w',
          Tabular.selected_cases module error_message solution explanation w
          = (inr (JList (map Tabular.dict_of_case csv ++ items)%list), w')
          /\ llm_calls (trace w') = (llm_calls (trace w) ++ [EvLlm request])%list
          /\ test_cases_df w'
             = (test_cases_df w ++ rows_to_add (test_cases_df w) rows)%list
          /\ (forall row, In row rows -> In row (test_cases_df w'))
          /\ trace w'
             = (trace w
                ++ EvLlm request
                   :: csv_writes (test_cases_df w)
                        (rows_to_add (test_cases_df w) rows))%list).
Proof.
  intros Hcsv [Hpos Hlt]. apply get_csv_test_cases_fst in Hcsv.
  assert (Hq1 : negb (df_empty csv)
                && (Script.REQUIRED_TEST_CASE_COUNT <=? List.length csv)%nat
                = false).
  { apply andb_false_iff. right. apply Nat.leb_gt. exact Hlt. }
  assert (Hq2 : negb (df_empty csv)
                && (List.length csv <? Script.REQUIRED_TEST_CASE_COUNT)%nat
                = true).
  { apply andb_true_iff. split; [now destruct csv|]. apply Nat.ltb_lt. exact Hlt. }
  assert (Hcalls_of : forall (request : prompt) (w'' : world) rows,
            trace w''
            = (trace (log (EvLlm request) w)
               ++ csv_writes (test_cases_df w) rows)%list ->
            llm_calls (trace w'')
            = (llm_calls (trace w) ++ [EvLlm request])%list
            /\ trace w''
               = (trace w
                  ++ EvLlm request :: csv_writes (test_cases_df w) rows)%list).
  { intros request w'' rows Ht. rewrite Ht. split.
    - rewrite llm_calls_app, llm_calls_csv_writes, app_nil_r.
      now rewrite llm_calls_log.
    - unfold log. simpl. now rewrite <- app_assoc. }
  split.
  - intros reply request parsed kept new_cases Hllm Hwrite.
    unfold Script.selected_cases.
    rewrite (bind_inr _ _ _ _ _ (get_csv_test_cases_reads module w)).
    rewrite <- Hcsv, Hq1, Hq2.
    change (Z.of_nat Script.REQUIRED_TEST_CASE_COUNT) with 4%Z.
    fold request.
    rewrite (bind_inr _ _ _ _ _ (llm_content_answers _ _ _ Hllm)).
    rewrite parsed_cases_filter. fold parsed. fold kept. fold new_cases.
    destruct (save_new_test_cases_writes new_cases (log (EvLlm request) w)
                Hwrite) as (w' & Hsave & Hdf & Htrace).
    assert (Hstep :
      exists w'',
        (if negb (df_empty new_cases)
         then save_new_test_cases new_cases else ret tt)
          (log (EvLlm request) w) = (inr tt, w'')
        /\ test_cases_df w''
           = (test_cases_df w ++ rows_to_add (test_cases_df w) new_cases)%list
        /\ trace w''
           = (trace (log (EvLlm request) w)
              ++ csv_writes (test_cases_df w)
                   (rows_to_add (test_cases_df w) new_cases))%list).
    { destruct new_cases as [|c l].
      - exists (log (EvLlm request) w). simpl. now rewrite !app_nil_r.
      - now exists w'. }
    destruct Hstep as (w'' & Hrun & Hdf'' & Htrace'').
    destruct (Hcalls_of request w'' _ Htrace'') as [Hcalls Hevents].
    rewrite (bind_inr _ _ _ _ _ Hrun). exists w''.
    split; [reflexivity|]. split; [exact Hcalls|].
    split.
    { intros p. unfold kept. rewrite filter_In, truthy_iff. reflexivity. }
    split.
    { unfold new_cases. now rewrite length_app, length_map. }
    split; [exact Hdf''|].
    split; [|exact Hevents].
    intros case Hin. rewrite Hdf''. now apply in_table_after_add.
  - intros reply items rows request Hllm Hloads Htext Hwrite.
    pose proof (text_cases_rows items rows Htext) as Hrows.
    unfold Tabular.selected_cases.
    rewrite (bind_inr _ _ _ _ _ (get_csv_test_cases_reads module w)).
    rewrite <- Hcsv.
    change Tabular.REQUIRED_TEST_CASE_COUNT with Script.REQUIRED_TEST_CASE_COUNT.
    rewrite Hq1, Hq2.
    change (Z.of_nat Script.REQUIRED_TEST_CASE_COUNT) with 4%Z.
    fold request.
    rewrite (bind_inr _ _ _ _ _ (llm_content_answers _ _ _ Hllm)).
    rewrite (bind_inr _ _ _ _ _ (loads_or_empty_run _ _)).
    unfold loaded. rewrite Hloads.
    unfold Tabular.concatenate. unfold bind at 1. unfold ret at 1.
    destruct (tabular_save_writes items rows (log (EvLlm request) w) Hrows
                Hwrite) as (w' & Hsave & Hdf & Htrace).
    assert (Hstep :
      exists w'',
        (if Tabular.truth_value (JList items)
         then Tabular.save_new_test_cases (JList items) else ret tt)
          (log (EvLlm request) w) = (inr tt, w'')
        /\ test_cases_df w''
           = (test_cases_df w ++ rows_to_add (test_cases_df w) rows)%list
        /\ trace w''
           = (trace (log (EvLlm request) w)
              ++ csv_writes (test_cases_df w)
                   (rows_to_add (test_cases_df w) rows))%list).
    { destruct Hrows as [|item row items rows Hrow Hrest].
      - exists (log (EvLlm request) w). simpl. now rewrite !app_nil_r.
      - now exists w'. }
    destruct Hstep as (w'' & Hrun & Hdf'' & Htrace'').
    destruct (Hcalls_of request w'' _ Htrace'') as [Hcalls Hevents].
    rewrite (bind_inr _ _ _ _ _ Hrun). exists w''.
    split; [reflexivity|]. split; [exact Hcalls|].
    split; [exact Hdf''|].
    split; [|exact Hevents].
    intros row Hin. rewrite Hdf''. now apply in_table_after_add.
Qed.

End BelowQuota.

(** The managers on one stored case.  Text: a reply of two blocks, one of
    them without a scenario; three cases are requested, one is kept, and
    the table of two rows is written.  JSON: an array of one case with an
    empty scenario; it is kept and written. *)
Lemma selected_cases_below_quota_witness :
  (exists w',
     Script.selected_cases
       (ext := text_generator two_block_reply)
       "Storage" "e" "s" "x" (world_of [sample_case])
     = (inr [sample_case; cold_boot_case], w')
     /\ llm_calls (trace w')
        = [EvLlm (additional_prompt 3 "e" "s" "x"
                    (ExistingText (Script.format_tc sample_case)))]
     /\ test_cases_df w' = [sample_case; cold_boot_case]
     /\ trace w'
        = [EvLlm (additional_prompt 3 "e" "s" "x"
                    (ExistingText (Script.format_tc sample_case)));
           EvToCsv [sample_case; cold_boot_case]])
  /\ (exists w',
        Tabular.selected_cases
          (ext := json_generator [blank_scenario_case])
          "Storage" "e" "s" "x" (world_of [sample_case])
        = (inr (JList [Tabular.dict_of_case sample_case; blank_scenario_case]),
           w')
        /\ llm_calls (trace w')
           = [EvLlm (additional_prompt 3 "e" "s" "x"
                       (ExistingJson [sample_case]))]
        /\ test_cases_df w' = [sample_case; blank_scenario_row]
        /\ trace w'
           = [EvLlm (additional_prompt 3 "e" "s" "x"
                       (ExistingJson [sample_case]));
              EvToCsv [sample_case; blank_scenario_row]]).
Proof.
  split.
  - destruct (@selected_cases_below_quota (text_generator two_block_reply)
                "Storage" "e" "s" "x" (world_of [sample_case]) [sample_case]
                eq_refl (conj (le_n 1) (le_S _ _ (le_S _ _ (le_n 2)))))
      as [Htext _].
    destruct (Htext two_block_reply eq_refl eq_refl)
      as (w' & Hrun & Hcalls & _ & _ & Hdf & _ & Htrace).
    exists w'. split; [exact Hrun|]. split; [exact Hcalls|].
    split; [exact Hdf | exact Htrace].
  - destruct (@selected_cases_below_quota (json_generator [blank_scenario_case])
                "Storage" "e" "s" "x" (world_of [sample_case]) [sample_case]
                eq_refl (conj (le_n 1) (le_S _ _ (le_S _ _ (le_n 2)))))
      as [_ Hjson].
    assert (Hrows : Forall2 text_case
                      [blank_scenario_case] [blank_scenario_row]).
    { repeat constructor. eexists. split; [reflexivity|].
      repeat split; reflexivity. }
    destruct (Hjson (json_array [blank_scenario_case]) [blank_scenario_case]
                [blank_scenario_row] eq_refl eq_refl Hrows eq_refl)
      as (w' & Hrun & Hcalls & Hdf & _ & Htrace).
    exists w'. split; [exact Hrun|]. split; [exact Hcalls|].
    split; [exact Hdf | exact Htrace].
Defined.

(** C5 as stated fails in the JSON script.  With one stored case and a
    generated array holding one case whose scenario is empty, the manager
    returns both and stores both: the case is not discarded, and the
    returned set has two cases where none of the parsed cases has a
    non-empty scenario. *)
Lemma tabular_manager_keeps_blank_scenario :
  fst (get_csv_test_cases "Storage" (world_of [sample_case]))
  = inr [sample_case]
  /\ fst (Tabular.selected_cases
            (ext := json_generator [blank_scenario_case])
            "Storage" "e" "s" "x" (world_of [sample_case]))
     = inr (JList [Tabular.dict_of_case sample_case; blank_scenario_case])
  /\ Tabular.subscript blank_scenario_case "Test_Scenario" = inr EmptyString
  /\ table_after
       (Tabular.selected_cases
          (ext := json_generator [blank_scenario_case])
          "Storage" "e" "s" "x") (world_of [sample_case])
     = [sample_case; blank_scenario_row].
Proof. repeat split; vm_compute; reflexivity. Qed.

(* ===================================================================== *)
(** * Generated JSON cases and the key [Module] *)
(* ===================================================================== *)

Lemma row_of_lacks_module (case : jitem) :
  lacks_module case -> Tabular.row_of case = inl (KeyError "Module").
Proof.
  intros (entries & -> & Hnone). unfold Tabular.row_of, Tabular.subscript.
  now rewrite Hnone.
Qed.

Section MissingModule.
Context {ext : Externals}.

(** Saving an array whose first case has no [Module] key raises the
    [KeyError] before anything is stored or written. *)
Lemma tabular_save_key_error (case : jitem) (cases : list jitem) (w : world) :
  lacks_module case ->
  exists w',
    Tabular.save_new_test_cases (JList (case :: cases)) w
    = (inl (KeyError "Module"), w')
    /\ test_cases_df w' = test_cases_df w
    /\ trace w' = trace w.
Proof.
  intros Hlacks. unfold Tabular.save_new_test_cases.
  unfold bind, get_df, set_df, ret, lift. cbn [Tabular.rows_to_add].
  rewrite (row_of_lacks_module case Hlacks). cbn [and_then].
  destruct w as [df tr]; cbn [test_cases_df trace].
  destruct df; cbn; eexists; repeat split; reflexivity.
Qed.

(** The manager below the quota, on a generated array whose cases have no
    [Module] key. *)
Lemma tabular_selected_cases_key_error
    (module error_message solution explanation reply : string)
    (w : world) (csv : list TestCase) (items : list jitem) :
  fst (get_csv_test_cases module w) = inr csv ->
  (List.length csv < 4)%nat ->
  llm_invoke (tabular_request csv error_message solution explanation)
  = inr reply ->
  json_loads (Str.strip reply) = inr (JList items) ->
  items <> [] ->
  Forall lacks_module items ->
  exists w',
    Tabular.selected_cases module error_message solution explanation w
    = (inl (KeyError "Module"), w')
    /\ test_cases_df w' = test_cases_df w
    /\ trace w'
       = (trace w
          ++ [EvLlm (tabular_request csv error_message solution explanation)])%list.
Proof.
  intros Hcsv Hlt Hllm Hloads Hne Hall.
  apply get_csv_test_cases_fst in Hcsv.
  destruct items as [|item items]; [congruence|].
  inversion Hall as [|? ? Hitem _]; subst x l.
  unfold Tabular.selected_cases.
  rewrite (bind_inr _ _ _ _ _ (get_csv_test_cases_reads module w)).
  rewrite <- Hcsv.
  assert (Hq1 : negb (df_empty csv)
                && (Tabular.REQUIRED_TEST_CASE_COUNT <=? List.length csv)%nat
                = false).
  { apply andb_false_iff. right. apply Nat.leb_gt. exact Hlt. }
  rewrite Hq1.
  assert (Hq2 : (List.length csv <? Tabular.REQUIRED_TEST_CASE_COUNT)%nat = true)
    by (apply Nat.ltb_lt; exact Hlt).
  rewrite Hq2, andb_true_r.
  set (request := tabular_request csv error_message solution explanation) in *.
  destruct (tabular_save_key_error item items (log (EvLlm request) w) Hitem)
    as (w' & Hsave & Hdf & Htr).
  destruct csv as [|c csv]; cbn [df_empty negb].
  - change (full_prompt true error_message solution explanation) with request.
    rewrite (bind_inr _ _ _ _ _ (llm_content_answers _ _ _ Hllm)).
    rewrite (bind_inr _ _ _ _ _ (loads_or_empty_run _ _)).
    unfold loaded. rewrite Hloads. cbn [Tabular.truth_value].
    rewrite (bind_inl _ _ _ _ _ Hsave). exists w'.
    split; [reflexivity|]. split; [exact Hdf|]. rewrite Htr. reflexivity.
  - change (additional_prompt _ error_message solution explanation
              (ExistingJson (c :: csv))) with request.
    rewrite (bind_inr _ _ _ _ _ (llm_content_answers _ _ _ Hllm)).
    rewrite (bind_inr _ _ _ _ _ (loads_or_empty_run _ _)).
    unfold loaded. rewrite Hloads. cbn [Tabular.truth_value].
    unfold Tabular.concatenate. unfold bind at 1. unfold ret at 1.
    rewrite (bind_inl _ _ _ _ _ Hsave). exists w'.
    split; [reflexivity|]. split; [exact Hdf|]. rewrite Htr. reflexivity.
Qed.

(** C10, with its premise made explicit.  In the JSON script, when the
    matched module has fewer than four valid stored cases and the reply
    parses to a non-empty array of dictionaries none of which has the key
    [Module], [save_new_test_cases] raises [KeyError('Module')], the node
    answers [Error processing request: 'Module'], the table is left as it
    was and nothing is written. *)
Theorem generated_cases_without_module_fail
    (state : Tabular.AgentState) (w : world)
    (d : Document) (rest : list Document) (sim : float)
    (explanation reply : string) (csv : list TestCase) (items : list jitem) :
  Tabular.context state = d :: rest ->
  similarity cosine_similarity (Tabular.input state) d = inr sim ->
  (threshold_call_site <=? sim)%float = true ->
  llm_invoke (explanation_prompt (Tabular.input state) (solution d))
  = inr explanation ->
  fst (get_csv_test_cases (module d) w) = inr csv ->
  (List.length csv < 4)%nat ->
  llm_invoke (tabular_request csv (Tabular.input state) (solution d)
                (Str.strip explanation)) = inr reply ->
  json_loads (Str.strip reply) = inr (JList items) ->
  items <> [] ->
  Forall lacks_module items ->
  exists w',
    Tabular.validate_or_generate_test_cases state w
    = (inr (Tabular.ErrorResponse "Error processing request: 'Module'"), w')
    /\ test_cases_df w' = test_cases_df w
    /\ count is_to_csv (trace w') = count is_to_csv (trace w).
Proof.
  intros Hc Hsim Hth Hexp Hcsv Hlt Hllm Hloads Hne Hall.
  rewrite tabular_node_run. unfold Tabular.try_block. rewrite Hc.
  rewrite (bind_inr _ _ _ _ _ (is_similar_value _ _ _ _ _ _ Hsim)), Hth.
  cbn [negb].
  rewrite (bind_inr _ _ _ _ _ (llm_content_answers _ _ _ Hexp)).
  set (w1 := log (EvLlm (explanation_prompt (Tabular.input state) (solution d)))
               (log (EvEmbed (page_content d))
                  (log (EvEmbed (Tabular.input state)) w))).
  assert (Hcsv1 : fst (get_csv_test_cases (module d) w1) = inr csv).
  { rewrite get_csv_test_cases_reads in *. exact Hcsv. }
  destruct (tabular_selected_cases_key_error (module d) (Tabular.input state)
              (solution d) (Str.strip explanation) reply w1 csv items
              Hcsv1 Hlt Hllm Hloads Hne Hall) as (w' & Hrun & Hdf & Htr).
  rewrite (bind_inl _ _ _ _ _ Hrun). exists w'.
  split; [reflexivity|]. split; [exact Hdf|].
  rewrite Htr. unfold w1, log; simpl. rewrite !count_app. unfold count; simpl.
  destruct (tabular_request csv _ _ _); simpl; lia.
Qed.

End MissingModule.

(** The node on the sample defect, an empty table and a generated case
    with the five keys of the prompt. *)
Lemma generated_cases_without_module_fail_witness :
  exists w',
    Tabular.validate_or_generate_test_cases
      (ext := json_generator [five_key_case])
      (tabular_state "Disk read error on boot" [sample_doc]) empty_world
    = (inr (Tabular.ErrorResponse "Error processing request: 'Module'"), w')
    /\ test_cases_df w' = []
    /\ count is_to_csv (trace w') = 0%nat.
Proof.
  apply (@generated_cases_without_module_fail
           (json_generator [five_key_case])
           (tabular_state "Disk read error on boot" [sample_doc]) empty_world
           sample_doc [] 1%float "The cable was faulty."
           (json_array [five_key_case]) [] [five_key_case]).
  - reflexivity.
  - vm_compute. reflexivity.
  - vm_compute. reflexivity.
  - reflexivity.
  - reflexivity.
  - simpl. lia.
  - reflexivity.
  - reflexivity.
  - discriminate.
  - repeat constructor. eexists. split; reflexivity.
Defined.

(** C10 as stated fails.  Nothing keeps the generator from writing the key
    [Module], which the stored cases shown to it carry: a generated case
    with the six keys is stored and returned, and no error is raised. *)
Lemma generated_case_with_module_is_saved :
  Tabular.subscript (Tabular.dict_of_case cold_boot_case) "Module"
  = inr "Storage"
  /\ fst (Tabular.validate_or_generate_test_cases
            (ext := json_generator [Tabular.dict_of_case cold_boot_case])
            (tabular_state "Disk read error on boot" [sample_doc])
            (world_of [sample_case]))
     = inr (Tabular.Result "Disk read error on boot" "Replace SATA cable"
              "The cable was faulty."
              (JList [Tabular.dict_of_case sample_case;
                      Tabular.dict_of_case cold_boot_case]))
  /\ table_after
       (Tabular.validate_or_generate_test_cases
          (ext := json_generator [Tabular.dict_of_case cold_boot_case])
          (tabular_state "Disk read error on boot" [sample_doc]))
       (world_of [sample_case])
     = [sample_case; cold_boot_case].
Proof. repeat split; vm_compute; reflexivity. Qed.

(* ===================================================================== *)
(** * More facts about text *)
(* ===================================================================== *)

Lemma rstrip_cons (c : ascii) (s : string) :
  Str.rstrip (String c s)
  = match Str.rstrip s with
    | EmptyString => if Str.is_space c then EmptyString else String c EmptyString
    | r => String c r
    end.
Proof. reflexivity. Qed.

Lemma rstrip_idempotent (s : string) : Str.rstrip (Str.rstrip s) = Str.rstrip s.
Proof.
  induction s as [|c s IH]; [reflexivity|].
  rewrite rstrip_cons. destruct (Str.rstrip s) as [|d r] eqn:Hr.
  - destruct (Str.is_space c) eqn:Hc; [reflexivity|].
    rewrite rstrip_cons. simpl. now rewrite Hc.
  - rewrite rstrip_cons, IH. reflexivity.
Qed.

(** What [rstrip] leaves starts as the text started. *)
Lemma rstrip_head (c : ascii) (s : string) :
  Str.is_space c = false ->
  exists r, Str.rstrip (String c s) = String c r.
Proof.
  intros Hc. rewrite rstrip_cons. destruct (Str.rstrip s) as [|d r].
  - rewrite Hc. now exists EmptyString.
  - now exists (String d r).
Qed.

Lemma strip_idempotent (s : string) : Str.strip (Str.strip s) = Str.strip s.
Proof.
  unfold Str.strip.
  destruct (lstrip_head s) as [->|(c & s' & -> & Hc)]; [reflexivity|].
  destruct (rstrip_head c s' Hc) as [r Hr]. rewrite Hr.
  rewrite (lstrip_fixed c r Hc), <- Hr. apply rstrip_idempotent.
Qed.

Lemma lstrip_suffix (s : string) : exists pre, s = pre ++ Str.lstrip s.
Proof.
  induction s as [|c s [pre IH]]; [now exists EmptyString|].
  simpl. destruct (Str.is_space c).
  - exists (String c pre). simpl. now rewrite <- IH.
  - now exists EmptyString.
Qed.

Lemma rstrip_prefix (s : string) : exists post, s = Str.rstrip s ++ post.
Proof.
  induction s as [|c s [post IH]]; [now exists EmptyString|].
  rewrite rstrip_cons. destruct (Str.rstrip s) as [|d r].
  - destruct (Str.is_space c).
    + now exists (String c s).
    + exists post. simpl in *. now rewrite <- IH.
  - exists post. simpl in *. now rewrite <- IH.
Qed.

Lemma string_length_app (s t : string) :
  String.length (s ++ t) = (String.length s + String.length t)%nat.
Proof. induction s as [|c s IH]; simpl; [reflexivity | now rewrite IH]. Qed.

Lemma string_app_nil_r (s : string) : s ++ EmptyString = s.
Proof. induction s as [|c s IH]; simpl; [reflexivity | now rewrite IH]. Qed.

Lemma string_app_assoc (s t u : string) : (s ++ t) ++ u = s ++ t ++ u.
Proof. induction s as [|c s IH]; simpl; [reflexivity | now rewrite IH]. Qed.

Lemma string_length_zero (s : string) : String.length s = 0%nat -> s = EmptyString.
Proof. now destruct s. Qed.

(** A text that [strip] leaves alone is left alone by both halves. *)
Lemma strip_fixed_halves (s : string) :
  Str.strip s = s -> Str.lstrip s = s /\ Str.rstrip s = s.
Proof.
  unfold Str.strip. intros H.
  destruct (lstrip_suffix s) as [pre Hpre].
  destruct (rstrip_prefix (Str.lstrip s)) as [post Hpost].
  rewrite H in Hpost.
  assert (Hlen : String.length s
                 = (String.length pre + (String.length s + String.length post))%nat).
  { rewrite Hpre at 1. rewrite string_length_app, Hpost at 1.
    now rewrite string_length_app. }
  assert (pre = EmptyString) by (apply string_length_zero; lia).
  subst pre. simpl in Hpre. rewrite <- Hpre in *. now split.
Qed.

(** [has_text] is what [strip] tests. *)
Lemma lstrip_has_text (pre post : string) (c : ascii) :
  Str.is_space c = false -> Str.lstrip (pre ++ String c post) <> EmptyString.
Proof.
  intros Hc. induction pre as [|d pre IH]; simpl.
  - now rewrite Hc.
  - destruct (Str.is_space d); [exact IH | discriminate].
Qed.

Lemma strip_truthy_iff (s : string) :
  Str.truthy (Str.strip s) = true <-> has_text s.
Proof.
  rewrite truthy_iff. unfold Str.strip, has_text. split.
  - intros H. destruct (lstrip_head s) as [E|(c & s' & E & Hc)].
    + rewrite E in H. now contradiction H.
    + destruct (lstrip_suffix s) as [pre Hpre]. rewrite E in Hpre.
      now exists pre, c, s'.
  - intros (pre & c & post & -> & Hc).
    pose proof (lstrip_has_text pre post c Hc) as Hne.
    destruct (lstrip_head (pre ++ String c post)) as [E|(d & s' & E & Hd)];
      [contradiction|].
    rewrite E. destruct (rstrip_head d s' Hd) as [r ->]. discriminate.
Qed.

(* ===================================================================== *)
(** * Reading and writing the table *)
(* ===================================================================== *)

Lemma proper_iff (row : TestCase) :
  proper row = true
  <-> has_text (Test_Scenario row) /\ has_text (Test_Steps row)
      /\ has_text (Pre_Requisite row) /\ has_text (Pass_Fail_Criteria row)
      /\ has_text (Expected_Result row).
Proof.
  unfold proper. rewrite !andb_true_iff, !strip_truthy_iff. tauto.
Qed.

Lemma get_csv_test_cases_valid_rows (module : string) (w : world) :
  exists cases,
    get_csv_test_cases module w = (inr cases, w)
    /\ forall case,
         In case cases
         <-> In case (test_cases_df w) /\ Module_ case = module
             /\ has_text (Test_Scenario case) /\ has_text (Test_Steps case)
             /\ has_text (Pre_Requisite case)
             /\ has_text (Pass_Fail_Criteria case)
             /\ has_text (Expected_Result case).
Proof.
  exists (csv_test_cases_of module w). split; [apply get_csv_test_cases_reads|].
  intros case. unfold csv_test_cases_of.
  rewrite !filter_In, String.eqb_eq, proper_iff. tauto.
Qed.

Lemma rows_to_add_nil (df new_cases : list TestCase) :
  (forall case, In case new_cases -> In case df) ->
  rows_to_add df new_cases = [].
Proof.
  intros H. destruct (rows_to_add df new_cases) as [|c l] eqn:E; [reflexivity|].
  assert (Hin : In c (rows_to_add df new_cases)) by (rewrite E; now left).
  apply in_rows_to_add in Hin as [Hnew Hdf]. elim Hdf. now apply H.
Qed.

Section TableMore.
Context {ext : Externals}.

Lemma after_saves_rows (batches : list (list TestCase)) (w : world)
    (row : TestCase) :
  In row (test_cases_df (after_saves batches w))
  <-> In row (test_cases_df w)
      \/ exists batch, In batch batches /\ In row batch.
Proof.
  revert w. induction batches as [|batch batches IH]; intros w.
  - simpl. split; [now left | intros [H|(b & [] & _)]; exact H].
  - change (after_saves (batch :: batches) w)
      with (after_saves batches (snd (save_new_test_cases batch w))).
    rewrite (IH (snd (save_new_test_cases batch w))).
    fold (table_after (save_new_test_cases batch) w).
    rewrite save_new_test_cases_table, in_app_iff, in_rows_to_add.
    split.
    + intros [[H|[H _]]|(b & Hb & H)].
      * now left.
      * right. exists batch. split; [now left | exact H].
      * right. exists b. split; [now right | exact H].
    + intros [H|(b & [<-|Hb] & H)].
      * left. now left.
      * left. destruct (in_dec TestCase_eq_dec row (test_cases_df w));
          [now left | now right].
      * right. now exists b.
Qed.

(** X1.  In a session of the text scripts that began with an empty table,
    every row is a case some [save_new_test_cases] was given, a dictionary
    of texts.  On such a table [get_csv_test_cases] returns exactly the rows
    that belong to the module and have text in each of the five required
    fields (a field of white space only does not count), and leaves the
    world as it found it. *)
Theorem get_csv_test_cases_returns_valid_rows
    (batches : list (list TestCase)) (module : string) (w0 : world) :
  test_cases_df w0 = [] ->
  let w := after_saves batches w0 in
  (forall row,
     In row (test_cases_df w) <-> exists batch, In batch batches /\ In row batch)
  /\ exists cases,
       get_csv_test_cases module w = (inr cases, w)
       /\ forall case,
            In case cases
            <-> In case (test_cases_df w) /\ Module_ case = module
                /\ has_text (Test_Scenario case) /\ has_text (Test_Steps case)
                /\ has_text (Pre_Requisite case)
                /\ has_text (Pass_Fail_Criteria case)
                /\ has_text (Expected_Result case).
Proof.
  intros Hempty w. split.
  - intros row. unfold w. rewrite after_saves_rows, Hempty. simpl.
    split; [intros [[]|H]; exact H | now right].
  - apply get_csv_test_cases_valid_rows.
Qed.

(** X2.  After [save_new_test_cases], whatever the CSV writer did, the valid
    cases [get_csv_test_cases] finds for a module are those it found
    before, and the cases of the batch that belong to the module and are
    proper. *)
Theorem saved_cases_are_read_back
    (new_cases : list TestCase) (module : string) (w : world) :
  exists before after,
    fst (get_csv_test_cases module w) = inr before
    /\ fst (get_csv_test_cases module (snd (save_new_test_cases new_cases w)))
       = inr after
    /\ forall case,
         In case after
         <-> In case before
             \/ (In case new_cases /\ Module_ case = module
                 /\ proper case = true).
Proof.
  exists (csv_test_cases_of module w),
         (csv_test_cases_of module (snd (save_new_test_cases new_cases w))).
  rewrite !get_csv_test_cases_reads. split; [reflexivity|]. split; [reflexivity|].
  intros case. unfold csv_test_cases_of.
  fold (table_after (save_new_test_cases new_cases) w).
  rewrite save_new_test_cases_table, !filter_In, in_app_iff, in_rows_to_add,
    String.eqb_eq.
  destruct (in_dec TestCase_eq_dec case (test_cases_df w)); tauto.
Qed.

(** X3.  Saving a batch a second time stores nothing and writes nothing,
    whatever the batch and whatever the writer did the first time. *)
Theorem save_new_test_cases_again_is_silent
    (new_cases : list TestCase) (w : world) :
  let w1 := snd (save_new_test_cases new_cases w) in
  exists w2,
    save_new_test_cases new_cases w1 = (inr tt, w2)
    /\ test_cases_df w2 = test_cases_df w1
    /\ trace w2 = trace w1.
Proof.
  intros w1.
  assert (Hall : forall case, In case new_cases -> In case (test_cases_df w1)).
  { intros case Hin. unfold w1.
    fold (table_after (save_new_test_cases new_cases) w).
    rewrite save_new_test_cases_table. now apply in_table_after_add. }
  pose proof (rows_to_add_nil (test_cases_df w1) new_cases Hall) as Hnil.
  unfold save_new_test_cases at 1. run.
  destruct w1 as [df tr]; simpl in *.
  destruct df as [|r df]; simpl in *; rewrite Hnil; eexists; repeat split.
Qed.

(** X4.  The invariant of the table: when no two rows agree on the six fields
    and the batch does not repeat a case, no two rows agree after the
    save. *)
Theorem save_new_test_cases_keeps_table_distinct
    (new_cases : list TestCase) (w : world) :
  no_two_rows_agree (test_cases_df w) ->
  NoDup new_cases ->
  no_two_rows_agree (test_cases_df (snd (save_new_test_cases new_cases w))).
Proof.
  unfold no_two_rows_agree. intros Hdf Hnew.
  fold (table_after (save_new_test_cases new_cases) w).
  rewrite save_new_test_cases_table. apply NoDup_app.
  - assumption.
  - now apply rows_to_add_NoDup.
  - intros x Hin Hadd. apply in_rows_to_add in Hadd. tauto.
Qed.

(** X5.  The table only grows: the rows it had stay where they were, and every
    row added is a case of the batch that was not in the table. *)
Theorem save_new_test_cases_appends
    (new_cases : list TestCase) (w : world) :
  exists added,
    test_cases_df (snd (save_new_test_cases new_cases w))
    = (test_cases_df w ++ added)%list
    /\ (forall case, In case added
                     <-> In case new_cases /\ ~ In case (test_cases_df w))
    /\ (forall case, In case new_cases ->
                     In case (test_cases_df (snd (save_new_test_cases new_cases w)))).
Proof.
  exists (rows_to_add (test_cases_df w) new_cases).
  fold (table_after (save_new_test_cases new_cases) w).
  rewrite save_new_test_cases_table. split; [reflexivity|]. split.
  - intros case. apply in_rows_to_add.
  - intros case Hin. now apply in_table_after_add.
Qed.

(** X6.  On cases that are dictionaries of the six keys, each with a
    text, the JSON script's [save_new_test_cases] is the text scripts' one
    on the rows of those texts: same result, same table, same write. *)
Theorem tabular_save_is_script_save
    (items : list jitem) (rows : list TestCase) (w : world) :
  Forall2 text_case items rows ->
  Tabular.save_new_test_cases (JList items) w = save_new_test_cases rows w.
Proof.
  intros Htext. pose proof (text_cases_rows items rows Htext) as Hrows.
  unfold Tabular.save_new_test_cases, save_new_test_cases.
  unfold bind, get_df, set_df, ret, lift, call.
  destruct w as [df tr]; cbn [test_cases_df trace fst snd].
  destruct df as [|r df]; cbn [df_empty test_cases_df trace];
    rewrite (tabular_rows_to_add_rows _ items rows Hrows); reflexivity.
Qed.

Lemma tabular_rows_to_add_raises (df : list TestCase) (items : list jitem) :
  Exists (fun item => exists e, Tabular.row_of item = inl e) items ->
  exists e, Tabular.rows_to_add df items = inl e.
Proof.
  induction 1 as [item items [e He]|item items _ [e IH]]; simpl.
  - rewrite He. now exists e.
  - destruct (Tabular.row_of item) as [e0|row]; simpl; [now exists e0|].
    rewrite IH. now exists e.
Qed.

(** X7.  A batch in which one case lacks one of the six keys, or is not a
    dictionary, is refused whole: the JSON script's [save_new_test_cases]
    raises, and neither the table nor the CSV file gets any of its cases,
    the complete ones before the faulty one included. *)
Theorem tabular_save_is_all_or_nothing (items : list jitem) (w : world) :
  Exists (fun item => exists e, Tabular.row_of item = inl e) items ->
  exists e w',
    Tabular.save_new_test_cases (JList items) w = (inl e, w')
    /\ test_cases_df w' = test_cases_df w
    /\ trace w' = trace w.
Proof.
  intros Hbad. unfold Tabular.save_new_test_cases.
  unfold bind, get_df, set_df, ret, lift.
  destruct w as [df tr]; cbn [test_cases_df trace fst snd].
  destruct df as [|r df]; cbn [df_empty test_cases_df trace].
  - destruct (tabular_rows_to_add_raises [] items Hbad) as [e ->].
    now exists e, {| test_cases_df := []; trace := tr |}.
  - destruct (tabular_rows_to_add_raises (r :: df) items Hbad) as [e ->].
    now exists e, {| test_cases_df := r :: df; trace := tr |}.
Qed.

End TableMore.

(* ===================================================================== *)
(** * The parser on every text *)
(* ===================================================================== *)

Lemma occurs_in_inside (sub s pre post : string) :
  occurs_in sub s -> occurs_in sub (pre ++ s ++ post).
Proof.
  intros (a & b & ->). exists (pre ++ a), (b ++ post).
  now rewrite !string_app_assoc.
Qed.

Lemma contains_false_inside (sub s pre post : string) :
  Str.contains sub (pre ++ s ++ post) = false -> Str.contains sub s = false.
Proof.
  intros H. destruct (Str.contains sub s) eqn:E; [|reflexivity].
  apply contains_spec in E.
  apply (occurs_in_inside sub s pre post), contains_spec in E. congruence.
Qed.

Lemma contains_lstrip (sub s : string) :
  Str.contains sub s = false -> Str.contains sub (Str.lstrip s) = false.
Proof.
  intros H. destruct (lstrip_suffix s) as [pre Hpre].
  apply (contains_false_inside sub (Str.lstrip s) pre EmptyString).
  now rewrite string_app_nil_r, <- Hpre.
Qed.

Lemma contains_rstrip (sub s : string) :
  Str.contains sub s = false -> Str.contains sub (Str.rstrip s) = false.
Proof.
  intros H. destruct (rstrip_prefix s) as [post Hpost].
  apply (contains_false_inside sub (Str.rstrip s) EmptyString post).
  simpl. now rewrite <- Hpost.
Qed.

Lemma up_to_label_prefix (labels : list string) (s : string) :
  exists rest, s = up_to_label labels s ++ rest.
Proof.
  induction s as [|c s [rest IH]]; cbn [up_to_label].
  - exists EmptyString. now destruct (existsb _ labels).
  - destruct (existsb _ labels).
    + now exists (String c s).
    + exists rest. simpl. now rewrite <- IH.
Qed.

(** The text before the first label holds no label. *)
Lemma up_to_label_free (labels : list string) (label s : string) :
  In label labels -> label <> EmptyString ->
  Str.contains label (up_to_label labels s) = false.
Proof.
  intros Hin Hne. induction s as [|c s IH]; cbn [up_to_label].
  - assert (Str.contains label EmptyString = false) as E.
    { destruct label; [congruence | reflexivity]. }
    now destruct (existsb _ labels).
  - destruct (existsb (fun l => prefix l (String c s)) labels) eqn:Hex.
    + destruct label; [congruence | reflexivity].
    + cbn [Str.contains].
      destruct (prefix label (String c (up_to_label labels s))) eqn:Hp;
        [|exact IH].
      apply prefix_app in Hp as [post Hp].
      destruct (up_to_label_prefix labels s) as [rest Hrest].
      assert (Hfull : prefix label (String c s) = true).
      { apply prefix_app. exists (post ++ rest).
        rewrite <- string_app_assoc, <- Hp. simpl. now rewrite <- Hrest. }
      assert (existsb (fun l => prefix l (String c s)) labels = true).
      { apply existsb_exists. now exists label. }
      congruence.
Qed.

(** X8.  What [parse_test_case] returns, for every text.  Each field is the text
    between the first occurrence of its label and the next of the four
    labels of the lookahead (or the end), without the white space at its
    ends; it is empty when the label does not occur; and none of the four
    labels occurs in it. *)
Theorem parse_test_case_on_every_text (tc_text : string) :
  parse_test_case tc_text
  = {| Parsed.Test_Scenario :=
         between_labels lookahead_labels "Test_Scenario" tc_text;
       Parsed.Test_Steps := between_labels lookahead_labels "Test_Steps" tc_text;
       Parsed.Pre_Requisite :=
         between_labels lookahead_labels "Pre_Requisite" tc_text;
       Parsed.Expected_Result :=
         between_labels lookahead_labels "Expected_Result" tc_text;
       Parsed.Pass_Fail_Criteria :=
         between_labels lookahead_labels "Pass_Fail_Criteria" tc_text |}
  /\ (forall field,
        Str.strip (parse_field field tc_text) = parse_field field tc_text
        /\ (~ occurs_in (field ++ ":") tc_text ->
            parse_field field tc_text = EmptyString)
        /\ forall label, In label lookahead_labels ->
             ~ occurs_in label (parse_field field tc_text)).
Proof.
  split.
  - unfold parse_test_case. now rewrite !parse_field_between_lookahead_labels.
  - intros field. split; [|split].
    + rewrite parse_field_between_lookahead_labels. unfold between_labels.
      destruct (after_label (field ++ ":") tc_text); [|reflexivity].
      apply strip_idempotent.
    + intros Hno. apply parse_field_absent.
      destruct (Str.contains (field ++ ":") tc_text) eqn:E; [|reflexivity].
      apply contains_spec in E. contradiction.
    + intros label Hin Hocc. apply contains_spec in Hocc.
      rewrite parse_field_between_lookahead_labels in Hocc.
      unfold between_labels in Hocc.
      assert (Hne : label <> EmptyString).
      { simpl in Hin. repeat (destruct Hin as [<-|Hin]; [discriminate|]).
        contradiction. }
      destruct (after_label (field ++ ":") tc_text) as [rest|].
      * unfold Str.strip in Hocc.
        rewrite (contains_rstrip _ _
                   (contains_lstrip _ _
                      (up_to_label_free lookahead_labels label rest Hin Hne)))
          in Hocc.
        discriminate.
      * destruct label; [congruence | discriminate].
Qed.

(* ===================================================================== *)
(** * Formatting, then parsing *)
(* ===================================================================== *)

(** A label that starts inside [s] and lacks the character that follows
    [s] ends inside [s]. *)
Lemma prefix_stops_at (label s rest : string) (sep : ascii) :
  mentions sep label = false ->
  prefix label (s ++ String sep rest) = true -> prefix label s = true.
Proof.
  rewrite !prefix_app. revert s.
  induction label as [|c label IH]; intros s Hm [post H].
  - now exists s.
  - simpl in Hm. apply orb_false_iff in Hm as [Hc Hm].
    destruct s as [|d s]; simpl in H; inversion H; subst.
    + rewrite Ascii.eqb_refl in Hc. discriminate.
    + destruct (IH s Hm (ex_intro _ post H2)) as [post' ->].
      now exists post'.
Qed.

Lemma prefix_contains (label s : string) :
  prefix label s = true -> Str.contains label s = true.
Proof. intros H. destruct s; cbn [Str.contains]; now rewrite H. Qed.

Lemma contains_tail (label s : string) (c : ascii) :
  Str.contains label (String c s) = false ->
  prefix label (String c s) = false /\ Str.contains label s = false.
Proof.
  cbn [Str.contains]. destruct (prefix label (String c s)); [discriminate|].
  now split.
Qed.

Lemma prefix_at_sep (label rest : string) (sep : ascii) :
  label <> EmptyString -> mentions sep label = false ->
  prefix label (String sep rest) = false.
Proof.
  intros Hne Hm. destruct (prefix label (String sep rest)) eqn:E; [|reflexivity].
  apply prefix_app in E as [post E]. destruct label as [|c label]; [congruence|].
  simpl in *. inversion E; subst. rewrite Ascii.eqb_refl in Hm. discriminate.
Qed.

(** Looking for a label skips a stretch of text that does not hold it. *)
Lemma after_label_skip (label s rest : string) (sep : ascii) :
  label <> EmptyString -> mentions sep label = false ->
  Str.contains label s = false ->
  after_label label (s ++ String sep rest) = after_label label rest.
Proof.
  intros Hne Hm. induction s as [|d s IH]; intros Hc.
  - simpl (EmptyString ++ _). cbn [after_label].
    now rewrite (prefix_at_sep label rest sep Hne Hm).
  - apply contains_tail in Hc as [Hp Hc].
    change (String d s ++ String sep rest) with (String d (s ++ String sep rest)).
    cbn [after_label].
    destruct (prefix label (String d (s ++ String sep rest))) eqn:E.
    + apply (prefix_stops_at label (String d s) rest sep Hm) in E. congruence.
    + now apply IH.
Qed.

Lemma drop_app (s rest : string) : Str.drop (String.length s) (s ++ rest) = rest.
Proof. induction s as [|c s IH]; simpl; [now destruct rest | exact IH]. Qed.

Lemma after_label_hit (label rest : string) :
  after_label label (label ++ rest) = Some rest.
Proof.
  assert (Hp : prefix label (label ++ rest) = true)
    by (apply prefix_app; now exists rest).
  destruct (label ++ rest) as [|c t] eqn:E; cbn [after_label]; rewrite Hp;
    rewrite <- E; now rewrite drop_app.
Qed.

Lemma no_label_at (labels : list string) (s rest : string) (sep : ascii) :
  (forall label, In label labels ->
     mentions sep label = false /\ Str.contains label s = false) ->
  s <> EmptyString ->
  existsb (fun label => prefix label (s ++ String sep rest)) labels = false.
Proof.
  intros H Hs. destruct (existsb _ labels) eqn:E; [|reflexivity].
  apply existsb_exists in E as (label & Hin & Hp).
  destruct (H label Hin) as [Hm Hc].
  apply (prefix_stops_at label s rest sep Hm), prefix_contains in Hp. congruence.
Qed.

(** Reading up to the next label passes a stretch of text that holds none. *)
Lemma up_to_label_skip (labels : list string) (s rest : string) (sep : ascii) :
  (forall label, In label labels ->
     label <> EmptyString /\ mentions sep label = false
     /\ Str.contains label s = false) ->
  up_to_label labels (s ++ String sep rest)
  = s ++ String sep (up_to_label labels rest).
Proof.
  induction s as [|d s IH]; intros H.
  - simpl (EmptyString ++ _). cbn [up_to_label].
    assert (E : existsb (fun label => prefix label (String sep rest)) labels
                = false).
    { destruct (existsb _ labels) eqn:E; [|reflexivity].
      apply existsb_exists in E as (label & Hin & Hp).
      destruct (H label Hin) as (Hne & Hm & _).
      rewrite (prefix_at_sep label rest sep Hne Hm) in Hp. discriminate. }
    now rewrite E.
  - change (String d s ++ String sep rest) with (String d (s ++ String sep rest)).
    cbn [up_to_label].
    change (String d (s ++ String sep rest)) with (String d s ++ String sep rest).
    rewrite (no_label_at labels (String d s) rest sep); [|  | discriminate].
    + simpl. f_equal. apply IH. intros label Hin.
      destruct (H label Hin) as (Hne & Hm & Hc).
      apply contains_tail in Hc as [_ Hc]. now repeat split.
    + intros label Hin. destruct (H label Hin) as (_ & Hm & Hc). now split.
Qed.

Lemma up_to_label_hit (labels : list string) (label rest : string) :
  In label labels -> up_to_label labels (label ++ rest) = EmptyString.
Proof.
  intros Hin.
  assert (E : existsb (fun l => prefix l (label ++ rest)) labels = true).
  { apply existsb_exists. exists label. split; [assumption|].
    apply prefix_app. now exists rest. }
  destruct (label ++ rest); cbn [up_to_label]; now rewrite E.
Qed.

Lemma up_to_label_all (labels : list string) (s : string) :
  (forall label, In label labels -> Str.contains label s = false) ->
  up_to_label labels s = s.
Proof.
  induction s as [|d s IH]; intros H; cbn [up_to_label].
  - now destruct (existsb _ labels).
  - assert (E : existsb (fun l => prefix l (String d s)) labels = false).
    { destruct (existsb _ labels) eqn:E; [|reflexivity].
      apply existsb_exists in E as (label & Hin & Hp).
      apply prefix_contains in Hp. rewrite (H label Hin) in Hp. discriminate. }
    rewrite E. f_equal. apply IH. intros label Hin.
    now destruct (contains_tail label s d (H label Hin)).
Qed.

(** Trimming undoes the padding of the format. *)
Lemma rstrip_blank (pad : string) :
  Str.lstrip pad = EmptyString -> Str.rstrip pad = EmptyString.
Proof.
  induction pad as [|e pad IH]; [reflexivity|]. simpl Str.lstrip.
  destruct (Str.is_space e) eqn:He; [|discriminate].
  intros H. rewrite rstrip_cons, (IH H). now rewrite He.
Qed.

Lemma rstrip_app_blank (s pad : string) :
  Str.lstrip pad = EmptyString -> Str.rstrip (s ++ pad) = Str.rstrip s.
Proof.
  intros Hpad. induction s as [|d s IH].
  - simpl. now apply rstrip_blank.
  - change (String d s ++ pad) with (String d (s ++ pad)).
    now rewrite !rstrip_cons, IH.
Qed.

Lemma lstrip_app (s t : string) :
  Str.lstrip (s ++ t)
  = match Str.lstrip s with
    | EmptyString => Str.lstrip t
    | r => r ++ t
    end.
Proof.
  induction s as [|c s IH]; simpl; [reflexivity|].
  destruct (Str.is_space c); [exact IH | reflexivity].
Qed.

Lemma strip_padded (a : ascii) (pad s : string) :
  Str.is_space a = true -> Str.lstrip pad = EmptyString ->
  Str.strip (String a (s ++ pad)) = Str.strip s.
Proof.
  intros Ha Hpad. unfold Str.strip. simpl Str.lstrip. rewrite Ha, lstrip_app.
  destruct (Str.lstrip s) as [|c r].
  - now rewrite Hpad.
  - now apply rstrip_app_blank.
Qed.

Lemma label_free_spec (s label : string) :
  label_free s = true -> In label lookahead_labels ->
  Str.contains label s = false.
Proof.
  unfold label_free. rewrite forallb_forall. intros H Hin.
  apply negb_true_iff. now apply H.
Qed.

Lemma lookahead_label_shape (label : string) :
  In label lookahead_labels ->
  label <> EmptyString /\ mentions " " label = false
  /\ mentions (ascii_of_nat 10) label = false
  /\ Str.contains label "Test_Scenario:" = false.
Proof.
  intros Hin. simpl in Hin.
  repeat (destruct Hin as [<-|Hin];
          [repeat split; (discriminate || reflexivity)|]).
  contradiction.
Qed.

(** Looking for a label passes a whole line [l x] that does not hold it. *)
Lemma after_label_line (label l x rest : string) :
  In label lookahead_labels ->
  Str.contains label l = false -> label_free x = true ->
  after_label label (l ++ String " " (x ++ String (ascii_of_nat 10) rest))
  = after_label label rest.
Proof.
  intros Hin Hl Hx.
  destruct (lookahead_label_shape label Hin) as (Hne & Hsp & Hlf & _).
  rewrite (after_label_skip label l _ " " Hne Hsp Hl).
  apply (after_label_skip label x rest _ Hne Hlf).
  now apply label_free_spec.
Qed.

(** Reading a field value stops at the label of the next line... *)
Lemma up_to_label_line (label x rest : string) :
  In label lookahead_labels -> label_free x = true ->
  up_to_label lookahead_labels
    (String " " (x ++ String (ascii_of_nat 10) (label ++ rest)))
  = String " " (x ++ Str.LF).
Proof.
  intros Hin Hx.
  change (String " " (x ++ String (ascii_of_nat 10) (label ++ rest)))
    with (EmptyString
          ++ String " " (x ++ String (ascii_of_nat 10) (label ++ rest))).
  rewrite up_to_label_skip.
  - rewrite up_to_label_skip.
    + now rewrite (up_to_label_hit lookahead_labels label rest Hin).
    + intros l Hl. destruct (lookahead_label_shape l Hl) as (Hne & _ & Hlf & _).
      repeat split; try assumption. now apply label_free_spec.
  - intros l Hl. destruct (lookahead_label_shape l Hl) as (Hne & Hsp & _ & _).
    repeat split; try assumption. now destruct l.
Qed.

(** ... and the last one runs to the end of the text. *)
Lemma up_to_label_last_line (x : string) :
  label_free x = true ->
  up_to_label lookahead_labels (String " " x) = String " " (x ++ EmptyString).
Proof.
  intros Hx. rewrite string_app_nil_r. apply up_to_label_all.
  intros l Hl. destruct (lookahead_label_shape l Hl) as (Hne & Hsp & _ & _).
  cbn [Str.contains].
  rewrite (prefix_at_sep l x " " Hne Hsp). now apply label_free_spec.
Qed.

Lemma format_tc_lines (tc : TestCase) :
  Script.format_tc tc
  = "Test_Scenario:" ++ String " " (Test_Scenario tc ++ String (ascii_of_nat 10)
     ("Test_Steps:" ++ String " " (Test_Steps tc ++ String (ascii_of_nat 10)
     ("Pre_Requisite:" ++ String " " (Pre_Requisite tc ++ String (ascii_of_nat 10)
     ("Expected_Result:" ++ String " " (Expected_Result tc ++ String (ascii_of_nat 10)
     ("Pass_Fail_Criteria:" ++ String " " (Pass_Fail_Criteria tc))))))))).
Proof. reflexivity. Qed.

Lemma parse_format_tc (tc : TestCase) :
  label_free_case tc = true ->
  parse_test_case (Script.format_tc tc) = stripped (fields_of tc).
Proof.
  unfold label_free_case. rewrite !andb_true_iff.
  intros [[[[H1 H2] H3] H4] H5].
  assert (Hsp : Str.is_space " " = true) by reflexivity.
  assert (Hlf : Str.lstrip Str.LF = EmptyString) by reflexivity.
  assert (Hnil : Str.lstrip EmptyString = EmptyString) by reflexivity.
  unfold parse_test_case, stripped, fields_of. cbn [Parsed.Test_Scenario
    Parsed.Test_Steps Parsed.Pre_Requisite Parsed.Expected_Result
    Parsed.Pass_Fail_Criteria].
  rewrite !parse_field_between_lookahead_labels. unfold between_labels.
  change ("Test_Scenario" ++ ":") with "Test_Scenario:".
  change ("Test_Steps" ++ ":") with "Test_Steps:".
  change ("Pre_Requisite" ++ ":") with "Pre_Requisite:".
  change ("Expected_Result" ++ ":") with "Expected_Result:".
  change ("Pass_Fail_Criteria" ++ ":") with "Pass_Fail_Criteria:".
  rewrite format_tc_lines.
  set (l5 := "Pass_Fail_Criteria:" ++ String " " (Pass_Fail_Criteria tc)).
  set (l4 := "Expected_Result:" ++ _).
  set (l3 := "Pre_Requisite:" ++ _).
  set (l2 := "Test_Steps:" ++ _).
  assert (E1 : after_label "Test_Scenario:"
                 ("Test_Scenario:" ++ String " "
                    (Test_Scenario tc ++ String (ascii_of_nat 10) l2))
               = Some (String " "
                         (Test_Scenario tc ++ String (ascii_of_nat 10) l2)))
    by apply after_label_hit.
  assert (E2 : after_label "Test_Steps:"
                 ("Test_Scenario:" ++ String " "
                    (Test_Scenario tc ++ String (ascii_of_nat 10) l2))
               = Some (String " "
                         (Test_Steps tc ++ String (ascii_of_nat 10) l3))).
  { rewrite after_label_line by (simpl; tauto || reflexivity || assumption).
    apply after_label_hit. }
  assert (E3 : after_label "Pre_Requisite:"
                 ("Test_Scenario:" ++ String " "
                    (Test_Scenario tc ++ String (ascii_of_nat 10) l2))
               = Some (String " "
                         (Pre_Requisite tc ++ String (ascii_of_nat 10) l4))).
  { rewrite after_label_line by (simpl; tauto || reflexivity || assumption).
    unfold l2.
    rewrite after_label_line by (simpl; tauto || reflexivity || assumption).
    apply after_label_hit. }
  assert (E4 : after_label "Expected_Result:"
                 ("Test_Scenario:" ++ String " "
                    (Test_Scenario tc ++ String (ascii_of_nat 10) l2))
               = Some (String " "
                         (Expected_Result tc ++ String (ascii_of_nat 10) l5))).
  { rewrite after_label_line by (simpl; tauto || reflexivity || assumption).
    unfold l2.
    rewrite after_label_line by (simpl; tauto || reflexivity || assumption).
    unfold l3.
    rewrite after_label_line by (simpl; tauto || reflexivity || assumption).
    apply after_label_hit. }
  assert (E5 : after_label "Pass_Fail_Criteria:"
                 ("Test_Scenario:" ++ String " "
                    (Test_Scenario tc ++ String (ascii_of_nat 10) l2))
               = Some (String " " (Pass_Fail_Criteria tc))).
  { rewrite after_label_line by (simpl; tauto || reflexivity || assumption).
    unfold l2.
    rewrite after_label_line by (simpl; tauto || reflexivity || assumption).
    unfold l3.
    rewrite after_label_line by (simpl; tauto || reflexivity || assumption).
    unfold l4.
    rewrite after_label_line by (simpl; tauto || reflexivity || assumption).
    apply after_label_hit. }
  rewrite E1, E2, E3, E4, E5. unfold l2, l3, l4, l5.
  rewrite !up_to_label_line by (simpl; tauto || assumption).
  rewrite (up_to_label_last_line _ H5).
  now rewrite !(strip_padded " " _ _ Hsp) by assumption.
Qed.

Lemma trimmed_case_fields (tc : TestCase) :
  trimmed_case tc = true -> stripped (fields_of tc) = fields_of tc.
Proof.
  unfold trimmed_case, trimmed. rewrite !andb_true_iff, !String.eqb_eq.
  intros [[[[H1 H2] H3] H4] H5]. unfold stripped, fields_of. simpl.
  now rewrite H1, H2, H3, H4, H5.
Qed.

(** X9.  A test case written by [format_tc] is read back by
    [parse_test_case] field by field, each without the white space at its
    ends, provided that no field value holds one of the four labels the
    parser stops at.  When the fields have no white space at their ends
    either, the dictionary the node builds from the parsed block is the
    case that was written. *)
Theorem parse_test_case_reads_format_tc (tc : TestCase) :
  label_free_case tc = true ->
  parse_test_case (Script.format_tc tc) = stripped (fields_of tc)
  /\ (trimmed_case tc = true ->
      Script.case_of (Module_ tc) (parse_test_case (Script.format_tc tc)) = tc).
Proof.
  intros Hfree. split; [now apply parse_format_tc|].
  intros Htrim. rewrite (parse_format_tc tc Hfree), (trimmed_case_fields tc Htrim).
  now destruct tc.
Qed.

(* ===================================================================== *)
(** * What [get_solution] can return *)
(* ===================================================================== *)

Lemma bind_returns {A B} (m : M A) (k : A -> M B) (w w' : world) (b : B) :
  bind m k w = (inr b, w') ->
  exists a w1, m w = (inr a, w1) /\ k a w1 = (inr b, w').
Proof.
  unfold bind. destruct (m w) as [[e|a] w1]; intros H; [discriminate|].
  now exists a, w1.
Qed.

Lemma ret_returns {A} (a b : A) (w w' : world) :
  ret a w = (inr b, w') -> b = a /\ w' = w.
Proof. unfold ret. intros H. now inversion H. Qed.

Section Returns.
Context {ext : Externals}.
Variable cosine : list float -> list float -> exn + float.

Lemma is_similar_returns (query : string) (document : Document) (th : float)
    (w w' : world) (b : bool) :
  is_similar cosine query document th w = (inr b, w') ->
  exists sim,
    similarity cosine query document = inr sim
    /\ b = (th <=? sim)%float
    /\ w' = log (EvEmbed (page_content document)) (log (EvEmbed query) w).
Proof.
  unfold is_similar, similarity, get_embedding. run.
  destruct (embed_query query) as [e|qe]; simpl; [discriminate|].
  destruct (embed_query (page_content document)) as [e|de]; simpl;
    [discriminate|].
  destruct (cosine qe de) as [e|sim]; simpl; [discriminate|].
  intros H. inversion H. now exists sim.
Qed.

Lemma llm_content_returns (p : prompt) (w w' : world) (s : string) :
  llm_content p w = (inr s, w') ->
  exists reply,
    llm_invoke p = inr reply /\ s = Str.strip reply /\ w' = log (EvLlm p) w.
Proof.
  unfold llm_content. run.
  destruct (llm_invoke p) as [e|reply]; [discriminate|].
  intros H. inversion H. now exists reply.
Qed.

(** What the [try] block of the text node returns: the not-found text, or
    the formatted answer for the first retrieved document. *)
Lemma script_try_block_returns (state : Script.AgentState) (w w' : world)
    (r : string) :
  Script.try_block cosine state w = (inr r, w') ->
  r = Script.NOT_FOUND
  \/ exists d rest sim x cases,
       Script.context state = d :: rest
       /\ similarity cosine (Script.input state) d = inr sim
       /\ (threshold_call_site <=? sim)%float = true
       /\ llm_invoke (explanation_prompt (Script.input state) (solution d))
          = inr x
       /\ r = Script.format_response (Script.input state) (solution d)
                (Str.strip x) cases.
Proof.
  unfold Script.try_block. destruct (Script.context state) as [|d rest] eqn:Hc.
  - intros H. apply ret_returns in H as [-> _]. now left.
  - intros H. apply bind_returns in H as (b & w1 & Hs & H).
    apply is_similar_returns in Hs as (sim & Hsim & -> & ->).
    destruct (threshold_call_site <=? sim)%float eqn:Hth; simpl in H.
    + apply bind_returns in H as (x & w2 & Hx & H).
      apply llm_content_returns in Hx as (reply & Hreply & -> & ->).
      apply bind_returns in H as (cases & w3 & _ & H).
      apply ret_returns in H as [-> _].
      right. now exists d, rest, sim, reply, cases.
    + apply ret_returns in H as [-> _]. now left.
Qed.

Lemma script_alternative_returns (error_message : string) (w w' : world)
    (r : string) :
  Script.generate_alternative_solution error_message w = (inr r, w') ->
  exists a t,
    llm_invoke (alt_prompt error_message) = inr a
    /\ llm_invoke (test_case_prompt false error_message (Str.strip a)) = inr t
    /\ r = Script.alt_response (Str.strip a) (Str.strip t).
Proof.
  unfold Script.generate_alternative_solution. intros H.
  apply bind_returns in H as (a & w1 & Ha & H).
  apply llm_content_returns in Ha as (ra & Hra & -> & ->).
  apply bind_returns in H as (t & w2 & Ht & H).
  apply llm_content_returns in Ht as (rt & Hrt & -> & ->).
  apply ret_returns in H as [-> _]. now exists ra, rt.
Qed.

(** What the workflow hands to the scorer. *)
Lemma script_workflow_returns (input : string) (w w' : world) (r : string) :
  Script.agent_invoke_response cosine input w = (inr r, w') ->
  exists docs,
    retriever_invoke input = inr docs
    /\ ((exists e w1,
           Script.try_block cosine (script_state input docs) (entered input w)
           = (inl e, w1) /\ r = Script.error_response e)
        \/ Script.try_block cosine (script_state input docs) (entered input w)
           = (inr r, w')).
Proof.
  rewrite script_workflow_run.
  destruct (retriever_invoke input) as [e|docs]; [discriminate|].
  rewrite script_node_run. intros H. exists docs. split; [reflexivity|].
  destruct (Script.try_block cosine (script_state input docs)
              (entered input w)) as [[e|r0] w1].
  - left. exists e, w1. split; [reflexivity|]. now inversion H.
  - right. now inversion H.
Qed.

Lemma script_get_solution_is_an_answer
    (error_message : string) (w w' : world) (r : string) :
  Script.get_solution cosine error_message w = (inr r, w') ->
  r <> Script.NOT_FOUND.
Proof.
  unfold Script.get_solution, Script.get_solution_autonomously.
  rewrite get_solution_autonomously_single_shot. unfold single_shot.
  intros H. apply bind_returns in H as (r0 & w1 & Hr0 & H).
  destruct (Script.auto_evaluate_solution r0 <? 3)%Z eqn:Hscore.
  - apply script_alternative_returns in H as (a & t & Ha & Ht & ->).
    unfold Script.alt_response, Script.NOT_FOUND. simpl. discriminate.
  - apply ret_returns in H as [-> _]. intros ->. discriminate.
Qed.

(** X10.  The answers of the text scripts.  A text [get_solution] returns is
    never the not-found indicator.  It is the generated alternative; or the
    error-processing text of an exception raised inside the node; or the
    formatted answer for the first retrieved document, with that document's
    stored solution word for word; and the last two only when the scorer
    gave them 3 or more. *)
Theorem script_get_solution_returns
    (error_message : string) (w w' : world) (r : string) :
  Script.get_solution cosine error_message w = (inr r, w') ->
  r <> Script.NOT_FOUND
  /\ ((exists a t,
         llm_invoke (alt_prompt error_message) = inr a
         /\ llm_invoke (test_case_prompt false error_message (Str.strip a))
            = inr t
         /\ r = Script.alt_response (Str.strip a) (Str.strip t))
      \/ (3 <= Script.auto_evaluate_solution r)%Z
         /\ ((exists e docs w1,
                retriever_invoke (Str.strip error_message) = inr docs
                /\ Script.try_block cosine
                     (script_state (Str.strip error_message) docs)
                     (entered (Str.strip error_message) w) = (inl e, w1)
                /\ r = Script.error_response e)
             \/ (exists d rest sim x cases,
                   retriever_invoke (Str.strip error_message) = inr (d :: rest)
                   /\ similarity cosine (Str.strip error_message) d = inr sim
                   /\ (threshold_call_site <=? sim)%float = true
                   /\ llm_invoke (explanation_prompt (Str.strip error_message)
                                    (solution d)) = inr x
                   /\ r = Script.format_response (Str.strip error_message)
                            (solution d) (Str.strip x) cases))).
Proof.
  unfold Script.get_solution, Script.get_solution_autonomously.
  rewrite get_solution_autonomously_single_shot. unfold single_shot.
  intros H. apply bind_returns in H as (r0 & w1 & Hr0 & H).
  destruct (Script.auto_evaluate_solution r0 <? 3)%Z eqn:Hscore.
  - apply script_alternative_returns in H as (a & t & Ha & Ht & ->).
    split; [|left; now exists a, t].
    unfold Script.alt_response, Script.NOT_FOUND. simpl. discriminate.
  - apply ret_returns in H as [-> _]. apply Z.ltb_ge in Hscore.
    split.
    + intros ->. vm_compute in Hscore. now apply Hscore.
    + right. split; [assumption|].
      apply script_workflow_returns in Hr0 as (docs & Hdocs & [He|Hr0]).
      * destruct He as (e & w2 & He & ->). left. now exists e, docs, w2.
      * apply script_try_block_returns in Hr0
          as [->|(d & rest & sim & x & cs & Hc & Hsim & Hth & Hx & ->)].
        -- vm_compute in Hscore. now contradiction Hscore.
        -- simpl in Hc, Hsim, Hx. subst docs. right.
           now exists d, rest, sim, x, cs.
Qed.

End Returns.

Section TabularReturns.
Context {ext : Externals}.

Lemma tabular_try_block_returns (state : Tabular.AgentState) (w w' : world)
    (r : Tabular.Response) :
  Tabular.try_block state w = (inr r, w') ->
  r = Tabular.ErrorResponse Tabular.NOT_FOUND
  \/ exists d rest sim x cases,
       Tabular.context state = d :: rest
       /\ similarity cosine_similarity (Tabular.input state) d = inr sim
       /\ (threshold_call_site <=? sim)%float = true
       /\ llm_invoke (explanation_prompt (Tabular.input state) (solution d))
          = inr x
       /\ r = Tabular.Result (Tabular.input state) (solution d)
                (Str.strip x) cases.
Proof.
  unfold Tabular.try_block.
  destruct (Tabular.context state) as [|d rest] eqn:Hc.
  - intros H. apply ret_returns in H as [-> _]. now left.
  - intros H. apply bind_returns in H as (b & w1 & Hs & H).
    apply is_similar_returns in Hs as (sim & Hsim & -> & ->).
    destruct (threshold_call_site <=? sim)%float eqn:Hth; simpl in H.
    + apply bind_returns in H as (x & w2 & Hx & H).
      apply llm_content_returns in Hx as (reply & Hreply & -> & ->).
      apply bind_returns in H as (cases & w3 & _ & H).
      apply ret_returns in H as [-> _].
      right. now exists d, rest, sim, reply, cases.
    + apply ret_returns in H as [-> _]. now left.
Qed.

Lemma tabular_alternative_returns (error_message : string) (w w' : world)
    (r : Tabular.Response) :
  Tabular.generate_alternative_solution error_message w = (inr r, w') ->
  exists a t,
    llm_invoke (alt_prompt error_message) = inr a
    /\ llm_invoke (test_case_prompt true error_message (Str.strip a)) = inr t
    /\ r = Tabular.Alternative (Str.strip a) (loaded (Str.strip t)).
Proof.
  unfold Tabular.generate_alternative_solution. intros H.
  apply bind_returns in H as (a & w1 & Ha & H).
  apply llm_content_returns in Ha as (ra & Hra & -> & ->).
  apply bind_returns in H as (t & w2 & Ht & H).
  apply llm_content_returns in Ht as (rt & Hrt & -> & ->).
  apply bind_returns in H as (v & w3 & Hv & H).
  rewrite loads_or_empty_run in Hv. inversion Hv; subst.
  apply ret_returns in H as [-> _]. now exists ra, rt.
Qed.

Lemma tabular_workflow_returns (input : string) (w w' : world)
    (r : Tabular.Response) :
  Tabular.agent_invoke_response input w = (inr r, w') ->
  exists docs,
    retriever_invoke input = inr docs
    /\ ((exists e w1,
           Tabular.try_block (tabular_state input docs) (entered input w)
           = (inl e, w1) /\ r = Tabular.error_response e)
        \/ Tabular.try_block (tabular_state input docs) (entered input w)
           = (inr r, w')).
Proof.
  rewrite tabular_workflow_run.
  destruct (retriever_invoke input) as [e|docs]; [discriminate|].
  rewrite tabular_node_run. intros H. exists docs. split; [reflexivity|].
  destruct (Tabular.try_block (tabular_state input docs) (entered input w))
    as [[e|r0] w1].
  - left. exists e, w1. split; [reflexivity|]. now inversion H.
  - right. now inversion H.
Qed.

Lemma tabular_get_solution_kinds
    (error_message : string) (w w' : world) (r : Tabular.Response) :
  Tabular.get_solution error_message w = (inr r, w') ->
  (exists a cases, r = Tabular.Alternative a cases)
  \/ (exists d rest x case cases,
        retriever_invoke (Str.strip error_message) = inr (d :: rest)
        /\ r = Tabular.Result (Str.strip error_message) (solution d)
                 (Str.strip x) (JList (case :: cases))).
Proof.
  unfold Tabular.get_solution, Tabular.get_solution_autonomously.
  rewrite get_solution_autonomously_single_shot. unfold single_shot.
  intros H. apply bind_returns in H as (r0 & w1 & Hr0 & H).
  destruct (Tabular.auto_evaluate_solution r0 <? 3)%Z eqn:Hscore.
  - left. apply tabular_alternative_returns in H as (a & t & _ & _ & ->).
    now eexists _, _.
  - apply ret_returns in H as [-> _]. right.
    apply tabular_workflow_returns in Hr0 as (docs & Hdocs & [He|Hr0]).
    + destruct He as (e & w2 & _ & ->). discriminate.
    + apply tabular_try_block_returns in Hr0
        as [->|(d & rest & sim & x & cs & Hc & _ & _ & _ & ->)];
        [discriminate|].
      simpl in Hc. subst docs.
      unfold Tabular.auto_evaluate_solution in Hscore. simpl in Hscore.
      destruct cs as [[|case cases]|]; try discriminate.
      now exists d, rest, x, case, cases.
Qed.

(** X11.  The answers of the JSON script.  Whatever the collaborators do, a
    dictionary [get_solution] returns is never the not-found or the
    error-processing dictionary.  It is the generated alternative, built
    from the two replies of the generator; or it is the answer for the first
    retrieved document: the query without its outer white space, that
    document's stored solution word for word, the generator's explanation,
    and a list of at least one test case; and then the document passed the
    gate. *)
Theorem tabular_get_solution_returns
    (error_message : string) (w w' : world) (r : Tabular.Response) :
  Tabular.get_solution error_message w = (inr r, w') ->
  (exists a t,
     llm_invoke (alt_prompt error_message) = inr a
     /\ llm_invoke (test_case_prompt true error_message (Str.strip a)) = inr t
     /\ r = Tabular.Alternative (Str.strip a) (loaded (Str.strip t)))
  \/ (exists d rest sim x case cases,
        retriever_invoke (Str.strip error_message) = inr (d :: rest)
        /\ similarity cosine_similarity (Str.strip error_message) d = inr sim
        /\ (threshold_call_site <=? sim)%float = true
        /\ llm_invoke (explanation_prompt (Str.strip error_message)
                         (solution d)) = inr x
        /\ r = Tabular.Result (Str.strip error_message) (solution d)
                 (Str.strip x) (JList (case :: cases))).
Proof.
  unfold Tabular.get_solution, Tabular.get_solution_autonomously.
  rewrite get_solution_autonomously_single_shot. unfold single_shot.
  intros H. apply bind_returns in H as (r0 & w1 & Hr0 & H).
  destruct (Tabular.auto_evaluate_solution r0 <? 3)%Z eqn:Hscore.
  - left. now apply tabular_alternative_returns in H.
  - apply ret_returns in H as [-> _]. right.
    apply tabular_workflow_returns in Hr0 as (docs & Hdocs & [He|Hr0]).
    + destruct He as (e & w2 & _ & ->). discriminate.
    + apply tabular_try_block_returns in Hr0
        as [->|(d & rest & sim & x & cs & Hc & Hsim & Hth & Hx & ->)];
        [discriminate|].
      simpl in Hc, Hsim, Hx. subst docs.
      unfold Tabular.auto_evaluate_solution in Hscore. simpl in Hscore.
      destruct cs as [[|case cases]|]; try discriminate.
      now exists d, rest, sim, x, case, cases.
Qed.

End TabularReturns.

(* ===================================================================== *)
(** * An exception inside the node, seen from [get_solution] *)
(* ===================================================================== *)

(** A text that starts with [c] is not found in a stretch without [c]. *)
Lemma contains_past (c : ascii) (sub pre s : string) :
  mentions c pre = false ->
  Str.contains (String c sub) (pre ++ s) = Str.contains (String c sub) s.
Proof.
  induction pre as [|d pre IH]; intros Hm; [reflexivity|].
  simpl in Hm. apply orb_false_iff in Hm as [Hc Hm].
  change (String d pre ++ s) with (String d (pre ++ s)).
  cbn [Str.contains].
  destruct (prefix (String c sub) (String d (pre ++ s))) eqn:E.
  - apply prefix_app in E as [post E]. simpl in E. inversion E; subst.
    rewrite Ascii.eqb_refl in Hc. discriminate.
  - now apply IH.
Qed.

Lemma script_error_response_score (e : exn) :
  Script.auto_evaluate_solution (Script.error_response e)
  = Script.auto_evaluate_solution (str_exn e).
Proof.
  unfold Script.auto_evaluate_solution, Script.error_response.
  now rewrite !contains_past by reflexivity.
Qed.

Section NodeFailure.
Context {ext : Externals}.
Variable cosine : list float -> list float -> exn + float.

(** X12.  In the text scripts an exception raised inside the node becomes the
    final answer: when its message does not hold [**Error**:], the scorer
    gives the error-processing text 3, [get_solution] returns it as it is,
    and nothing more is called. *)
Theorem script_node_failure_is_the_answer
    (error_message : string) (docs : list Document) (e : exn)
    (w w1 : world) :
  retriever_invoke (Str.strip error_message) = inr docs ->
  Script.try_block cosine (script_state (Str.strip error_message) docs)
    (entered (Str.strip error_message) w) = (inl e, w1) ->
  Str.contains "**Error**:" (str_exn e) = false ->
  Script.get_solution cosine error_message w
  = (inr ("Error processing request: " ++ str_exn e), w1).
Proof.
  intros Hdocs Htry Hmsg.
  unfold Script.get_solution, Script.get_solution_autonomously.
  rewrite get_solution_autonomously_single_shot. unfold single_shot.
  assert (Hrun : Script.agent_invoke_response cosine (Str.strip error_message) w
                 = (inr (Script.error_response e), w1)).
  { rewrite script_workflow_run, Hdocs, script_node_run. now rewrite Htry. }
  rewrite (bind_inr _ _ _ _ _ Hrun).
  rewrite script_error_response_score.
  unfold Script.auto_evaluate_solution. rewrite Hmsg.
  now destruct (Str.contains "### END TEST CASE ###" (str_exn e)).
Qed.

End NodeFailure.

Section TabularNodeFailure.
Context {ext : Externals}.

(** X13.  In the JSON script the same exception never reaches the caller: the
    scorer gives the error-processing dictionary 1, and [get_solution]
    goes on to generate an alternative from where the node stopped. *)
Theorem tabular_node_failure_is_replaced
    (error_message : string) (docs : list Document) (e : exn)
    (w w1 : world) :
  retriever_invoke (Str.strip error_message) = inr docs ->
  Tabular.try_block (tabular_state (Str.strip error_message) docs)
    (entered (Str.strip error_message) w) = (inl e, w1) ->
  Tabular.get_solution error_message w
  = Tabular.generate_alternative_solution error_message w1.
Proof.
  intros Hdocs Htry.
  unfold Tabular.get_solution, Tabular.get_solution_autonomously.
  rewrite get_solution_autonomously_single_shot. unfold single_shot.
  assert (Hrun : Tabular.agent_invoke_response (Str.strip error_message) w
                 = (inr (Tabular.error_response e), w1)).
  { rewrite tabular_workflow_run, Hdocs, tabular_node_run. now rewrite Htry. }
  now rewrite (bind_inr _ _ _ _ _ Hrun).
Qed.

End TabularNodeFailure.

(* ===================================================================== *)
(** * The calls of a request, in order *)
(* ===================================================================== *)

Lemma within_front (front slots : list (event -> bool)) (evs : list event) :
  within slots evs -> within (front ++ slots) evs.
Proof.
  intros H. induction front as [|k front IH]; [exact H|].
  simpl. now apply within_skip.
Qed.

Lemma within_back (slots back : list (event -> bool)) (evs : list event) :
  within slots evs -> within (slots ++ back) evs.
Proof.
  induction 1; simpl.
  - apply within_done.
  - now apply within_take.
  - now apply within_skip.
Qed.

Lemma within_app (slots slots' : list (event -> bool)) (evs evs' : list event) :
  within slots evs -> within slots' evs' ->
  within (slots ++ slots') (evs ++ evs').
Proof.
  intros H H'. induction H; simpl.
  - now apply within_front.
  - now apply within_take.
  - now apply within_skip.
Qed.

(** The calls of a kind are at most the slots that admit the kind. *)
Lemma within_count (kind : event -> bool) (slots : list (event -> bool))
    (evs : list event) (n : nat) :
  within slots evs -> admits kind slots n -> (count kind evs <= n)%nat.
Proof.
  intros H. revert n. induction H as [slots|k slots ev evs Hk _ IH|k slots evs _ IH];
    intros n Ha.
  - unfold count. simpl. lia.
  - inversion Ha as [|? ? ? Hno Ha'|? ? m Ha']; subst.
    + unfold count in *. simpl. rewrite (Hno ev Hk). now apply IH.
    + specialize (IH m Ha'). unfold count in *. simpl.
      destruct (kind ev); simpl; lia.
  - inversion Ha as [|? ? ? Hno Ha'|? ? m Ha']; subst.
    + now apply IH.
    + specialize (IH m Ha'). lia.
Qed.

Section Follows.

Lemma follows_ret {A} (a : A) : follows [] (ret a).
Proof. intros w. exists []. simpl. rewrite app_nil_r. split; [reflexivity | constructor]. Qed.

Lemma follows_raise {A} (e : exn) : follows [] (@raise A e).
Proof. intros w. exists []. simpl. rewrite app_nil_r. split; [reflexivity | constructor]. Qed.

Lemma follows_lift {A} (r : exn + A) : follows [] (lift r).
Proof. intros w. exists []. simpl. rewrite app_nil_r. split; [reflexivity | constructor]. Qed.

Lemma follows_get_df : follows [] get_df.
Proof. intros w. exists []. simpl. rewrite app_nil_r. split; [reflexivity | constructor]. Qed.

Lemma follows_set_df (df : list TestCase) : follows [] (set_df df).
Proof. intros w. exists []. simpl. rewrite app_nil_r. split; [reflexivity | constructor]. Qed.

Lemma follows_call {A} (kind : event -> bool) (ev : event) (answer : exn + A) :
  kind ev = true -> follows [kind] (call ev answer).
Proof.
  intros H w. exists [ev]. simpl. split; [reflexivity|].
  apply within_take; [assumption | constructor].
Qed.

Lemma follows_bind (slots slots' : list (event -> bool)) {A B}
    (m : M A) (k : A -> M B) :
  follows slots m -> (forall a, follows slots' (k a)) ->
  follows (slots ++ slots') (bind m k).
Proof.
  intros Hm Hk w. unfold bind. destruct (Hm w) as (evs & Ht & Hw).
  destruct (m w) as [[e|a] w1]; simpl in *.
  - exists evs. split; [assumption | now apply within_back].
  - destruct (Hk a w1) as (evs' & Ht' & Hw').
    exists (evs ++ evs')%list. rewrite Ht', Ht, app_assoc.
    split; [reflexivity | now apply within_app].
Qed.

Lemma follows_try_except (slots slots' : list (event -> bool)) {A}
    (m : M A) (handler : exn -> M A) :
  follows slots m -> (forall e, follows slots' (handler e)) ->
  follows (slots ++ slots') (try_except m handler).
Proof.
  intros Hm Hh w. unfold try_except. destruct (Hm w) as (evs & Ht & Hw).
  destruct (m w) as [[e|a] w1]; simpl in *.
  - destruct (Hh e w1) as (evs' & Ht' & Hw').
    exists (evs ++ evs')%list. rewrite Ht', Ht, app_assoc.
    split; [reflexivity | now apply within_app].
  - exists evs. split; [assumption | now apply within_back].
Qed.

Lemma follows_front (front slots : list (event -> bool)) {A} (m : M A) :
  follows slots m -> follows (front ++ slots) m.
Proof.
  intros H w. destruct (H w) as (evs & Ht & Hw). exists evs.
  split; [assumption | now apply within_front].
Qed.

Lemma follows_any (slots : list (event -> bool)) {A} (m : M A) :
  follows [] m -> follows slots m.
Proof. intros H. rewrite <- (app_nil_r slots). now apply follows_front. Qed.

End Follows.

(** Steps that make no call. *)
Ltac follows_quiet :=
  repeat first
    [ apply follows_ret | apply follows_raise | apply follows_lift
    | apply follows_get_df | apply follows_set_df
    | apply (follows_bind [] []); [|intros ?]
    | apply (follows_try_except [] []); [|intros ?]
    | match goal with
      | |- follows _ (if ?b then _ else _) => destruct b
      | |- follows _ (match ?x with _ => _ end) => destruct x
      end ].

Section RequestCalls.
Context {ext : Externals}.
Variable cosine : list float -> list float -> exn + float.

Lemma is_similar_follows (query : string) (document : Document) (th : float) :
  follows [is_embed; is_embed] (is_similar cosine query document th).
Proof.
  unfold is_similar, get_embedding.
  apply (follows_bind [is_embed] [is_embed]); [now apply follows_call|].
  intros qe. apply (follows_bind [is_embed] []); [now apply follows_call|].
  intros de. follows_quiet.
Qed.

Lemma llm_content_follows (kind : event -> bool) (p : prompt) :
  kind (EvLlm p) = true -> follows [kind] (llm_content p).
Proof.
  intros H. unfold llm_content.
  apply (follows_bind [kind] []); [now apply follows_call|].
  intros reply. follows_quiet.
Qed.

Lemma save_new_test_cases_follows (new_cases : list TestCase) :
  follows [is_to_csv] (save_new_test_cases new_cases).
Proof.
  unfold save_new_test_cases.
  apply (follows_bind [] [is_to_csv]); [follows_quiet|]. intros df0.
  apply (follows_bind [] [is_to_csv]); [follows_quiet|]. intros _.
  apply (follows_bind [] [is_to_csv]); [follows_quiet|]. intros df.
  destruct (rows_to_add df new_cases); [apply follows_any; follows_quiet|].
  apply (follows_bind [] [is_to_csv]); [follows_quiet|]. intros _.
  now apply follows_call.
Qed.

Lemma tabular_save_follows (new_cases : jvalue) :
  follows [is_to_csv] (Tabular.save_new_test_cases new_cases).
Proof.
  unfold Tabular.save_new_test_cases.
  apply (follows_bind [] [is_to_csv]); [follows_quiet|]. intros df0.
  apply (follows_bind [] [is_to_csv]); [follows_quiet|]. intros _.
  apply (follows_bind [] [is_to_csv]); [follows_quiet|]. intros df.
  apply (follows_bind [] [is_to_csv]); [follows_quiet|]. intros rows.
  destruct rows; [apply follows_any; follows_quiet|].
  apply (follows_bind [] [is_to_csv]); [follows_quiet|]. intros _.
  now apply follows_call.
Qed.

Lemma get_csv_test_cases_follows (module : string) :
  follows [] (get_csv_test_cases module).
Proof. unfold get_csv_test_cases. follows_quiet. Qed.

Lemma script_selected_cases_follows
    (module error_message solution explanation : string) :
  follows [is_case_request; is_to_csv]
    (Script.selected_cases module error_message solution explanation).
Proof.
  unfold Script.selected_cases.
  apply (follows_bind [] [is_case_request; is_to_csv]);
    [apply get_csv_test_cases_follows|].
  intros csv.
  destruct (negb (df_empty csv)
            && (Script.REQUIRED_TEST_CASE_COUNT <=? List.length csv)%nat);
    [apply follows_any; follows_quiet|].
  destruct (negb (df_empty csv)
            && (List.length csv <? Script.REQUIRED_TEST_CASE_COUNT)%nat).
  - apply (follows_bind [is_case_request] [is_to_csv]);
      [now apply llm_content_follows|].
    intros reply. apply (follows_bind [is_to_csv] []); [|intros _; follows_quiet].
    destruct (negb _); [apply save_new_test_cases_follows|].
    apply follows_any; follows_quiet.
  - apply (follows_bind [is_case_request] [is_to_csv]);
      [now apply llm_content_follows|].
    intros reply. apply (follows_bind [is_to_csv] []); [|intros _; follows_quiet].
    destruct (negb _); [apply save_new_test_cases_follows|].
    apply follows_any; follows_quiet.
Qed.

Lemma tabular_selected_cases_follows
    (module error_message solution explanation : string) :
  follows [is_case_request; is_to_csv]
    (Tabular.selected_cases module error_message solution explanation).
Proof.
  unfold Tabular.selected_cases, Tabular.loads_or_empty, Tabular.concatenate.
  apply (follows_bind [] [is_case_request; is_to_csv]);
    [apply get_csv_test_cases_follows|].
  intros csv.
  destruct (negb (df_empty csv)
            && (Tabular.REQUIRED_TEST_CASE_COUNT <=? List.length csv)%nat);
    [apply follows_any; follows_quiet|].
  destruct (negb (df_empty csv)
            && (List.length csv <? Tabular.REQUIRED_TEST_CASE_COUNT)%nat).
  - apply (follows_bind [is_case_request] [is_to_csv]);
      [now apply llm_content_follows|].
    intros reply.
    apply (follows_bind [] [is_to_csv]); [follows_quiet|]. intros additional.
    apply (follows_bind [] [is_to_csv]); [follows_quiet|]. intros selected.
    apply (follows_bind [is_to_csv] []); [|intros _; follows_quiet].
    destruct (Tabular.truth_value additional); [apply tabular_save_follows|].
    apply follows_any; follows_quiet.
  - apply (follows_bind [is_case_request] [is_to_csv]);
      [now apply llm_content_follows|].
    intros reply.
    apply (follows_bind [] [is_to_csv]); [follows_quiet|]. intros selected.
    apply (follows_bind [is_to_csv] []); [|intros _; follows_quiet].
    destruct (Tabular.truth_value selected); [apply tabular_save_follows|].
    apply follows_any; follows_quiet.
Qed.

Lemma script_node_follows (state : Script.AgentState) :
  follows node_calls (Script.validate_or_generate_test_cases cosine state).
Proof.
  unfold Script.validate_or_generate_test_cases.
  apply (follows_try_except node_calls []); [|intros e; follows_quiet].
  unfold Script.try_block.
  destruct (Script.context state) as [|d rest]; [apply follows_any; follows_quiet|].
  apply (follows_bind [is_embed; is_embed]
           [is_explanation; is_case_request; is_to_csv]);
    [apply is_similar_follows|].
  intros similar. destruct (negb similar); [apply follows_any; follows_quiet|].
  apply (follows_bind [is_explanation] [is_case_request; is_to_csv]);
    [now apply llm_content_follows|].
  intros explanation.
  apply (follows_bind [is_case_request; is_to_csv] []);
    [apply script_selected_cases_follows|].
  intros cases. follows_quiet.
Qed.

Lemma script_alternative_follows (error_message : string) :
  follows alternative_calls
    (Script.generate_alternative_solution error_message).
Proof.
  unfold Script.generate_alternative_solution.
  apply (follows_bind [is_alt_prompt] [is_test_case_prompt]);
    [now apply llm_content_follows|].
  intros a. apply (follows_bind [is_test_case_prompt] []);
    [now apply llm_content_follows|].
  intros t. follows_quiet.
Qed.

End RequestCalls.

Section TabularRequestCalls.
Context {ext : Externals}.

Lemma tabular_node_follows (state : Tabular.AgentState) :
  follows node_calls (Tabular.validate_or_generate_test_cases state).
Proof.
  unfold Tabular.validate_or_generate_test_cases.
  apply (follows_try_except node_calls []); [|intros e; follows_quiet].
  unfold Tabular.try_block.
  destruct (Tabular.context state) as [|d rest];
    [apply follows_any; follows_quiet|].
  apply (follows_bind [is_embed; is_embed]
           [is_explanation; is_case_request; is_to_csv]);
    [apply is_similar_follows|].
  intros similar. destruct (negb similar); [apply follows_any; follows_quiet|].
  apply (follows_bind [is_explanation] [is_case_request; is_to_csv]);
    [now apply llm_content_follows|].
  intros explanation.
  apply (follows_bind [is_case_request; is_to_csv] []);
    [apply tabular_selected_cases_follows|].
  intros cases. follows_quiet.
Qed.

Lemma tabular_alternative_follows (error_message : string) :
  follows alternative_calls
    (Tabular.generate_alternative_solution error_message).
Proof.
  unfold Tabular.generate_alternative_solution, Tabular.loads_or_empty.
  apply (follows_bind [is_alt_prompt] [is_test_case_prompt]);
    [now apply llm_content_follows|].
  intros a. apply (follows_bind [is_test_case_prompt] []);
    [now apply llm_content_follows|].
  intros t. follows_quiet.
Qed.

End TabularRequestCalls.

Lemma request_calls_admit :
  admits is_agent_invoke request_calls 0
  /\ admits is_retrieve request_calls 0
  /\ admits is_embed request_calls 2
  /\ admits is_llm request_calls 4
  /\ admits is_to_csv request_calls 1.
Proof.
  unfold request_calls, node_calls, alternative_calls. simpl.
  repeat split;
    repeat first
      [ apply admits_nil
      | apply admits_other;
        [intros [| | |[]|]; simpl; congruence|]
      | apply admits_one ].
Qed.

Lemma request_calls_counts (rest : list event) :
  within request_calls rest ->
  count is_agent_invoke rest = 0%nat /\ count is_retrieve rest = 0%nat
  /\ (count is_embed rest <= 2)%nat /\ (count is_llm rest <= 4)%nat
  /\ (count is_to_csv rest <= 1)%nat.
Proof.
  intros H. destruct request_calls_admit as (Hi & Hr & He & Hl & Hc).
  pose proof (within_count _ _ _ _ H Hi).
  pose proof (within_count _ _ _ _ H Hr).
  pose proof (within_count _ _ _ _ H He).
  pose proof (within_count _ _ _ _ H Hl).
  pose proof (within_count _ _ _ _ H Hc).
  repeat split; lia.
Qed.

(** One evaluation over a workflow that opens with the invocation and the
    retrieval and then runs the node. *)
Lemma single_shot_calls (R : Type) (node : string -> list Document -> M R)
    (agent : string -> M R) (score : R -> Z) (generate : string -> M R)
    {ext : Externals} (error_message : string) (w : world) :
  (forall input w0,
     agent input w0
     = match retriever_invoke input with
       | inl e => (inl e, entered input w0)
       | inr docs => node input docs (entered input w0)
       end) ->
  (forall input docs, follows node_calls (node input docs)) ->
  follows alternative_calls (generate error_message) ->
  exists rest,
    trace (snd (single_shot agent score generate error_message w))
    = (trace w
       ++ EvAgentInvoke (Str.strip error_message)
          :: EvRetrieve (Str.strip error_message) :: rest)%list
    /\ within request_calls rest.
Proof.
  intros Hagent Hnode Hgen. unfold single_shot, bind. rewrite Hagent.
  assert (Hopen : forall rest,
            (trace (entered (Str.strip error_message) w) ++ rest
             = trace w ++ EvAgentInvoke (Str.strip error_message)
                 :: EvRetrieve (Str.strip error_message) :: rest)%list).
  { intros rest. unfold entered, log. simpl. now rewrite <- !app_assoc. }
  destruct (retriever_invoke (Str.strip error_message)) as [e|docs].
  - exists []. simpl. rewrite <- Hopen, app_nil_r.
    split; [reflexivity | constructor].
  - destruct (Hnode (Str.strip error_message) docs
                (entered (Str.strip error_message) w)) as (evs & Ht & Hw).
    destruct (node (Str.strip error_message) docs
                (entered (Str.strip error_message) w)) as [[e|r] w1];
      simpl in Ht |- *.
    + exists evs. rewrite Ht, Hopen. split; [reflexivity|].
      now apply within_back.
    + destruct (score r <? 3)%Z.
      * destruct (Hgen w1) as (evs' & Ht' & Hw').
        exists (evs ++ evs')%list. rewrite Ht', Ht, <- app_assoc, Hopen.
        split; [reflexivity | now apply within_app].
      * exists evs. simpl. rewrite Ht, Hopen. split; [reflexivity|].
        now apply within_back.
Qed.

Section RequestSchedule.
Context {ext : Externals}.
Variable cosine : list float -> list float -> exn + float.

(** X14.  The calls of one request, whatever the query, the table and the
    collaborators do.  [get_solution] first invokes the workflow and
    queries the retriever, once each and with the query without its outer
    white space.  The calls after that come in this order, each at most
    once: the embedding of the query, the embedding of the description, the
    explanation prompt, one request for test cases, one write of the CSV
    file, the alternative-solution prompt, the prompt for its test cases.
    So a request costs at most two embeddings, four generation calls and
    one write, and the retriever is asked once. *)
Theorem get_solution_calls_in_order (error_message : string) (w : world) :
  (exists rest,
     trace (snd (Script.get_solution cosine error_message w))
     = (trace w
        ++ EvAgentInvoke (Str.strip error_message)
           :: EvRetrieve (Str.strip error_message) :: rest)%list
     /\ within request_calls rest
     /\ count is_agent_invoke rest = 0%nat /\ count is_retrieve rest = 0%nat
     /\ (count is_embed rest <= 2)%nat /\ (count is_llm rest <= 4)%nat
     /\ (count is_to_csv rest <= 1)%nat)
  /\ (exists rest,
        trace (snd (Tabular.get_solution error_message w))
        = (trace w
           ++ EvAgentInvoke (Str.strip error_message)
              :: EvRetrieve (Str.strip error_message) :: rest)%list
        /\ within request_calls rest
        /\ count is_agent_invoke rest = 0%nat /\ count is_retrieve rest = 0%nat
        /\ (count is_embed rest <= 2)%nat /\ (count is_llm rest <= 4)%nat
        /\ (count is_to_csv rest <= 1)%nat).
Proof.
  unfold Script.get_solution, Script.get_solution_autonomously,
    Tabular.get_solution, Tabular.get_solution_autonomously.
  rewrite !get_solution_autonomously_single_shot. split.
  - destruct (single_shot_calls string
                (fun input docs =>
                   Script.validate_or_generate_test_cases cosine
                     (script_state input docs))
                (Script.agent_invoke_response cosine)
                Script.auto_evaluate_solution
                Script.generate_alternative_solution error_message w)
      as (rest & Ht & Hw).
    + intros input w0. apply script_workflow_run.
    + intros input docs. apply script_node_follows.
    + apply script_alternative_follows.
    + exists rest. split; [assumption|]. split; [assumption|].
      now apply request_calls_counts.
  - destruct (single_shot_calls Tabular.Response
                (fun input docs =>
                   Tabular.validate_or_generate_test_cases
                     (tabular_state input docs))
                Tabular.agent_invoke_response
                Tabular.auto_evaluate_solution
                Tabular.generate_alternative_solution error_message w)
      as (rest & Ht & Hw).
    + intros input w0. apply tabular_workflow_run.
    + intros input docs. apply tabular_node_follows.
    + apply tabular_alternative_follows.
    + exists rest. split; [assumption|]. split; [assumption|].
      now apply request_calls_counts.
Qed.

End RequestSchedule.

(* ===================================================================== *)
(** * The table during a request *)
(* ===================================================================== *)

Section Appends.
Variable Q : TestCase -> Prop.

Lemma appends_quiet {A} (m : M A) :
  (forall w, test_cases_df (snd (m w)) = test_cases_df w) -> appends Q m.
Proof.
  intros H w. exists []. rewrite H, app_nil_r. split; [reflexivity | constructor].
Qed.

Lemma appends_ret {A} (a : A) : appends Q (ret a).
Proof. now apply appends_quiet. Qed.

Lemma appends_raise {A} (e : exn) : appends Q (@raise A e).
Proof. now apply appends_quiet. Qed.

Lemma appends_lift {A} (r : exn + A) : appends Q (lift r).
Proof. now apply appends_quiet. Qed.

Lemma appends_get_df : appends Q get_df.
Proof. now apply appends_quiet. Qed.

Lemma appends_call {A} (ev : event) (answer : exn + A) :
  appends Q (call ev answer).
Proof. now apply appends_quiet. Qed.

Lemma appends_compose (w w1 w2 : world) :
  (exists added,
     test_cases_df w1 = (test_cases_df w ++ added)%list
     /\ Forall (fun row => ~ In row (test_cases_df w) /\ Q row) added) ->
  (exists added,
     test_cases_df w2 = (test_cases_df w1 ++ added)%list
     /\ Forall (fun row => ~ In row (test_cases_df w1) /\ Q row) added) ->
  exists added,
    test_cases_df w2 = (test_cases_df w ++ added)%list
    /\ Forall (fun row => ~ In row (test_cases_df w) /\ Q row) added.
Proof.
  intros (a1 & E1 & F1) (a2 & E2 & F2). exists (a1 ++ a2)%list.
  rewrite E2, E1, app_assoc. split; [reflexivity|].
  apply Forall_app. split; [assumption|].
  eapply Forall_impl; [|exact F2]. intros row [Hnew Hq]. split; [|assumption].
  intros Hin. apply Hnew. rewrite E1. apply in_or_app. now left.
Qed.

Lemma appends_bind {A B} (m : M A) (k : A -> M B) :
  appends Q m -> (forall a, appends Q (k a)) -> appends Q (bind m k).
Proof.
  intros Hm Hk w. unfold bind. specialize (Hm w).
  destruct (m w) as [[e|a] w1]; simpl in *; [assumption|].
  apply (appends_compose w w1); [assumption | apply Hk].
Qed.

Lemma appends_try_except {A} (m : M A) (handler : exn -> M A) :
  appends Q m -> (forall e, appends Q (handler e)) ->
  appends Q (try_except m handler).
Proof.
  intros Hm Hh w. unfold try_except. specialize (Hm w).
  destruct (m w) as [[e|a] w1]; simpl in *; [|assumption].
  apply (appends_compose w w1); [assumption | apply Hh].
Qed.

End Appends.

Lemma appends_weaken (Q Q' : TestCase -> Prop) {A} (m : M A) :
  (forall row, Q row -> Q' row) -> appends Q m -> appends Q' m.
Proof.
  intros HQ H w. destruct (H w) as (added & E & F). exists added.
  split; [assumption|]. eapply Forall_impl; [|exact F].
  intros row [Hnew Hq]. split; [assumption | now apply HQ].
Qed.

Ltac appends_step :=
  first
    [ apply appends_ret | apply appends_raise | apply appends_lift
    | apply appends_get_df | apply appends_call
    | apply appends_bind; [|intros ?]
    | apply appends_try_except; [|intros ?]
    | match goal with
      | |- appends _ (if ?b then _ else _) => destruct b
      | |- appends _ (match ?x with _ => _ end) => destruct x
      end ].

Ltac appends_all := repeat appends_step.

Lemma parsed_cases_shape (module : string) (raw : list string) :
  Forall (fun row => Module_ row = module /\ Test_Scenario row <> EmptyString)
    (Script.parsed_cases module raw).
Proof.
  induction raw as [|tc_raw raw IH]; cbn [Script.parsed_cases]; [constructor|].
  destruct (Str.truthy (Parsed.Test_Scenario (parse_test_case tc_raw))) eqn:E;
    [|exact IH].
  constructor; [|exact IH]. split; [reflexivity|]. now apply truthy_iff.
Qed.

Section RequestTable.
Context {ext : Externals}.
Variable cosine : list float -> list float -> exn + float.

Lemma save_new_test_cases_adds_rows (Q : TestCase -> Prop)
    (new_cases : list TestCase) :
  Forall Q new_cases -> appends Q (save_new_test_cases new_cases).
Proof.
  intros HQ w. exists (rows_to_add (test_cases_df w) new_cases).
  fold (table_after (save_new_test_cases new_cases) w).
  rewrite save_new_test_cases_table. split; [reflexivity|].
  apply Forall_forall. intros row Hin. apply in_rows_to_add in Hin as [Hin Hnew].
  split; [assumption|]. rewrite Forall_forall in HQ. now apply HQ.
Qed.

Lemma tabular_rows_to_add_fresh (df : list TestCase) (items : list jitem)
    (rows : list TestCase) :
  Tabular.rows_to_add df items = inr rows ->
  Forall (fun row => ~ In row df /\ True) rows.
Proof.
  revert rows. induction items as [|item items IH]; intros rows; simpl.
  - intros H. inversion H. constructor.
  - destruct (Tabular.row_of item) as [e|row]; simpl; [discriminate|].
    destruct (Tabular.rows_to_add df items) as [e|rows']; simpl; [discriminate|].
    intros H. inversion H; subst. specialize (IH rows' eq_refl).
    destruct (df_empty (filter (duplicate_mask row) df)) eqn:E; [|assumption].
    constructor; [|assumption]. split; [|exact I]. now apply no_duplicate_iff.
Qed.

Lemma tabular_save_adds_rows (new_cases : jvalue) :
  appends (fun _ => True) (Tabular.save_new_test_cases new_cases).
Proof.
  intros w. unfold Tabular.save_new_test_cases.
  unfold bind, get_df, set_df, ret, lift, raise, call, log.
  destruct w as [df tr]; cbn [test_cases_df trace fst snd].
  assert (Hsame : (if df_empty df then [] else df) = df) by now destruct df.
  destruct new_cases as [items|truth type_error].
  - destruct df as [|r df]; cbn [df_empty test_cases_df trace fst snd].
    + destruct (Tabular.rows_to_add [] items) as [e|rows] eqn:E; simpl.
      * exists []. split; [reflexivity | constructor].
      * pose proof (tabular_rows_to_add_fresh [] items rows E) as F.
        destruct rows as [|row rows]; simpl.
        -- exists []. split; [reflexivity | constructor].
        -- exists (row :: rows). split; [reflexivity | assumption].
    + destruct (Tabular.rows_to_add (r :: df) items) as [e|rows] eqn:E; simpl.
      * exists []. rewrite app_nil_r. split; [reflexivity | constructor].
      * pose proof (tabular_rows_to_add_fresh (r :: df) items rows E) as F.
        destruct rows as [|row rows]; simpl.
        -- exists []. rewrite app_nil_r. split; [reflexivity | constructor].
        -- exists (row :: rows). split; [reflexivity | assumption].
  - destruct df as [|r df]; cbn [df_empty test_cases_df trace fst snd];
      exists []; rewrite ?app_nil_r; (split; [reflexivity | constructor]).
Qed.

Lemma get_csv_test_cases_appends (Q : TestCase -> Prop) (module : string) :
  appends Q (get_csv_test_cases module).
Proof. unfold get_csv_test_cases. appends_all. Qed.

Lemma is_similar_appends (Q : TestCase -> Prop) (query : string)
    (document : Document) (th : float) :
  appends Q (is_similar cosine query document th).
Proof. unfold is_similar, get_embedding. appends_all. Qed.

Lemma llm_content_appends (Q : TestCase -> Prop) (p : prompt) :
  appends Q (llm_content p).
Proof. unfold llm_content. appends_all. Qed.

Lemma script_selected_cases_appends
    (module error_message solution explanation : string) :
  appends (fun row => Module_ row = module /\ Test_Scenario row <> EmptyString)
    (Script.selected_cases module error_message solution explanation).
Proof.
  unfold Script.selected_cases.
  repeat first [ apply get_csv_test_cases_appends | apply llm_content_appends
               | apply save_new_test_cases_adds_rows, parsed_cases_shape
               | appends_step ].
Qed.

Lemma tabular_selected_cases_appends
    (module error_message solution explanation : string) :
  appends (fun _ => True)
    (Tabular.selected_cases module error_message solution explanation).
Proof.
  unfold Tabular.selected_cases, Tabular.loads_or_empty, Tabular.concatenate.
  repeat first [ apply get_csv_test_cases_appends | apply llm_content_appends
               | apply tabular_save_adds_rows
               | appends_step ].
Qed.

Lemma script_node_appends (state : Script.AgentState) :
  appends (fun row =>
             (forall d rest, Script.context state = d :: rest ->
                             Module_ row = module d)
             /\ Test_Scenario row <> EmptyString)
    (Script.validate_or_generate_test_cases cosine state).
Proof.
  unfold Script.validate_or_generate_test_cases, Script.try_block.
  apply appends_try_except; [|intros e; apply appends_ret].
  destruct (Script.context state) as [|d rest]; [apply appends_ret|].
  apply appends_bind; [apply is_similar_appends|]. intros similar.
  destruct (negb similar); [apply appends_ret|].
  apply appends_bind; [apply llm_content_appends|]. intros explanation.
  apply appends_bind; [|intros cases; apply appends_ret].
  eapply appends_weaken; [|apply script_selected_cases_appends].
  intros row [Hm Hs]. split; [|assumption].
  intros d' rest' H. now inversion H; subst.
Qed.

Lemma tabular_node_appends (state : Tabular.AgentState) :
  appends (fun _ => True) (Tabular.validate_or_generate_test_cases state).
Proof.
  unfold Tabular.validate_or_generate_test_cases, Tabular.try_block.
  repeat first [ apply is_similar_appends | apply llm_content_appends
               | apply tabular_selected_cases_appends
               | appends_step ].
Qed.

End RequestTable.

(** One evaluation over a workflow that retrieves and then runs the node. *)
Lemma single_shot_appends (R : Type) (node : string -> list Document -> M R)
    (agent : string -> M R) (score : R -> Z) (generate : string -> M R)
    {ext : Externals} (Q : list Document -> TestCase -> Prop)
    (error_message : string) :
  (forall input w0,
     agent input w0
     = match retriever_invoke input with
       | inl e => (inl e, entered input w0)
       | inr docs => node input docs (entered input w0)
       end) ->
  (forall input docs, appends (Q docs) (node input docs)) ->
  (forall w0, test_cases_df (snd (generate error_message w0))
              = test_cases_df w0) ->
  appends (fun row => forall docs,
             retriever_invoke (Str.strip error_message) = inr docs ->
             Q docs row)
    (single_shot agent score generate error_message).
Proof.
  intros Hagent Hnode Hgen. unfold single_shot.
  apply appends_bind.
  - intros w. rewrite Hagent.
    destruct (retriever_invoke (Str.strip error_message)) as [e|docs] eqn:Hr.
    + exists []. simpl. rewrite app_nil_r. split; [reflexivity | constructor].
    + destruct (Hnode (Str.strip error_message) docs
                  (entered (Str.strip error_message) w)) as (added & E & F).
      exists added. split; [exact E|].
      eapply Forall_impl; [|exact F]. intros row [Hnew Hq].
      split; [exact Hnew|]. intros docs' H. now inversion H; subst.
  - intros r. destruct (score r <? 3)%Z; [|apply appends_ret].
    now apply appends_quiet.
Qed.

Section RequestTableTheorem.
Context {ext : Externals}.
Variable cosine : list float -> list float -> exn + float.

Lemma script_alternative_table (error_message : string) (w : world) :
  test_cases_df (snd (Script.generate_alternative_solution error_message w))
  = test_cases_df w.
Proof.
  unfold Script.generate_alternative_solution, llm_content.
  unfold bind, call, ret, log.
  destruct (llm_invoke (alt_prompt error_message)) as [e|a]; simpl;
    [reflexivity|].
  now destruct (llm_invoke (test_case_prompt false error_message (Str.strip a))).
Qed.

Lemma tabular_alternative_table (error_message : string) (w : world) :
  test_cases_df (snd (Tabular.generate_alternative_solution error_message w))
  = test_cases_df w.
Proof.
  unfold Tabular.generate_alternative_solution, llm_content.
  unfold bind, call, ret, log.
  destruct (llm_invoke (alt_prompt error_message)) as [e|a]; simpl;
    [reflexivity|].
  destruct (llm_invoke (test_case_prompt true error_message (Str.strip a)))
    as [e|t]; simpl; [reflexivity|].
  now rewrite loads_or_empty_run.
Qed.

(** X15.  A request never removes or changes a stored test case, whatever the
    collaborators do and whether it returns or raises: the table after
    [get_solution] is the table before, followed by rows that were not in
    it.  In the text scripts every added row has a scenario and carries the
    module of the first retrieved document. *)
Theorem get_solution_only_appends (error_message : string) (w : world) :
  (exists added,
     test_cases_df (snd (Script.get_solution cosine error_message w))
     = (test_cases_df w ++ added)%list
     /\ forall row, In row added ->
          ~ In row (test_cases_df w)
          /\ Test_Scenario row <> EmptyString
          /\ forall d rest,
               retriever_invoke (Str.strip error_message) = inr (d :: rest) ->
               Module_ row = module d)
  /\ (exists added,
        test_cases_df (snd (Tabular.get_solution error_message w))
        = (test_cases_df w ++ added)%list
        /\ forall row, In row added -> ~ In row (test_cases_df w)).
Proof.
  unfold Script.get_solution, Script.get_solution_autonomously,
    Tabular.get_solution, Tabular.get_solution_autonomously.
  rewrite !get_solution_autonomously_single_shot. split.
  - destruct (single_shot_appends string
                (fun input docs =>
                   Script.validate_or_generate_test_cases cosine
                     (script_state input docs))
                (Script.agent_invoke_response cosine)
                Script.auto_evaluate_solution
                Script.generate_alternative_solution
                (fun docs row =>
                   (forall d rest, docs = d :: rest -> Module_ row = module d)
                   /\ Test_Scenario row <> EmptyString)
                error_message) with (w := w) as (added & E & F).
    + intros input w0. apply script_workflow_run.
    + intros input docs. apply script_node_appends.
    + apply script_alternative_table.
    + exists added. split; [exact E|]. rewrite Forall_forall in F.
      intros row Hin. destruct (F row Hin) as [Hnew Hq].
      split; [exact Hnew|]. split.
      * destruct (retriever_invoke (Str.strip error_message)) as [e|docs] eqn:Hr.
        -- exfalso. revert E Hin. clear -Hr.
           unfold single_shot, bind. rewrite script_workflow_run, Hr. simpl.
           intros E Hin. apply (f_equal (@List.length _)) in E.
           rewrite length_app in E. destruct added; [assumption|]. simpl in E. lia.
        -- now destruct (Hq docs eq_refl).
      * intros d rest Hr. destruct (Hq _ Hr) as [Hm _]. now apply (Hm d rest).
  - destruct (single_shot_appends Tabular.Response
                (fun input docs =>
                   Tabular.validate_or_generate_test_cases
                     (tabular_state input docs))
                Tabular.agent_invoke_response
                Tabular.auto_evaluate_solution
                Tabular.generate_alternative_solution
                (fun _ _ => True)
                error_message) with (w := w) as (added & E & F).
    + intros input w0. apply tabular_workflow_run.
    + intros input docs. apply tabular_node_appends.
    + apply tabular_alternative_table.
    + exists added. split; [exact E|]. rewrite Forall_forall in F.
      intros row Hin. now destruct (F row Hin).
Qed.

End RequestTableTheorem.

(* ===================================================================== *)
(** * What the Test Case Manager of the text scripts hands over *)
(* ===================================================================== *)



Section Manager.
Context {ext : Externals}.



End Manager.

(* ===================================================================== *)
(** * What the pages show *)
(* ===================================================================== *)

Lemma blank_input (error_input : string) :
  negb (Str.truthy (Str.strip error_input)) = true <-> ~ has_text error_input.
Proof.
  rewrite negb_true_iff, <- strip_truthy_iff.
  destruct (Str.truthy (Str.strip error_input)); split; congruence.
Qed.

Section Pages.
Context {ext : Externals}.

(** X17.  The page of the text agent.  A description of white space only never
    reaches the agent: the page asks for a description, and nothing is
    called or stored.  Otherwise the page shows one element, the text
    [get_solution] returned, and that text is never the not-found
    indicator; when [get_solution] raises, nothing is shown and the
    exception ends the run. *)
Theorem script_page_shows (error_input : string) (w w' : world) (page : screen) :
  ScriptApp.get_rca_report error_input w = (page, w') ->
  (~ has_text error_input
   /\ page = {| shown := [st_error please_enter]; failure := None |}
   /\ w' = w)
  \/ (has_text error_input
      /\ ((exists final_solution,
             Script.get_solution cosine_similarity error_input w
             = (inr final_solution, w')
             /\ final_solution <> Script.NOT_FOUND
             /\ page = {| shown := [st_markdown final_solution];
                          failure := None |})
          \/ (exists e,
                Script.get_solution cosine_similarity error_input w
                = (inl e, w')
                /\ page = {| shown := []; failure := Some e |}))).
Proof.
  unfold ScriptApp.get_rca_report.
  destruct (negb (Str.truthy (Str.strip error_input))) eqn:Hblank.
  - intros H. inversion H; subst. left. now rewrite <- blank_input.
  - assert (Htext : has_text error_input).
    { apply strip_truthy_iff. now apply negb_false_iff. }
    destruct (Script.get_solution cosine_similarity error_input w)
      as [[e|r] w1] eqn:Hrun; intros H; inversion H; subst;
      right; (split; [assumption|]).
    + right. now exists e.
    + left. exists r. split; [reflexivity|]. split; [|reflexivity].
      exact (script_get_solution_is_an_answer _ _ _ _ _ Hrun).
Qed.

Variable frame_empty : list jitem -> exn + bool.

(** X18.  The page of the JSON agent.  A description of white space only never
    reaches the agent.  Otherwise, when [get_solution] returns, the page is
    one of two.  For an answer from the store it shows the query, the
    stored solution and the explanation, then the test cases.  For a
    generated alternative it shows the test-case part alone: the
    alternative solution itself is not put on the page.  The not-found and
    error-processing messages are never shown. *)
Theorem tabular_page_shows (error_input : string) (w w' : world) (page : screen) :
  TabularApp.get_rca_report frame_empty error_input w = (page, w') ->
  (~ has_text error_input
   /\ page = {| shown := [st_error please_enter]; failure := None |}
   /\ w' = w)
  \/ (has_text error_input
      /\ ((exists d rest x case cases,
             retriever_invoke (Str.strip error_input) = inr (d :: rest)
             /\ shown page
                = ([st_markdown ("**Error:** " ++ Str.strip error_input);
                    st_markdown ("**Solution:** " ++ solution d);
                    st_markdown ("**Explanation:** " ++ Str.strip x)]
                   ++ shown (TabularApp.show_test_cases frame_empty
                               (JList (case :: cases))))%list
             /\ failure page
                = failure (TabularApp.show_test_cases frame_empty
                             (JList (case :: cases))))
          \/ (exists a cases,
                Tabular.get_solution error_input w
                = (inr (Tabular.Alternative a cases), w')
                /\ page = TabularApp.show_test_cases frame_empty cases)
          \/ (exists e,
                Tabular.get_solution error_input w = (inl e, w')
                /\ page = {| shown := []; failure := Some e |}))).
Proof.
  unfold TabularApp.get_rca_report.
  destruct (negb (Str.truthy (Str.strip error_input))) eqn:Hblank.
  - intros H. inversion H; subst. left. now rewrite <- blank_input.
  - assert (Htext : has_text error_input).
    { apply strip_truthy_iff. now apply negb_false_iff. }
    destruct (Tabular.get_solution error_input w) as [[e|r] w1] eqn:Hrun;
      intros H; inversion H; subst; right; (split; [assumption|]).
    + right. right. now exists e.
    + destruct (tabular_get_solution_kinds _ _ _ _ Hrun)
        as [(a & cs & ->)|(d & rest & x & case & cases & Hd & ->)].
      * right. left. exists a, cs. split; [reflexivity|].
        unfold TabularApp.show_result, TabularApp.get_test_cases. simpl.
        now destruct (TabularApp.show_test_cases frame_empty cs).
      * left. exists d, rest, x, case, cases. split; [assumption|].
        split; reflexivity.
Qed.

End Pages.

(* ===================================================================== *)
(** * The score of a formatted answer *)
(* ===================================================================== *)

Lemma contains_nil (mark : string) :
  mark <> EmptyString -> Str.contains mark EmptyString = false.
Proof. intros H. destruct mark; [congruence | reflexivity]. Qed.

(** A text without [sep] occurs in [a sep b] when it occurs in [a] or in
    [b]. *)
Lemma contains_split (mark a b : string) (sep : ascii) :
  mark <> EmptyString -> mentions sep mark = false ->
  Str.contains mark (a ++ String sep b)
  = Str.contains mark a || Str.contains mark b.
Proof.
  intros Hne Hm. induction a as [|d a IH].
  - simpl (EmptyString ++ _). rewrite (contains_nil mark Hne).
    cbn [Str.contains orb]. now rewrite (prefix_at_sep mark b sep Hne Hm).
  - change (String d a ++ String sep b) with (String d (a ++ String sep b)).
    cbn [Str.contains]. rewrite IH.
    destruct (prefix mark (String d (a ++ String sep b))) eqn:E.
    + change (String d (a ++ String sep b)) with (String d a ++ String sep b) in E.
      apply (prefix_stops_at mark (String d a) b sep Hm) in E. now rewrite E.
    + destruct (prefix mark (String d a)) eqn:E'; [|reflexivity].
      apply prefix_app in E' as [post E'].
      assert (prefix mark (String d (a ++ String sep b)) = true).
      { apply prefix_app. exists (post ++ String sep b).
        change (String d (a ++ String sep b)) with (String d a ++ String sep b).
        now rewrite E', string_app_assoc. }
      congruence.
Qed.

Lemma contains_after_sep (mark b : string) (sep : ascii) :
  mark <> EmptyString -> mentions sep mark = false ->
  Str.contains mark (String sep b) = Str.contains mark b.
Proof.
  intros Hne Hm. cbn [Str.contains]. now rewrite (prefix_at_sep mark b sep Hne Hm).
Qed.

Lemma format_tc_padded (tc : TestCase) :
  Script.format_tc tc
  = "Test_Scenario: " ++ (Test_Scenario tc ++ String (ascii_of_nat 10)
     ("Test_Steps: " ++ (Test_Steps tc ++ String (ascii_of_nat 10)
     ("Pre_Requisite: " ++ (Pre_Requisite tc ++ String (ascii_of_nat 10)
     ("Expected_Result: " ++ (Expected_Result tc ++ String (ascii_of_nat 10)
     ("Pass_Fail_Criteria: " ++ Pass_Fail_Criteria tc)))))))).
Proof. reflexivity. Qed.

Lemma format_response_lines
    (error_message solution explanation : string) (cases : list TestCase) :
  Script.format_response error_message solution explanation cases
  = "**Error:**" ++ String (ascii_of_nat 10)
     (error_message ++ String (ascii_of_nat 10) (String (ascii_of_nat 10)
     ("**Solution:**" ++ String (ascii_of_nat 10)
     (solution ++ String (ascii_of_nat 10) (String (ascii_of_nat 10)
     ("**Explanation:**" ++ String (ascii_of_nat 10)
     (explanation ++ String (ascii_of_nat 10) (String (ascii_of_nat 10)
     ("**Test Cases:**" ++ String (ascii_of_nat 10)
     (Str.join (Str.LF ++ Str.LF) (map Script.format_tc cases))))))))))).
Proof. reflexivity. Qed.

Section Marks.
(** One of the two marks the text scorer looks for. *)
Variable mark : string.
Hypothesis scorer_mark : mark = "### END TEST CASE ###" \/ mark = "**Error**:".

Lemma mark_shape :
  mark <> EmptyString /\ mentions (ascii_of_nat 10) mark = false
  /\ exists c sub,
       mark = String c sub
       /\ mentions c "Test_Scenario: " = false
       /\ mentions c "Test_Steps: " = false
       /\ mentions c "Pre_Requisite: " = false
       /\ mentions c "Expected_Result: " = false
       /\ mentions c "Pass_Fail_Criteria: " = false.
Proof.
  destruct scorer_mark as [->| ->]; (split; [discriminate|]);
    (split; [reflexivity|]); eexists; eexists; (split; [reflexivity|]);
    repeat split; reflexivity.
Qed.

Lemma mark_not_in_template :
  Str.contains mark "**Error:**" = false
  /\ Str.contains mark "**Solution:**" = false
  /\ Str.contains mark "**Explanation:**" = false
  /\ Str.contains mark "**Test Cases:**" = false.
Proof. destruct scorer_mark as [->| ->]; repeat split; reflexivity. Qed.

Lemma format_tc_mentions (tc : TestCase) :
  Str.contains mark (Script.format_tc tc) = case_mentions mark tc.
Proof.
  destruct mark_shape as (Hne & Hlf & c & sub & E & H1 & H2 & H3 & H4 & H5).
  rewrite format_tc_padded. unfold case_mentions.
  rewrite E in *.
  rewrite (contains_past c sub _ _ H1), (contains_split _ _ _ _ Hne Hlf).
  rewrite (contains_past c sub _ _ H2), (contains_split _ _ _ _ Hne Hlf).
  rewrite (contains_past c sub _ _ H3), (contains_split _ _ _ _ Hne Hlf).
  rewrite (contains_past c sub _ _ H4), (contains_split _ _ _ _ Hne Hlf).
  rewrite (contains_past c sub _ _ H5).
  now rewrite !orb_assoc.
Qed.

Lemma join_mentions (parts : list string) :
  Str.contains mark (Str.join (Str.LF ++ Str.LF) parts)
  = existsb (Str.contains mark) parts.
Proof.
  destruct mark_shape as (Hne & Hlf & _).
  unfold Str.join. induction parts as [|x parts IH].
  - simpl. now apply contains_nil.
  - destruct parts as [|y parts].
    + simpl. now rewrite orb_false_r.
    + change (String.concat (Str.LF ++ Str.LF) (x :: y :: parts))
        with (x ++ String (ascii_of_nat 10)
                     (String (ascii_of_nat 10)
                        (String.concat (Str.LF ++ Str.LF) (y :: parts)))).
      rewrite (contains_split _ _ _ _ Hne Hlf),
        (contains_after_sep _ _ _ Hne Hlf), IH.
      reflexivity.
Qed.

Lemma format_response_mentions
    (error_message solution explanation : string) (cases : list TestCase) :
  Str.contains mark
    (Script.format_response error_message solution explanation cases)
  = answer_mentions mark error_message solution explanation cases.
Proof.
  destruct mark_shape as (Hne & Hlf & _).
  destruct mark_not_in_template as (T1 & T2 & T3 & T4).
  rewrite format_response_lines. unfold answer_mentions.
  rewrite (contains_split _ "**Error:**" _ _ Hne Hlf), T1.
  rewrite (contains_split _ error_message _ _ Hne Hlf).
  rewrite (contains_after_sep _ _ _ Hne Hlf).
  rewrite (contains_split _ "**Solution:**" _ _ Hne Hlf), T2.
  rewrite (contains_split _ solution _ _ Hne Hlf).
  rewrite (contains_after_sep _ _ _ Hne Hlf).
  rewrite (contains_split _ "**Explanation:**" _ _ Hne Hlf), T3.
  rewrite (contains_split _ explanation _ _ Hne Hlf).
  rewrite (contains_after_sep _ _ _ Hne Hlf).
  rewrite (contains_split _ "**Test Cases:**" _ _ Hne Hlf), T4.
  rewrite join_mentions. cbn [orb].
  rewrite !orb_assoc. f_equal.
  induction cases as [|tc cases IH]; [reflexivity|].
  cbn [map existsb]. now rewrite format_tc_mentions, IH.
Qed.

End Marks.

(** X19.  The score of the answer the text node formats, read off its parts.
    The marks of the template itself count for nothing: the answer scores
    5 only when the delimiter [### END TEST CASE ###] occurs in the query,
    the solution, the explanation or a field of a case; else 1 when
    [**Error**:] occurs in one of them; else 3, however many test cases it
    carries. *)
Theorem format_response_score
    (error_message solution explanation : string) (cases : list TestCase) :
  Script.auto_evaluate_solution
    (Script.format_response error_message solution explanation cases)
  = if answer_mentions "### END TEST CASE ###" error_message solution
         explanation cases
    then 5%Z
    else if answer_mentions "**Error**:" error_message solution explanation
              cases
    then 1%Z else 3%Z.
Proof.
  unfold Script.auto_evaluate_solution.
  rewrite (format_response_mentions "### END TEST CASE ###" (or_introl eq_refl)).
  now rewrite (format_response_mentions "**Error**:" (or_intror eq_refl)).
Qed.

(* ===================================================================== *)
(** * A defect the store knows, with its test cases *)
(* ===================================================================== *)

Section StoredAnswer.
Context {ext : Externals}.
Variable cosine : list float -> list float -> exn + float.

Lemma script_selected_cases_full
    (module error_message solution explanation : string) (w : world) :
  (4 <= List.length (csv_test_cases_of module w))%nat ->
  Script.selected_cases module error_message solution explanation w
  = (inr (csv_test_cases_of module w), w).
Proof.
  intros H. unfold Script.selected_cases.
  rewrite (bind_inr _ _ _ _ _ (get_csv_test_cases_reads module w)).
  destruct (csv_test_cases_of module w) as [|c l]; simpl in H; [lia|].
  unfold Script.REQUIRED_TEST_CASE_COUNT. cbn [df_empty negb andb].
  assert ((4 <=? List.length (c :: l))%nat = true) as ->
    by (apply Nat.leb_le; simpl; lia).
  reflexivity.
Qed.

Lemma tabular_selected_cases_full
    (module error_message solution explanation : string) (w : world) :
  (4 <= List.length (csv_test_cases_of module w))%nat ->
  Tabular.selected_cases module error_message solution explanation w
  = (inr (JList (map Tabular.dict_of_case (csv_test_cases_of module w))), w).
Proof.
  intros H. unfold Tabular.selected_cases.
  rewrite (bind_inr _ _ _ _ _ (get_csv_test_cases_reads module w)).
  destruct (csv_test_cases_of module w) as [|c l]; simpl in H; [lia|].
  unfold Tabular.REQUIRED_TEST_CASE_COUNT. cbn [df_empty negb andb].
  assert ((4 <=? List.length (c :: l))%nat = true) as ->
    by (apply Nat.leb_le; simpl; lia).
  reflexivity.
Qed.

(** The world after the node answered from the store: the two opening
    calls, the two embeddings and the explanation prompt, and the table as
    it was. *)
Lemma script_try_block_full (input : string) (d : Document)
    (rest : list Document) (sim : float) (x : string) (w : world) :
  similarity cosine input d = inr sim ->
  (threshold_call_site <=? sim)%float = true ->
  llm_invoke (explanation_prompt input (solution d)) = inr x ->
  (4 <= List.length (csv_test_cases_of (module d) w))%nat ->
  Script.try_block cosine (script_state input (d :: rest)) w
  = (inr (Script.format_response input (solution d) (Str.strip x)
            (csv_test_cases_of (module d) w)),
     log (EvLlm (explanation_prompt input (solution d)))
       (log (EvEmbed (page_content d)) (log (EvEmbed input) w))).
Proof.
  intros Hsim Hth Hx Hfull. unfold Script.try_block, script_state.
  cbn [Script.context Script.input].
  rewrite (bind_inr _ _ _ _ _
             (is_similar_value cosine input d threshold_call_site sim w Hsim)).
  rewrite Hth. cbn [negb].
  rewrite (bind_inr _ _ _ _ _ (llm_content_answers _ _ _ Hx)).
  rewrite (bind_inr _ _ _ _ _
             (script_selected_cases_full (module d) input (solution d)
                (Str.strip x)
                (log (EvLlm (explanation_prompt input (solution d)))
                   (log (EvEmbed (page_content d)) (log (EvEmbed input) w)))
                Hfull)).
  reflexivity.
Qed.

(** X20.  In the text scripts, a query whose nearest document passes the gate,
    for a module with four or more valid stored cases, is answered from
    the store: the stored solution, the generator's explanation and the
    stored cases, formatted.  It costs one generation call, and the table
    is not touched.  This holds when [**Error**:] occurs nowhere in the
    query, the solution, the explanation and the cases. *)
Theorem script_answers_from_the_store
    (error_message : string) (d : Document) (rest : list Document)
    (sim : float) (x : string) (w : world) :
  let query := Str.strip error_message in
  let cases := csv_test_cases_of (module d) w in
  retriever_invoke query = inr (d :: rest) ->
  similarity cosine query d = inr sim ->
  (threshold_call_site <=? sim)%float = true ->
  llm_invoke (explanation_prompt query (solution d)) = inr x ->
  (4 <= List.length cases)%nat ->
  answer_mentions "**Error**:" query (solution d) (Str.strip x) cases = false ->
  Script.get_solution cosine error_message w
  = (inr (Script.format_response query (solution d) (Str.strip x) cases),
     {| test_cases_df := test_cases_df w;
        trace := (trace w
                  ++ [EvAgentInvoke query; EvRetrieve query; EvEmbed query;
                      EvEmbed (page_content d);
                      EvLlm (explanation_prompt query (solution d))])%list |}).
Proof.
  intros query cases Hdocs Hsim Hth Hx Hfull Hclean.
  unfold Script.get_solution, Script.get_solution_autonomously.
  rewrite get_solution_autonomously_single_shot. unfold single_shot.
  fold query.
  erewrite bind_inr.
  2:{ rewrite script_workflow_run, Hdocs, script_node_run.
      rewrite (script_try_block_full query d rest sim x _ Hsim Hth Hx)
        by exact Hfull.
      reflexivity. }
  change (csv_test_cases_of (module d) (entered query w)) with cases.
  assert (Hscore : (Script.auto_evaluate_solution
                      (Script.format_response query (solution d) (Str.strip x)
                         cases) <? 3)%Z = false).
  { unfold Script.auto_evaluate_solution.
    rewrite (format_response_mentions "**Error**:" (or_intror eq_refl)), Hclean.
    now destruct (Str.contains "### END TEST CASE ###" _). }
  rewrite Hscore. unfold ret, entered, log. simpl.
  now rewrite <- !app_assoc.
Qed.

End StoredAnswer.

Section TabularStoredAnswer.
Context {ext : Externals}.

Lemma tabular_try_block_full (input : string) (d : Document)
    (rest : list Document) (sim : float) (x : string) (w : world) :
  similarity cosine_similarity input d = inr sim ->
  (threshold_call_site <=? sim)%float = true ->
  llm_invoke (explanation_prompt input (solution d)) = inr x ->
  (4 <= List.length (csv_test_cases_of (module d) w))%nat ->
  Tabular.try_block (tabular_state input (d :: rest)) w
  = (inr (Tabular.Result input (solution d) (Str.strip x)
            (JList (map Tabular.dict_of_case
                      (csv_test_cases_of (module d) w)))),
     log (EvLlm (explanation_prompt input (solution d)))
       (log (EvEmbed (page_content d)) (log (EvEmbed input) w))).
Proof.
  intros Hsim Hth Hx Hfull. unfold Tabular.try_block, tabular_state.
  cbn [Tabular.context Tabular.input].
  rewrite (bind_inr _ _ _ _ _
             (is_similar_value cosine_similarity input d threshold_call_site
                sim w Hsim)).
  rewrite Hth. cbn [negb].
  rewrite (bind_inr _ _ _ _ _ (llm_content_answers _ _ _ Hx)).
  rewrite (bind_inr _ _ _ _ _
             (tabular_selected_cases_full (module d) input (solution d)
                (Str.strip x)
                (log (EvLlm (explanation_prompt input (solution d)))
                   (log (EvEmbed (page_content d)) (log (EvEmbed input) w)))
                Hfull)).
  reflexivity.
Qed.

(** X21.  In the JSON script, a query whose nearest document passes the gate,
    for a module with four or more valid stored cases, is answered from
    the store: the dictionary holds the query without its outer white
    space, the stored solution word for word, the generator's explanation
    and the stored cases in the order of the table.  It costs one
    generation call, nothing is generated or written, and the table is not
    touched. *)
Theorem tabular_answers_from_the_store
    (error_message : string) (d : Document) (rest : list Document)
    (sim : float) (x : string) (w : world) :
  let query := Str.strip error_message in
  let cases := csv_test_cases_of (module d) w in
  retriever_invoke query = inr (d :: rest) ->
  similarity cosine_similarity query d = inr sim ->
  (threshold_call_site <=? sim)%float = true ->
  llm_invoke (explanation_prompt query (solution d)) = inr x ->
  (4 <= List.length cases)%nat ->
  Tabular.get_solution error_message w
  = (inr (Tabular.Result query (solution d) (Str.strip x)
            (JList (map Tabular.dict_of_case cases))),
     {| test_cases_df := test_cases_df w;
        trace := (trace w
                  ++ [EvAgentInvoke query; EvRetrieve query; EvEmbed query;
                      EvEmbed (page_content d);
                      EvLlm (explanation_prompt query (solution d))])%list |}).
Proof.
  intros query cases Hdocs Hsim Hth Hx Hfull.
  unfold Tabular.get_solution, Tabular.get_solution_autonomously.
  rewrite get_solution_autonomously_single_shot. unfold single_shot.
  fold query.
  erewrite bind_inr.
  2:{ rewrite tabular_workflow_run, Hdocs, tabular_node_run.
      rewrite (tabular_try_block_full query d rest sim x _ Hsim Hth Hx)
        by exact Hfull.
      reflexivity. }
  change (csv_test_cases_of (module d) (entered query w)) with cases.
  assert (Hscore : (Tabular.auto_evaluate_solution
                      (Tabular.Result query (solution d) (Str.strip x)
                         (JList (map Tabular.dict_of_case cases))) <? 3)%Z
                   = false).
  { unfold Tabular.auto_evaluate_solution. simpl.
    destruct cases as [|c l]; [simpl in Hfull; lia | reflexivity]. }
  rewrite Hscore. unfold ret, entered, log. simpl.
  now rewrite <- !app_assoc.
Qed.

End TabularStoredAnswer.

(* ===================================================================== *)
(** * A reply in the format the prompts ask for *)
(* ===================================================================== *)

Lemma rev_onto_app (s acc : string) :
  Str.rev_onto s acc = Str.rev_onto s EmptyString ++ acc.
Proof.
  revert acc. induction s as [|c s IH]; intros acc; [reflexivity|].
  simpl. rewrite IH, (IH (String c EmptyString)), string_app_assoc.
  reflexivity.
Qed.

Lemma mentions_app (c : ascii) (s t : string) :
  mentions c (s ++ t) = mentions c s || mentions c t.
Proof.
  induction s as [|d s IH]; [reflexivity|]. simpl. now rewrite IH, orb_assoc.
Qed.

(** The delimiter does not start inside a block without [#]. *)
Lemma delimiter_not_inside (c : ascii) (b rest : string) :
  mentions "#" (String c b) = false ->
  prefix Script.delimiter (String c b ++ Script.delimiter ++ rest) = false.
Proof.
  intros Hm.
  destruct (prefix Script.delimiter (String c b ++ Script.delimiter ++ rest))
    eqn:E; [|reflexivity].
  apply prefix_app in E as [post E]. simpl in Hm.
  apply orb_false_iff in Hm as [_ Hm].
  destruct b as [|d b]; simpl in E; inversion E; subst.
  simpl in Hm. discriminate.
Qed.

Lemma split_block (b rest cur : string) :
  mentions "#" b = false ->
  Str.split_from Script.delimiter 0 cur (b ++ Script.delimiter ++ rest)
  = (Str.rev_onto cur EmptyString ++ b)
    :: Str.split_from Script.delimiter 0 EmptyString rest.
Proof.
  revert cur. induction b as [|c b IH]; intros cur Hm.
  - rewrite string_app_nil_r.
    change (EmptyString ++ Script.delimiter ++ rest)
      with (String (ascii_of_nat 10)
              ("### END TEST CASE ###" ++ String (ascii_of_nat 10) rest)).
    cbn [Str.split_from].
    assert (prefix Script.delimiter
              (String (ascii_of_nat 10)
                 ("### END TEST CASE ###" ++ String (ascii_of_nat 10) rest))
            = true) as ->
      by (apply prefix_app; exists rest; reflexivity).
    f_equal.
  - change (String c b ++ Script.delimiter ++ rest)
      with (String c (b ++ Script.delimiter ++ rest)).
    cbn [Str.split_from].
    change (String c (b ++ Script.delimiter ++ rest))
      with (String c b ++ Script.delimiter ++ rest).
    rewrite (delimiter_not_inside c b rest Hm).
    simpl in Hm. apply orb_false_iff in Hm as [_ Hm].
    rewrite (IH (String c cur) Hm). f_equal.
    simpl. rewrite rev_onto_app, string_app_assoc. reflexivity.
Qed.

(** A text without the delimiter is one piece. *)
Lemma delimiter_not_at_end (c : ascii) (b : string) :
  mentions "#" (String c b) = false ->
  prefix Script.delimiter (String c b ++ Str.LF ++ end_mark) = false.
Proof.
  intros Hm.
  destruct (prefix Script.delimiter (String c b ++ Str.LF ++ end_mark))
    eqn:E; [|reflexivity].
  apply prefix_app in E as [post E]. simpl in Hm.
  apply orb_false_iff in Hm as [_ Hm].
  destruct b as [|d b]; simpl in E; inversion E; subst.
  simpl in Hm. discriminate.
Qed.

Lemma split_last_block (b cur : string) :
  mentions "#" b = false ->
  Str.split_from Script.delimiter 0 cur (b ++ Str.LF ++ end_mark)
  = [Str.rev_onto cur EmptyString ++ b ++ Str.LF ++ end_mark].
Proof.
  revert cur. induction b as [|c b IH]; intros cur Hm.
  - rewrite <- (rev_onto_app cur (EmptyString ++ Str.LF ++ end_mark)).
    reflexivity.
  - change (String c b ++ Str.LF ++ end_mark)
      with (String c (b ++ Str.LF ++ end_mark)).
    cbn [Str.split_from].
    change (String c (b ++ Str.LF ++ end_mark))
      with (String c b ++ Str.LF ++ end_mark).
    rewrite (delimiter_not_at_end c b Hm).
    simpl in Hm. apply orb_false_iff in Hm as [_ Hm].
    rewrite (IH (String c cur) Hm). f_equal.
    simpl. rewrite rev_onto_app, string_app_assoc. reflexivity.
Qed.

Lemma concat_cons (sep x : string) (l : list string) :
  l <> [] -> String.concat sep (x :: l) = x ++ sep ++ String.concat sep l.
Proof. destruct l; [congruence | reflexivity]. Qed.

Lemma delimited_reply_blocks (cases : list TestCase) (last : TestCase) :
  delimited_reply (cases ++ [last])
  = Str.join Script.delimiter
      (map Script.format_tc cases
       ++ [(Script.format_tc last ++ Str.LF ++ end_mark)%string])%list
    ++ Str.LF.
Proof.
  unfold delimited_reply, Str.join. induction cases as [|c cases IH].
  - simpl. now rewrite !string_app_assoc.
  - cbn [map app]. rewrite !concat_cons.
    + rewrite IH. unfold Script.delimiter. now rewrite !string_app_assoc.
    + now destruct (map Script.format_tc cases).
    + now destruct cases.
Qed.

Lemma split_blocks (blocks : list string) (b : string) :
  Forall (fun block => mentions "#" block = false) blocks ->
  mentions "#" b = false ->
  Str.split Script.delimiter
    (Str.join Script.delimiter
       (blocks ++ [(b ++ Str.LF ++ end_mark)%string])%list)
  = (blocks ++ [(b ++ Str.LF ++ end_mark)%string])%list.
Proof.
  intros Hblocks Hb. unfold Str.split, Str.join.
  induction Hblocks as [|block blocks Hblock _ IH].
  - cbn [app String.concat].
    now rewrite (split_last_block b EmptyString Hb).
  - cbn [app]. rewrite concat_cons by now destruct blocks.
    rewrite (split_block block _ EmptyString Hblock).
    cbn [Str.rev_onto]. now rewrite IH.
Qed.

Lemma rstrip_app_fixed (s t : string) :
  Str.rstrip t = t -> t <> EmptyString -> Str.rstrip (s ++ t) = s ++ t.
Proof.
  intros Ht Hne. induction s as [|c s IH]; [exact Ht|].
  change (String c s ++ t) with (String c (s ++ t)).
  rewrite rstrip_cons, IH. destruct (s ++ t) eqn:E; [|reflexivity].
  destruct s; simpl in E; [congruence | discriminate].
Qed.

Lemma strip_fixed (c : ascii) (s t : string) :
  Str.is_space c = false -> Str.rstrip t = t -> t <> EmptyString ->
  Str.strip (String c (s ++ t)) = String c (s ++ t).
Proof.
  intros Hc Ht Hne. unfold Str.strip. rewrite (lstrip_fixed c _ Hc).
  change (String c (s ++ t)) with (String c s ++ t).
  now apply rstrip_app_fixed.
Qed.

Lemma conforming_parts (tc : TestCase) :
  conforming tc = true ->
  label_free_case tc = true /\ trimmed_case tc = true
  /\ hash_free_case tc = true
  /\ Test_Scenario tc <> EmptyString /\ Pass_Fail_Criteria tc <> EmptyString.
Proof.
  unfold conforming. rewrite !andb_true_iff, !truthy_iff. tauto.
Qed.

Lemma format_tc_hash_free (tc : TestCase) :
  hash_free_case tc = true -> mentions "#" (Script.format_tc tc) = false.
Proof.
  unfold hash_free_case. rewrite !andb_true_iff, !negb_true_iff.
  intros [[[[H1 H2] H3] H4] H5]. rewrite format_tc_padded.
  repeat (rewrite !mentions_app; cbn [mentions]).
  rewrite H1, H2, H3, H4, H5. reflexivity.
Qed.

Lemma format_tc_ends (tc : TestCase) :
  exists c front,
    Script.format_tc tc = String c (front ++ Pass_Fail_Criteria tc)
    /\ Str.is_space c = false.
Proof.
  exists "T"%char,
    ("est_Scenario: " ++ Test_Scenario tc ++ Str.LF
     ++ "Test_Steps: " ++ Test_Steps tc ++ Str.LF
     ++ "Pre_Requisite: " ++ Pre_Requisite tc ++ Str.LF
     ++ "Expected_Result: " ++ Expected_Result tc ++ Str.LF
     ++ "Pass_Fail_Criteria: ").
  split; [|reflexivity]. unfold Script.format_tc.
  now rewrite !string_app_assoc.
Qed.

Lemma format_tc_with_end_mark (tc : TestCase) :
  Script.format_tc (with_end_mark tc)
  = Script.format_tc tc ++ Str.LF ++ end_mark.
Proof.
  unfold Script.format_tc, with_end_mark.
  cbn [Test_Scenario Test_Steps Pre_Requisite Expected_Result
       Pass_Fail_Criteria].
  now rewrite !string_app_assoc.
Qed.

Lemma trimmed_halves (s : string) :
  trimmed s = true -> Str.lstrip s = s /\ Str.rstrip s = s.
Proof. unfold trimmed. rewrite String.eqb_eq. apply strip_fixed_halves. Qed.

Lemma format_tc_trimmed (tc : TestCase) :
  Str.rstrip (Pass_Fail_Criteria tc) = Pass_Fail_Criteria tc ->
  Pass_Fail_Criteria tc <> EmptyString ->
  Str.strip (Script.format_tc tc) = Script.format_tc tc
  /\ Script.format_tc tc <> EmptyString.
Proof.
  intros Hr Hne. destruct (format_tc_ends tc) as (c & front & -> & Hc).
  split; [now apply strip_fixed | discriminate].
Qed.

Lemma cases_raw_blocks (blocks : list string) :
  Forall (fun block => Str.strip block = block /\ block <> EmptyString) blocks ->
  map Str.strip
    (filter (fun tc => Str.truthy (Str.strip tc)) blocks) = blocks.
Proof.
  induction 1 as [|block blocks [Hs Hne] _ IH]; [reflexivity|].
  cbn [filter]. rewrite Hs. apply truthy_iff in Hne. rewrite Hne.
  cbn [map]. now rewrite Hs, IH.
Qed.

Lemma parsed_cases_formatted (module : string) (cases : list TestCase) :
  Forall (fun tc => label_free_case tc = true /\ trimmed_case tc = true
                    /\ Test_Scenario tc <> EmptyString) cases ->
  Script.parsed_cases module (map Script.format_tc cases)
  = map (for_module module) cases.
Proof.
  induction 1 as [|tc cases (Hfree & Htrim & Hne) _ IH]; [reflexivity|].
  cbn [map Script.parsed_cases].
  rewrite (parse_format_tc tc Hfree), (trimmed_case_fields tc Htrim).
  cbn [fields_of Parsed.Test_Scenario]. apply truthy_iff in Hne. rewrite Hne.
  now rewrite IH.
Qed.

Lemma end_mark_label_free (s : string) :
  label_free s = true -> label_free (s ++ Str.LF ++ end_mark) = true.
Proof.
  unfold label_free. rewrite !forallb_forall. intros H label Hin.
  specialize (H label Hin). apply negb_true_iff in H. apply negb_true_iff.
  destruct (lookahead_label_shape label Hin) as (Hne & _ & Hlf & _).
  change (Str.LF ++ end_mark) with (String (ascii_of_nat 10) end_mark).
  rewrite (contains_split _ _ _ _ Hne Hlf), H. simpl in Hin.
  repeat (destruct Hin as [<-|Hin]; [reflexivity|]). contradiction.
Qed.

Lemma end_mark_trimmed (s : string) :
  trimmed s = true -> s <> EmptyString ->
  trimmed (s ++ Str.LF ++ end_mark) = true.
Proof.
  intros Ht Hne. destruct (trimmed_halves s Ht) as [Hl Hr].
  unfold trimmed. apply String.eqb_eq. unfold Str.strip.
  rewrite lstrip_app, Hl. destruct s as [|c s]; [congruence|].
  rewrite <- (string_app_assoc (String c s) Str.LF end_mark).
  apply rstrip_app_fixed; [reflexivity | discriminate].
Qed.

Lemma with_end_mark_conforms (tc : TestCase) :
  conforming tc = true ->
  label_free_case (with_end_mark tc) = true
  /\ trimmed_case (with_end_mark tc) = true
  /\ Test_Scenario (with_end_mark tc) <> EmptyString.
Proof.
  intros H. destruct (conforming_parts tc H) as (Hfree & Htrim & _ & Hs & Hp).
  unfold label_free_case, trimmed_case, with_end_mark in *.
  cbn [Test_Scenario Test_Steps Pre_Requisite Expected_Result
       Pass_Fail_Criteria].
  rewrite !andb_true_iff in *.
  destruct Hfree as [[[[F1 F2] F3] F4] F5].
  destruct Htrim as [[[[T1 T2] T3] T4] T5].
  repeat split; try assumption.
  - now apply end_mark_label_free.
  - now apply end_mark_trimmed.
Qed.

Lemma reply_strip (blocks : list string) (c : ascii) (front b : string) :
  Forall (fun block => exists front', block = String c front') blocks ->
  b = String c front -> Str.is_space c = false ->
  Str.strip
    (Str.join Script.delimiter
       (blocks ++ [(b ++ Str.LF ++ end_mark)%string])%list ++ Str.LF)
  = Str.join Script.delimiter
      (blocks ++ [(b ++ Str.LF ++ end_mark)%string])%list.
Proof.
  intros Hblocks Hb Hc.
  assert (Hshape : exists front',
            Str.join Script.delimiter
              (blocks ++ [(b ++ Str.LF ++ end_mark)%string])%list
            = String c (front' ++ end_mark)).
  { unfold Str.join. induction Hblocks as [|block blocks [f Hf] _ [f' IH]].
    - subst b. exists (front ++ Str.LF). cbn [app String.concat].
      now rewrite <- string_app_assoc.
    - cbn [app]. rewrite concat_cons by now destruct blocks.
      rewrite IH, Hf. exists (f ++ Script.delimiter ++ String c f').
      simpl. now rewrite !string_app_assoc. }
  destruct Hshape as [front' ->]. unfold Str.strip.
  change (String c (front' ++ end_mark) ++ Str.LF)
    with (String c ((front' ++ end_mark) ++ Str.LF)).
  rewrite (lstrip_fixed c _ Hc).
  change (String c ((front' ++ end_mark) ++ Str.LF))
    with (String c (front' ++ end_mark) ++ Str.LF).
  rewrite rstrip_app_blank by reflexivity.
  change (String c (front' ++ end_mark)) with (String c front' ++ end_mark).
  apply rstrip_app_fixed; [reflexivity | discriminate].
Qed.

Lemma end_mark_scores (error_message solution explanation : string)
    (cases : list TestCase) (last : TestCase) :
  Script.auto_evaluate_solution
    (Script.format_response error_message solution explanation
       (cases ++ [with_end_mark last])%list) = 5%Z.
Proof.
  unfold Script.auto_evaluate_solution.
  rewrite (format_response_mentions "### END TEST CASE ###" (or_introl eq_refl)).
  assert (answer_mentions "### END TEST CASE ###" error_message solution
            explanation (cases ++ [with_end_mark last])%list = true) as ->;
    [|reflexivity].
  unfold answer_mentions. rewrite existsb_app. cbn [existsb].
  assert (case_mentions "### END TEST CASE ###" (with_end_mark last) = true)
    as ->; [|now rewrite !orb_true_r].
  unfold case_mentions, with_end_mark.
  cbn [Test_Scenario Test_Steps Pre_Requisite Expected_Result
       Pass_Fail_Criteria].
  assert (Str.contains "### END TEST CASE ###"
            (Pass_Fail_Criteria last ++ Str.LF ++ end_mark) = true) as ->;
    [|now rewrite !orb_true_r].
  apply contains_spec. exists (Pass_Fail_Criteria last ++ Str.LF), EmptyString.
  unfold end_mark. now rewrite string_app_nil_r, string_app_assoc.
Qed.

(** X22.  Take cases in which no field holds a label of the lookahead or
    the character [#], no field has white space at its ends, and the
    scenario and the pass/fail criteria are not empty.  A reply that writes
    each of them as [format_tc] does, followed by a line with the mark
    [### END TEST CASE ###], is split and parsed into those cases under the
    module of the document, but the last case keeps the mark: its
    [Pass_Fail_Criteria] is the one written, a line feed and the mark.  The
    reply is stripped before it is split, and the delimiter ends with the
    line feed the strip removed.  An answer formatted from cases that end
    with such a case scores 5. *)
Theorem delimited_reply_keeps_the_mark
    (module : string) (cases : list TestCase) (last : TestCase) :
  forallb conforming (cases ++ [last]) = true ->
  Script.parsed_cases module
    (Script.cases_raw (Str.strip (delimited_reply (cases ++ [last]))))
  = (map (for_module module) cases
     ++ [for_module module (with_end_mark last)])%list
  /\ forall error_message solution explanation stored,
       Script.auto_evaluate_solution
         (Script.format_response error_message solution explanation
            (stored ++ map (for_module module) cases
             ++ [for_module module (with_end_mark last)])%list) = 5%Z.
Proof.
  intros Hall. split.
  2:{ intros error_message solution explanation stored.
      rewrite app_assoc.
      exact (end_mark_scores error_message solution explanation
               (stored ++ map (for_module module) cases)
               (for_module module last)). }
  revert Hall.
  rewrite forallb_app, andb_true_iff. cbn [forallb]. rewrite andb_true_r.
  rewrite forallb_forall. intros [Hcases Hlast].
  destruct (conforming_parts last Hlast) as (_ & _ & Hhash & _ & _).
  destruct (with_end_mark_conforms last Hlast) as (Lfree & Ltrim & Lne).
  rewrite delimited_reply_blocks.
  erewrite (reply_strip (map Script.format_tc cases) "T"%char).
  - unfold Script.cases_raw. rewrite split_blocks.
    + rewrite <- format_tc_with_end_mark.
      change (map Script.format_tc cases
              ++ [Script.format_tc (with_end_mark last)])%list
        with (map Script.format_tc cases
              ++ map Script.format_tc [with_end_mark last])%list.
      rewrite <- map_app, cases_raw_blocks.
      * rewrite parsed_cases_formatted; [now rewrite map_app|].
        apply Forall_app. split; [|now repeat constructor].
        apply Forall_forall. intros tc Hin.
        destruct (conforming_parts tc (Hcases tc Hin)) as (? & ? & _ & ? & _).
        now repeat split.
      * apply Forall_map, Forall_app. split.
        -- apply Forall_forall. intros tc Hin.
           destruct (conforming_parts tc (Hcases tc Hin))
             as (_ & Htrim & _ & _ & Hp).
           apply format_tc_trimmed; [|assumption].
           unfold trimmed_case in Htrim. rewrite !andb_true_iff in Htrim.
           now destruct (trimmed_halves _ (proj2 Htrim)).
        -- repeat constructor.
           ++ rewrite format_tc_with_end_mark.
              destruct (format_tc_ends last) as (c' & front' & -> & Hc').
              change (String c' (front' ++ Pass_Fail_Criteria last)
                      ++ Str.LF ++ end_mark)
                with (String c' ((front' ++ Pass_Fail_Criteria last)
                                 ++ Str.LF ++ end_mark)).
              rewrite <- (string_app_assoc
                            (front' ++ Pass_Fail_Criteria last) Str.LF end_mark).
              now apply strip_fixed.
           ++ rewrite format_tc_with_end_mark.
              destruct (format_tc_ends last) as (c' & front' & -> & _).
              discriminate.
    + apply Forall_map, Forall_forall. intros tc Hin.
      destruct (conforming_parts tc (Hcases tc Hin)) as (_ & _ & Hh & _ & _).
      now apply format_tc_hash_free.
    + now apply format_tc_hash_free.
  - apply Forall_map, Forall_forall. intros tc _. rewrite format_tc_padded.
    now eexists.
  - rewrite format_tc_padded. reflexivity.
  - reflexivity.
Qed.

(* ===================================================================== *)
(** * The theorems above on the sample store *)
(* ===================================================================== *)

(** A session of two saves, the second repeating a case of the first. *)
Lemma get_csv_test_cases_returns_valid_rows_witness :
  let w := after_saves (ext := offline)
             [[sample_case; blank_scenario_row]; [sample_case; cold_boot_case]]
             empty_world in
  (forall row,
     In row (test_cases_df w)
     <-> exists batch,
           In batch [[sample_case; blank_scenario_row];
                     [sample_case; cold_boot_case]]
           /\ In row batch)
  /\ exists cases,
       get_csv_test_cases "Storage" w = (inr cases, w)
       /\ forall case,
            In case cases
            <-> In case (test_cases_df w) /\ Module_ case = "Storage"
                /\ has_text (Test_Scenario case) /\ has_text (Test_Steps case)
                /\ has_text (Pre_Requisite case)
                /\ has_text (Pass_Fail_Criteria case)
                /\ has_text (Expected_Result case).
Proof.
  apply (@get_csv_test_cases_returns_valid_rows offline
           [[sample_case; blank_scenario_row]; [sample_case; cold_boot_case]]
           "Storage" empty_world).
  reflexivity.
Defined.

(** A new case saved beside a stored one. *)
Lemma save_new_test_cases_keeps_table_distinct_witness :
  no_two_rows_agree
    (test_cases_df
       (snd (save_new_test_cases (ext := offline) [cold_boot_case]
               (world_of [sample_case])))).
Proof.
  apply (@save_new_test_cases_keeps_table_distinct offline [cold_boot_case]
           (world_of [sample_case])).
  - constructor; [intros [] | constructor].
  - constructor; [intros [] | constructor].
Defined.

Lemma tabular_save_is_script_save_witness :
  Tabular.save_new_test_cases (ext := offline)
    (JList [Tabular.dict_of_case cold_boot_case]) (world_of [sample_case])
  = save_new_test_cases (ext := offline) [cold_boot_case]
      (world_of [sample_case]).
Proof.
  apply (@tabular_save_is_script_save offline
           [Tabular.dict_of_case cold_boot_case] [cold_boot_case]
           (world_of [sample_case])).
  repeat constructor. eexists. split; [reflexivity|].
  repeat split; reflexivity.
Defined.

(** A complete case followed by one without the key [Module]. *)
Lemma tabular_save_is_all_or_nothing_witness :
  exists e w',
    Tabular.save_new_test_cases (ext := offline)
      (JList [Tabular.dict_of_case cold_boot_case; five_key_case])
      (world_of [sample_case])
    = (inl e, w')
    /\ test_cases_df w' = test_cases_df (world_of [sample_case])
    /\ trace w' = trace (world_of [sample_case]).
Proof.
  apply (@tabular_save_is_all_or_nothing offline
           [Tabular.dict_of_case cold_boot_case; five_key_case]
           (world_of [sample_case])).
  apply Exists_cons_tl, Exists_cons_hd. exists (KeyError "Module"). reflexivity.
Defined.

Lemma parse_test_case_reads_format_tc_witness :
  parse_test_case (Script.format_tc cold_boot_case)
  = stripped (fields_of cold_boot_case)
  /\ (trimmed_case cold_boot_case = true ->
      Script.case_of (Module_ cold_boot_case)
        (parse_test_case (Script.format_tc cold_boot_case)) = cold_boot_case).
Proof.
  apply (parse_test_case_reads_format_tc cold_boot_case). reflexivity.
Defined.

(** The sample defect with four stored cases, answered by the text agent. *)
Lemma script_get_solution_returns_witness :
  let r := Script.format_response "Disk read error on boot"
             "Replace SATA cable" "The cable was faulty." four_cases in
  r <> Script.NOT_FOUND
  /\ ((exists a t,
         llm_invoke (Externals := text_generator "")
           (alt_prompt " Disk read error on boot ") = inr a
         /\ llm_invoke (Externals := text_generator "")
              (test_case_prompt false " Disk read error on boot "
                 (Str.strip a)) = inr t
         /\ r = Script.alt_response (Str.strip a) (Str.strip t))
      \/ (3 <= Script.auto_evaluate_solution r)%Z
         /\ ((exists e docs w1,
                retriever_invoke (Externals := text_generator "")
                  (Str.strip " Disk read error on boot ") = inr docs
                /\ Script.try_block (ext := text_generator "")
                     cosine_similarity
                     (script_state (Str.strip " Disk read error on boot ")
                        docs)
                     (entered (Str.strip " Disk read error on boot ")
                        (world_of four_cases)) = (inl e, w1)
                /\ r = Script.error_response e)
             \/ (exists d rest sim x cases,
                   retriever_invoke (Externals := text_generator "")
                     (Str.strip " Disk read error on boot ")
                   = inr (d :: rest)
                   /\ similarity (ext := text_generator "") cosine_similarity
                        (Str.strip " Disk read error on boot ") d = inr sim
                   /\ (threshold_call_site <=? sim)%float = true
                   /\ llm_invoke (Externals := text_generator "")
                        (explanation_prompt
                           (Str.strip " Disk read error on boot ")
                           (solution d)) = inr x
                   /\ r = Script.format_response
                            (Str.strip " Disk read error on boot ")
                            (solution d) (Str.strip x) cases))).
Proof.
  apply (@script_get_solution_returns (text_generator "") cosine_similarity
           " Disk read error on boot " (world_of four_cases)
           (snd (Script.get_solution (ext := text_generator "")
                   cosine_similarity " Disk read error on boot "
                   (world_of four_cases)))).
  vm_compute. reflexivity.
Defined.

(** The sample defect with four stored cases, answered by the JSON agent. *)
Lemma tabular_get_solution_returns_witness :
  let r := Tabular.Result "Disk read error on boot" "Replace SATA cable"
             "The cable was faulty."
             (JList (map Tabular.dict_of_case four_cases)) in
  (exists a t,
     llm_invoke (Externals := json_generator [])
       (alt_prompt " Disk read error on boot ") = inr a
     /\ llm_invoke (Externals := json_generator [])
          (test_case_prompt true " Disk read error on boot " (Str.strip a))
        = inr t
     /\ r = Tabular.Alternative (Str.strip a)
              (loaded (ext := json_generator []) (Str.strip t)))
  \/ (exists d rest sim x case cases,
        retriever_invoke (Externals := json_generator [])
          (Str.strip " Disk read error on boot ") = inr (d :: rest)
        /\ similarity (ext := json_generator []) cosine_similarity
             (Str.strip " Disk read error on boot ") d = inr sim
        /\ (threshold_call_site <=? sim)%float = true
        /\ llm_invoke (Externals := json_generator [])
             (explanation_prompt (Str.strip " Disk read error on boot ")
                (solution d)) = inr x
        /\ r = Tabular.Result (Str.strip " Disk read error on boot ")
                 (solution d) (Str.strip x) (JList (case :: cases))).
Proof.
  apply (@tabular_get_solution_returns (json_generator [])
           " Disk read error on boot " (world_of four_cases)
           (snd (Tabular.get_solution (ext := json_generator [])
                   " Disk read error on boot " (world_of four_cases)))).
  vm_compute. reflexivity.
Defined.

(** The generator is down when the node asks for the explanation. *)
Lemma script_node_failure_is_the_answer_witness :
  Script.get_solution (ext := store_llm_down) cosine_similarity
    "Disk read error on boot" empty_world
  = (inr ("Error processing request: "
          ++ str_exn (ExternalError "service unavailable")),
     snd (Script.try_block (ext := store_llm_down) cosine_similarity
            (script_state (Str.strip "Disk read error on boot") [sample_doc])
            (entered (Str.strip "Disk read error on boot") empty_world))).
Proof.
  apply (@script_node_failure_is_the_answer store_llm_down cosine_similarity
           "Disk read error on boot" [sample_doc]
           (ExternalError "service unavailable") empty_world).
  - reflexivity.
  - vm_compute. reflexivity.
  - reflexivity.
Defined.

(** The embedding service is down when the node tests the gate. *)
Lemma tabular_node_failure_is_replaced_witness :
  Tabular.get_solution (ext := embedding_down) "Disk read error on boot"
    empty_world
  = Tabular.generate_alternative_solution (ext := embedding_down)
      "Disk read error on boot"
      (snd (Tabular.try_block (ext := embedding_down)
              (tabular_state (Str.strip "Disk read error on boot")
                 [sample_doc])
              (entered (Str.strip "Disk read error on boot") empty_world))).
Proof.
  apply (@tabular_node_failure_is_replaced embedding_down
           "Disk read error on boot" [sample_doc]
           (ExternalError "embedding unavailable") empty_world).
  - reflexivity.
  - vm_compute. reflexivity.
Defined.


(** The text page on a query the empty store has nothing for. *)
Lemma script_page_shows_witness :
  let page := {| shown := [st_markdown (Script.alt_response "ok" "ok")];
                 failure := None |} in
  let w' := snd (ScriptApp.get_rca_report (ext := empty_store)
                   "BIOS not booting up" empty_world) in
  (~ has_text "BIOS not booting up"
   /\ page = {| shown := [st_error please_enter]; failure := None |}
   /\ w' = empty_world)
  \/ (has_text "BIOS not booting up"
      /\ ((exists final_solution,
             Script.get_solution (ext := empty_store) cosine_similarity
               "BIOS not booting up" empty_world
             = (inr final_solution, w')
             /\ final_solution <> Script.NOT_FOUND
             /\ page = {| shown := [st_markdown final_solution];
                          failure := None |})
          \/ (exists e,
                Script.get_solution (ext := empty_store) cosine_similarity
                  "BIOS not booting up" empty_world
                = (inl e, w')
                /\ page = {| shown := []; failure := Some e |}))).
Proof.
  apply (@script_page_shows empty_store "BIOS not booting up" empty_world).
  vm_compute. reflexivity.
Defined.

(** The JSON page on a query whose nearest document fails the gate: the
    alternative is generated, and the page shows that no test cases are
    available. *)
Lemma tabular_page_shows_witness :
  let page := {| shown := [st_write "No test cases available."];
                 failure := None |} in
  let w' := snd (TabularApp.get_rca_report (ext := far_store) no_columns
                   "BIOS not booting up" empty_world) in
  (~ has_text "BIOS not booting up"
   /\ page = {| shown := [st_error please_enter]; failure := None |}
   /\ w' = empty_world)
  \/ (has_text "BIOS not booting up"
      /\ ((exists d rest x case cases,
             retriever_invoke (Externals := far_store)
               (Str.strip "BIOS not booting up") = inr (d :: rest)
             /\ shown page
                = ([st_markdown ("**Error:** "
                                 ++ Str.strip "BIOS not booting up");
                    st_markdown ("**Solution:** " ++ solution d);
                    st_markdown ("**Explanation:** " ++ Str.strip x)]
                   ++ shown (TabularApp.show_test_cases no_columns
                               (JList (case :: cases))))%list
             /\ failure page
                = failure (TabularApp.show_test_cases no_columns
                             (JList (case :: cases))))
          \/ (exists a cases,
                Tabular.get_solution (ext := far_store) "BIOS not booting up"
                  empty_world
                = (inr (Tabular.Alternative a cases), w')
                /\ page = TabularApp.show_test_cases no_columns cases)
          \/ (exists e,
                Tabular.get_solution (ext := far_store) "BIOS not booting up"
                  empty_world = (inl e, w')
                /\ page = {| shown := []; failure := Some e |}))).
Proof.
  apply (@tabular_page_shows far_store no_columns "BIOS not booting up"
           empty_world).
  vm_compute. reflexivity.
Defined.

(** The sample defect with four stored cases. *)
Lemma script_answers_from_the_store_witness :
  Script.get_solution (ext := text_generator "") cosine_similarity
    " Disk read error on boot " (world_of four_cases)
  = (inr (Script.format_response "Disk read error on boot"
            "Replace SATA cable" "The cable was faulty." four_cases),
     {| test_cases_df := four_cases;
        trace := [EvAgentInvoke "Disk read error on boot";
                  EvRetrieve "Disk read error on boot";
                  EvEmbed "Disk read error on boot";
                  EvEmbed "Disk read error on boot";
                  EvLlm (explanation_prompt "Disk read error on boot"
                           "Replace SATA cable")] |}).
Proof.
  apply (@script_answers_from_the_store (text_generator "") cosine_similarity
           " Disk read error on boot " sample_doc [] 1%float
           "The cable was faulty." (world_of four_cases)).
  - reflexivity.
  - vm_compute. reflexivity.
  - vm_compute. reflexivity.
  - reflexivity.
  - vm_compute. lia.
  - vm_compute. reflexivity.
Defined.

Lemma tabular_answers_from_the_store_witness :
  Tabular.get_solution (ext := json_generator []) " Disk read error on boot "
    (world_of four_cases)
  = (inr (Tabular.Result "Disk read error on boot" "Replace SATA cable"
            "The cable was faulty."
            (JList (map Tabular.dict_of_case four_cases))),
     {| test_cases_df := four_cases;
        trace := [EvAgentInvoke "Disk read error on boot";
                  EvRetrieve "Disk read error on boot";
                  EvEmbed "Disk read error on boot";
                  EvEmbed "Disk read error on boot";
                  EvLlm (explanation_prompt "Disk read error on boot"
                           "Replace SATA cable")] |}).
Proof.
  apply (@tabular_answers_from_the_store (json_generator [])
           " Disk read error on boot " sample_doc [] 1%float
           "The cable was faulty." (world_of four_cases)).
  - reflexivity.
  - vm_compute. reflexivity.
  - vm_compute. reflexivity.
  - reflexivity.
  - vm_compute. lia.
Defined.

(** Two cases, each followed by the mark. *)
Lemma delimited_reply_keeps_the_mark_witness :
  Script.parsed_cases "Storage"
    (Script.cases_raw
       (Str.strip (delimited_reply ([cold_boot_case] ++ [sample_case]))))
  = (map (for_module "Storage") [cold_boot_case]
     ++ [for_module "Storage" (with_end_mark sample_case)])%list
  /\ forall error_message solution explanation stored,
       Script.auto_evaluate_solution
         (Script.format_response error_message solution explanation
            (stored ++ map (for_module "Storage") [cold_boot_case]
             ++ [for_module "Storage" (with_end_mark sample_case)])%list)
       = 5%Z.
Proof.
  apply (delimited_reply_keeps_the_mark "Storage" [cold_boot_case] sample_case).
  reflexivity.
Defined.
